(** * PhotoFiler: a shallow embedding of the media-organization scripts

    The development follows the Python sources
    [sort_media_by_date.py], [ai_photo_renamer.py], [heic_converter.py],
    [master_photo_processor.py] and [copy_to_project.py].  File names are modelled as strings of
    8-bit characters; [str.lower()] and the regular-expression class [\d]
    act on the ASCII range.  A directory is a finite map from entry names
    to entries. *)

From Stdlib Require Import Ascii String QArith.
From stdpp Require Import gmap strings list pretty sorting.

Local Open Scope string_scope.
Local Open Scope list_scope.

(** ** Strings, the way [str] and [pathlib] treat them *)

Definition is_upper (c : ascii) : bool :=
  (65 <=? nat_of_ascii c)%nat && (nat_of_ascii c <=? 90)%nat.

Definition lower_ascii (c : ascii) : ascii :=
  if is_upper c then ascii_of_nat (nat_of_ascii c + 32) else c.

(** [s.lower()] *)
Fixpoint lower (s : string) : string :=
  match s with
  | "" => ""
  | String c r => String (lower_ascii c) (lower r)
  end.

Definition is_digit (c : ascii) : bool :=
  (48 <=? nat_of_ascii c)%nat && (nat_of_ascii c <=? 57)%nat.

(** [s.isdigit()]: non-empty and every character a digit. *)
Fixpoint all_digits (s : string) : bool :=
  match s with
  | "" => true
  | String c r => is_digit c && all_digits r
  end.

Definition isdigit (s : string) : bool :=
  match s with "" => false | _ => all_digits s end.

Fixpoint stake (n : nat) (s : string) : string :=
  match n, s with
  | S k, String c r => String c (stake k r)
  | _, _ => ""
  end.

Fixpoint sdrop (n : nat) (s : string) : string :=
  match n, s with
  | S k, String _ r => sdrop k r
  | _, _ => s
  end.

(** [s.startswith(p)] *)
Fixpoint startswith (p s : string) : bool :=
  match p, s with
  | "", _ => true
  | String a p', String b s' => if decide (a = b) then startswith p' s' else false
  | _, _ => false
  end.

(** [s.rfind(c)], with [None] for Python's [-1]. *)
Fixpoint rfind (c : ascii) (s : string) : option nat :=
  match s with
  | "" => None
  | String a r =>
      match rfind c r with
      | Some i => Some (S i)
      | None => if decide (a = c) then Some 0%nat else None
      end
  end.

(** [s.replace(a, b)] for single characters. *)
Fixpoint replace_char (a b : ascii) (s : string) : string :=
  match s with
  | "" => ""
  | String c r => String (if decide (c = a) then b else c) (replace_char a b r)
  end.

(** ["_".join(l)] *)
Fixpoint join (sep : string) (l : list string) : string :=
  match l with
  | [] => ""
  | [x] => x
  | x :: r => x +:+ sep +:+ join sep r
  end.

(** [PurePath.suffix] of a final path component:
    [i = name.rfind('.')]; the suffix is [name[i:]] when
    [0 < i < len(name) - 1], else the empty string. *)
Definition suffix (name : string) : string :=
  match rfind "." name with
  | Some i =>
      if (0 <? i)%nat && (i <? String.length name - 1)%nat
      then sdrop i name else ""
  | None => ""
  end.

(** [PurePath.stem] *)
Definition stem (name : string) : string :=
  match rfind "." name with
  | Some i =>
      if (0 <? i)%nat && (i <? String.length name - 1)%nat
      then stake i name else name
  | None => name
  end.

(** [name.rsplit('.', 1)] unpacked into two variables: [None] stands for the
    [ValueError] raised when there is no dot. *)
Definition rsplit_dot (name : string) : option (string * string) :=
  match rfind "." name with
  | Some i => Some (stake i name, sdrop (S i) name)
  | None => None
  end.

(** [str(i)] for a non-negative counter. *)
Definition str_nat (i : nat) : string := pretty i.

(** ** Local wall-clock timestamps ([datetime.datetime]) *)

Record datetime := mk_datetime {
  dt_year : nat; dt_month : nat; dt_day : nat;
  dt_hour : nat; dt_minute : nat; dt_second : nat
}.

Global Instance datetime_eq_dec : EqDecision datetime.
Proof. solve_decision. Defined.

Definition is_leap (y : nat) : bool :=
  ((y mod 4 =? 0) && negb (y mod 100 =? 0) || (y mod 400 =? 0))%nat.

Definition days_in_month (y m : nat) : nat :=
  match m with
  | 2 => if is_leap y then 29 else 28
  | 4 | 6 | 9 | 11 => 30
  | _ => 31
  end.

(** The checks of the [datetime] constructor ([MINYEAR = 1],
    [MAXYEAR = 9999]). *)
Definition valid_date (y m d : nat) : bool :=
  (N.of_nat y <=? 9999)%N
  && ((1 <=? y) && (1 <=? m) && (m <=? 12)
      && (1 <=? d) && (d <=? days_in_month y m))%nat.

Definition valid_time (h mi s : nat) : bool :=
  ((h <=? 23) && (mi <=? 59) && (s <=? 59))%nat.

Definition valid_datetime (t : datetime) : bool :=
  valid_date (dt_year t) (dt_month t) (dt_day t)
  && valid_time (dt_hour t) (dt_minute t) (dt_second t).

Definition digit_val (c : ascii) : nat := nat_of_ascii c - 48.

(** [int(s)] for a string of ASCII digits. *)
Fixpoint int_of_digits_acc (acc : nat) (s : string) : nat :=
  match s with
  | "" => acc
  | String c r => int_of_digits_acc (10 * acc + digit_val c) r
  end.

Definition int_of_digits (s : string) : nat := int_of_digits_acc 0 s.

(** [datetime.strptime(name, "%Y%m%d")] on a string of exactly eight
    digits.  The format's regular expression takes four digits for the year;
    the month and day alternatives then have to cover the remaining four
    digits as two two-digit fields, anything shorter leaves unconverted data
    and raises [ValueError].  [None] stands for [ValueError]. *)
Definition strptime_Ymd (s : string) : option (nat * nat * nat) :=
  if (String.length s =? 8)%nat && all_digits s then
    let y := int_of_digits (stake 4 s) in
    let m := int_of_digits (stake 2 (sdrop 4 s)) in
    let d := int_of_digits (stake 2 (sdrop 6 s)) in
    if valid_date y m d then Some (y, m, d) else None
  else None.

(** [datetime.strptime(f"{date_str}_{time_str}", "%Y%m%d_%H%M%S")] for an
    eight-digit [date_str] and a six-digit [time_str], the only shapes the
    patterns below can produce. *)
Definition strptime_Ymd_HMS (date_str time_str : string) : option datetime :=
  match strptime_Ymd date_str with
  | Some (y, m, d) =>
      if (String.length time_str =? 6)%nat && all_digits time_str then
        let h := int_of_digits (stake 2 time_str) in
        let mi := int_of_digits (stake 2 (sdrop 2 time_str)) in
        let s := int_of_digits (stake 2 (sdrop 4 time_str)) in
        if valid_time h mi s then Some (mk_datetime y m d h mi s) else None
      else None
  | None => None
  end.

(** Zero-padded decimal rendering to [w] digits, as [strftime] does for its
    fixed-width fields. *)
Fixpoint zeros (n : nat) : string :=
  match n with O => "" | S k => String "0" (zeros k) end.

Definition pad (w n : nat) : string :=
  zeros (w - String.length (str_nat n)) +:+ str_nat n.

(** [t.strftime("%Y%m%d")]; the year is rendered on four digits. *)
Definition strftime_Ymd (t : datetime) : string :=
  pad 4 (dt_year t) +:+ pad 2 (dt_month t) +:+ pad 2 (dt_day t).

(** [t.strftime("%Y%m%d_%H%M")] *)
Definition strftime_Ymd_HM (t : datetime) : string :=
  strftime_Ymd t +:+ "_" +:+ pad 2 (dt_hour t) +:+ pad 2 (dt_minute t).

(** [x in {...}] for the fixed sets of extensions and keywords. *)
Definition in_set (x : string) (l : list string) : bool := bool_decide (x ∈ l).

(** Truthiness of a [str]. *)
Definition truthy (s : string) : bool := negb (bool_decide (s = "")).

(** ** master_photo_processor.py: configuration and filename composition *)

Module master.

Definition MEDIA_EXT : list string :=
  [".jpg"; ".jpeg"; ".png"; ".heic"; ".heif"; ".mov"; ".mp4"].
Definition CONVERT_TO_JPG : list string := [".heic"; ".heif"].
Definition IMAGE_EXT : list string := [".jpg"; ".jpeg"; ".png"; ".heic"; ".heif"].

(** [PhotoProcessor._normalize_target_format] *)
Definition _normalize_target_format (target_format : string) : option string :=
  let fmt := lower (if truthy target_format then target_format else "auto") in
  if in_set fmt ["auto"; "source"; "original"; ""] then None
  else if in_set fmt ["jpg"; "jpeg"] then Some ".jpg"
  else if bool_decide (fmt = "png") then Some ".png"
  else None.

(** The dictionary returned by [analyze_photo_content]; the float
    [confidence] entry is only printed and is left out. *)
Record analysis := mk_analysis {
  description : string;
  tags : list string
}.

(** [PhotoProcessor.generate_descriptive_filename] *)
Definition generate_descriptive_filename
    (target_ext : option string) (original_name : string)
    (timestamp : datetime) (a : analysis) : string :=
  let date_prefix := strftime_Ymd_HM timestamp in
  let descr :=
    match tags a with
    | [] => description a
    | _ => join "_" (take 3 (tags a))
    end in
  let is_image := in_set (lower (suffix original_name)) IMAGE_EXT in
  let source_ext :=
    if in_set (lower (suffix original_name)) CONVERT_TO_JPG then ".jpg"
    else if truthy (lower (suffix original_name))
         then lower (suffix original_name) else ".jpg" in
  let extension :=
    match target_ext with
    | Some e => if truthy e && is_image then e else source_ext
    | None => source_ext
    end in
  date_prefix +:+ "_" +:+ descr +:+ extension.

End master.

(** ** Collision-free destination names *)

(** [Path.exists()] for an entry name inside a directory listing. *)
Definition exists_in {A} (dir : gmap string A) (name : string) : bool :=
  bool_decide (is_Some (dir !! name)).

(** The probing loop shared by every resolver in the sources:
    [while busy(candidate): candidate = mk(i); i += 1].  The loop has no
    bound in Python; [fuel] bounds the number of probes and [None] means the
    bound was hit. *)
Fixpoint probe (busy : string → bool) (mk : nat → string)
    (fuel i : nat) : option string :=
  match fuel with
  | O => None
  | S k => if busy (mk i) then probe busy mk k (S i) else Some (mk i)
  end.

(** First candidate, then [mk 1], [mk 2], ... while [candidate.exists()].
    A directory with [n] entries cannot hold all of [mk 1 .. mk (n+1)]:
    [S (size dir)] probes are enough (see [first_free_probe] below), so the
    final default is never used. *)
Definition first_free {A} (dir : gmap string A) (first : string)
    (mk : nat → string) : string :=
  if exists_in dir first then
    default first (probe (exists_in dir) mk (S (size dir)) 1)
  else first.

(** The suffixed candidate [f"{stem}_{i}{suffix}"]. *)
Definition candidate (stem_ suffix_ : string) (i : nat) : string :=
  stem_ +:+ "_" +:+ str_nat i +:+ suffix_.

Module heic_converter.
(** [get_jpg_output_path(heic_path)]: the name chosen inside
    [heic_path.parent]. *)
Definition get_jpg_output_path {A} (parent : gmap string A)
    (heic_name : string) : string :=
  first_free parent (stem heic_name +:+ ".jpg")
    (candidate (stem heic_name) ".jpg").
End heic_converter.

(** ** master_photo_processor.py: content tags *)

Module master_tags.
Import master.

Definition DEFAULT_TAGS : list string :=
  [ "yellow trench protection mesh"; "orange conduit bundle";
    "blue water pipe in trench"; "green sewer pipe in trench";
    "concrete stormwater pipe installation"; "pit lid and riser";
    "open trench excavation"; "backfilling trench";
    "bulk earthworks stockpile"; "benching or batter slope";
    "asphalt paving"; "road base preparation"; "concrete footpath pour";
    "excavator digging trench"; "roller compaction";
    "grader on road subgrade";
    "turf installation"; "irrigation installation";
    "landscape planting beds" ].

(** The pixel ratios [countNonZero(mask) / total] of the six hue bands of
    [_color_tags], in declaration order.  The Python values are floats; they
    are rationals here, and the threshold [0.02] is [1/50]. *)
Record color_ratios := mk_ratios {
  yellow : Q; orange : Q; blue : Q; green : Q; red1 : Q; red2 : Q
}.

Definition threshold : Q := 2 # 100.

(** [r > 0.02] *)
Definition exceeds (r : Q) : bool := negb (Qle_bool r threshold).

Definition tag_if (b : bool) (label : string) : list string :=
  if b then [label] else [].

(** [PhotoProcessor._color_tags]: [None] is an image that [cv2.imread]
    cannot read, or any exception inside the heuristic; both return the
    still empty list. *)
Definition _color_tags (image : option color_ratios) : list string :=
  match image with
  | None => []
  | Some r =>
      let red_ratio := (red1 r + red2 r)%Q in
      tag_if (exceeds (yellow r)) "yellow_trench_protection"
      ++ tag_if (exceeds (orange r)) "orange_conduit"
      ++ tag_if (exceeds (blue r)) "blue_water_pipe"
      ++ tag_if (exceeds (green r)) "green_sewer_pipe"
      ++ tag_if (exceeds red_ratio) "red_electrical_marker"
  end.

(** The loop building [clip_tags]: [categories[idx]] with spaces and slashes
    replaced, appended when not yet present.  [None] is the [IndexError] of an
    index outside the candidate list. *)
Fixpoint clip_tags_loop (categories : list string) (top_indices : list nat)
    (clip_tags : list string) : option (list string) :=
  match top_indices with
  | [] => Some clip_tags
  | idx :: rest =>
      match categories !! idx with
      | None => None
      | Some tag =>
          let tag := replace_char "/" "_" (replace_char " " "_" tag) in
          clip_tags_loop categories rest
            (if in_set tag clip_tags then clip_tags else clip_tags ++ [tag])
      end
  end.

(** The merge loop: append when new, stop as soon as three tags are held. *)
Fixpoint merge_loop (l : list string) (merged_tags : list string) : list string :=
  match l with
  | [] => merged_tags
  | tag :: rest =>
      let merged' :=
        if in_set tag merged_tags then merged_tags else merged_tags ++ [tag] in
      if (3 <=? length merged')%nat then merged' else merge_loop rest merged'
  end.

(** The result used when no classifier is loaded and in the [except] branch:
    [tags = color_tags or ["construction"]]. *)
Definition heuristic_only (color_tags : list string) : analysis :=
  let tags := match color_tags with [] => ["construction"] | _ => color_tags end in
  mk_analysis (hd "" tags) (take 3 tags).

(** [PhotoProcessor.analyze_photo_content].  [ai_analyzer] tells whether a
    classifier was loaded; [clip] is what the external classifier answers for
    this image: [None] when opening the image or the inference raises,
    [Some top_indices] for the indices returned by [topk]. *)
Definition analyze_photo_content (ai_analyzer : bool) (ai_tags : list string)
    (image : option color_ratios) (clip : option (list nat)) : analysis :=
  let color_tags := _color_tags image in
  if negb ai_analyzer then heuristic_only color_tags
  else
    let construction_categories :=
      match ai_tags with [] => DEFAULT_TAGS | _ => ai_tags end in
    match clip with
    | None => heuristic_only color_tags
    | Some [] => heuristic_only color_tags   (* [top_indices[0]] raises *)
    | Some top_indices =>
        match clip_tags_loop construction_categories top_indices [] with
        | None => heuristic_only color_tags
        | Some clip_tags =>
            let merged_tags := merge_loop (color_tags ++ clip_tags) [] in
            mk_analysis (hd "construction" merged_tags) merged_tags
        end
    end.

End master_tags.

(** First-occurrence de-duplication: the list a membership-guarded append
    loop builds when it is never cut short. *)
Fixpoint dedup_onto (l acc : list string) : list string :=
  match l with
  | [] => acc
  | x :: rest => dedup_onto rest (if in_set x acc then acc else acc ++ [x])
  end.

(** ** ai_photo_renamer.py *)

(** [sub in s] *)
Fixpoint contains (sub s : string) : bool :=
  startswith sub s
  || match s with "" => false | String _ r => contains sub r end.

(** [s.ljust(w, '0')] *)
Definition ljust0 (w : nat) (s : string) : string :=
  s +:+ zeros (w - String.length s).

(** The next [n] characters when they are all digits ([\d{n}]), with the
    rest of the string. *)
Fixpoint take_digits (n : nat) (s : string) : option (string * string) :=
  match n with
  | O => Some ("", s)
  | S k =>
      match s with
      | String c r =>
          if is_digit c then
            match take_digits k r with
            | Some (d, rest) => Some (String c d, rest)
            | None => None
            end
          else None
      | "" => None
      end
  end.

Module ai_photo_renamer.

Definition CONVERT_TO_JPG : list string := [".heic"; ".heif"].

Definition CONSTRUCTION_CATEGORIES : list (string * list string) :=
  [ ("equipment",
      [ "excavator digging dirt"; "bulldozer pushing soil";
        "dump truck with dirt"; "compactor rolling ground";
        "crane lifting materials"; "loader moving earth";
        "grader leveling ground"; "backhoe excavating" ]);
    ("materials",
      [ "concrete pipe in trench"; "steel reinforcement bars";
        "drainage pipe installation"; "culvert pipe laying";
        "aggregate stone pile"; "sand stockpile"; "gravel material" ]);
    ("soil_types",
      [ "brown clay soil"; "red clay dirt"; "sandy light soil";
        "dark topsoil"; "rocky ground"; "wet muddy soil";
        "compacted base course" ]);
    ("activities",
      [ "excavation work in progress"; "foundation preparation";
        "trench digging"; "ground compaction"; "pipe installation";
        "earthwork construction"; "road base preparation" ]) ].

(** The candidate texts of [analyze_with_clip]. *)
Definition all_texts : list string :=
  concat (snd <$> CONSTRUCTION_CATEGORIES)
  ++ [ "construction site"; "earthwork project"; "civil engineering";
       "outdoor work area" ].

(** The keys of [SOIL_COLORS], the values [analyze_dominant_color] can
    return besides the empty string. *)
Definition SOIL_COLORS : list string := ["brown"; "red"; "sandy"; "dark"; "clay"].

(** The entries of the analysis dictionary that the filename uses. *)
Record analysis := mk_analysis {
  soil_color : string;
  detected_objects : list string
}.

(** A filename pattern [<prefix>(\d{8})<sep>(\d{n})]: its source text and
    the parts the matcher needs. *)
Record pattern := mk_pattern {
  source : string;
  lit_prefix : string;
  lit_sep : string;
  time_digits : nat
}.

Definition patterns : list pattern :=
  [ mk_pattern "PXL_(\d{8})_(\d{6})" "PXL_" "_" 6;
    mk_pattern "IMG_(\d{8})_(\d{6})" "IMG_" "_" 6;
    mk_pattern "(\d{8})_(\d{6})" "" "_" 6;
    mk_pattern "IMG-(\d{8})-WA(\d{4})" "IMG-" "-WA" 4 ].

(** The pattern matched at the very start of [s]: its two groups. *)
Definition match_here (p : pattern) (s : string) : option (string * string) :=
  if startswith (lit_prefix p) s then
    match take_digits 8 (sdrop (String.length (lit_prefix p)) s) with
    | Some (g1, r) =>
        if startswith (lit_sep p) r then
          match take_digits (time_digits p) (sdrop (String.length (lit_sep p)) r) with
          | Some (g2, _) => Some (g1, g2)
          | None => None
          end
        else None
    | None => None
    end
  else None.

(** [re.search(pattern, filename)]: the leftmost position at which the
    pattern matches. *)
Fixpoint re_search (p : pattern) (s : string) : option (string * string) :=
  match match_here p s with
  | Some g => Some g
  | None => match s with "" => None | String _ r => re_search p r end
  end.

(** The body of the loop over the patterns, for one pattern: [Some dt] is
    the [return dt], [None] is "no match" or the [continue] after
    [ValueError]. *)
Definition try_pattern (p : pattern) (filename : string) : option datetime :=
  match re_search p filename with
  | Some (g1, g2) =>
      let time_str := if contains "WA" (source p) then ljust0 6 g2 else g2 in
      strptime_Ymd_HMS g1 time_str
  | None => None
  end.

Fixpoint first_pattern (ps : list pattern) (filename : string) : option datetime :=
  match ps with
  | [] => None
  | p :: rest =>
      match try_pattern p filename with
      | Some dt => Some dt
      | None => first_pattern rest filename
      end
  end.

(** [extract_timestamp_from_filename] *)
Definition extract_timestamp_from_filename (filename : string) : option datetime :=
  first_pattern patterns filename.

(** The [if/elif] chain that shortens the primary detection. *)
Definition simplify_primary (primary : string) : string :=
  if contains "excavator" primary then "excavator"
  else if contains "bulldozer" primary then "bulldozer"
  else if contains "truck" primary then "truck"
  else if contains "pipe" primary then "pipe"
  else if contains "concrete" primary then "concrete"
  else if contains "excavation" primary then "excavation"
  else if contains "foundation" primary then "foundation"
  else if contains "compaction" primary then "compaction"
  else
    let key_words :=
      filter (λ word, word ∈ ["dirt"; "soil"; "clay"; "sand"; "ground";
                              "work"; "construction"; "site"])
             (String.words primary) in
    match key_words with
    | [] => "construction"
    | _ => join "_" (take 2 key_words)
    end.

(** The list [parts] of [generate_new_filename], fallback included. *)
Definition description_parts (a : analysis) : list string :=
  let parts :=
    (if truthy (soil_color a) then [soil_color a] else [])
    ++ match detected_objects a with
       | [] => []
       | first :: _ => [simplify_primary (lower first)]
       end in
  match parts with [] => ["site"] | _ => parts end.

(** [generate_new_filename(original_path, analysis, timestamp)];
    [st_mtime] is the modify time of the file, used when no timestamp was
    extracted. *)
Definition generate_new_filename (original_name : string) (st_mtime : datetime)
    (a : analysis) (timestamp : option datetime) : string :=
  let dt := match timestamp with Some t => t | None => st_mtime end in
  let date_prefix := strftime_Ymd_HM dt in
  let descr := join "_" (description_parts a) in
  let extension := lower (suffix original_name) in
  date_prefix +:+ "_" +:+ descr +:+ extension.

End ai_photo_renamer.

(** ** Files, directory trees and the external collaborators *)

(** What the scripts read from a media file. *)
Record file := mk_file {
  st_size : N;                      (* [path.stat().st_size] *)
  content : N;                      (* the bytes, up to identity *)
  exif_dto : option datetime;       (* DateTimeOriginal, read and parsed with
                                       "%Y:%m:%d %H:%M:%S"; [None] when absent,
                                       unreadable or malformed *)
  st_birthtime : option datetime;   (* [None] where the platform has none *)
  st_mtime : datetime
}.

Global Instance file_eq_dec : EqDecision file.
Proof. solve_decision. Defined.

(** A batch root is two levels deep as far as the scripts look: entries of
    the root, and entries of its folders. *)
Inductive item := IFile (f : file) | ISubdir.
Inductive entry := File (f : file) | Dir (items : gmap string item).

Global Instance item_eq_dec : EqDecision item.
Proof. solve_decision. Defined.
Global Instance entry_eq_dec : EqDecision entry.
Proof. solve_decision. Defined.

(** A location below the root: [(None, n)] is [root / n],
    [(Some d, n)] is [root / d / n]. *)
Definition loc : Type := option string * string.

(** The order in which [Path.iterdir()] yields the names of a directory. *)
Definition listing : Type := ∀ A, gmap string A → list string.

(** An enumeration yields every name of the directory exactly once. *)
Definition listing_ok (ls : listing) : Prop :=
  ∀ A (m : gmap string A), ls A m ≡ₚ (map_to_list m).*1.

Definition default_listing : listing := λ A m, (map_to_list m).*1.

(** The outcome of the external decode/re-encode step writing a new file:
    the written file, or an exception that may leave a partial file behind
    (the scripts never remove one). *)
Inductive codec_result := Saved (f : file) | SaveFailed (partial : option file).

Record collaborators := mk_collaborators {
  pillow_heif : bool;                        (* the HEIF plugin was imported *)
  heic_to_jpg : file → codec_result;         (* [Image.open] + [img.save(JPEG)] *)
  save_as : string → file → codec_result;    (* [img.save(dest, format)] *)
  ai_loaded : bool;                          (* a classifier was loaded *)
  hue_ratios : file → option master_tags.color_ratios;
  clip_topk : file → list string → option (list nat)
}.

Definition is_file (t : gmap string entry) (l : loc) : bool :=
  match l with
  | (None, n) => match t !! n with Some (File _) => true | _ => false end
  | (Some d, n) =>
      match t !! d with
      | Some (Dir its) => match its !! n with Some (IFile _) => true | _ => false end
      | _ => false
      end
  end.

Definition is_dir (t : gmap string entry) (d : string) : bool :=
  match t !! d with Some (Dir _) => true | _ => false end.

(** Opening or [stat]-ing a file; [None] is the [OSError]. *)
Definition read_file (t : gmap string entry) (l : loc) : option file :=
  match l with
  | (None, n) => match t !! n with Some (File f) => Some f | _ => None end
  | (Some d, n) =>
      match t !! d with
      | Some (Dir its) => match its !! n with Some (IFile f) => Some f | _ => None end
      | _ => None
      end
  end.

(** [Path.exists()] *)
Definition exists_at (t : gmap string entry) (l : loc) : bool :=
  match l with
  | (None, n) => exists_in t n
  | (Some d, n) =>
      match t !! d with Some (Dir its) => exists_in its n | _ => false end
  end.

(** Creating or overwriting a regular file; fails on a missing parent
    folder or when the name is taken by a directory. *)
Definition write_file (t : gmap string entry) (l : loc) (f : file)
    : option (gmap string entry) :=
  match l with
  | (None, n) =>
      match t !! n with
      | Some (Dir _) => None
      | _ => Some (<[n := File f]> t)
      end
  | (Some d, n) =>
      match t !! d with
      | Some (Dir its) =>
          match its !! n with
          | Some ISubdir => None
          | _ => Some (<[d := Dir (<[n := IFile f]> its)]> t)
          end
      | _ => None
      end
  end.

(** [Path.unlink()] *)
Definition unlink (t : gmap string entry) (l : loc) : option (gmap string entry) :=
  match l with
  | (None, n) =>
      match t !! n with Some (File _) => Some (delete n t) | _ => None end
  | (Some d, n) =>
      match t !! d with
      | Some (Dir its) =>
          match its !! n with
          | Some (IFile _) => Some (<[d := Dir (delete n its)]> t)
          | _ => None
          end
      | _ => None
      end
  end.

(** [src.replace(dst)] for a regular file. *)
Definition replace (t : gmap string entry) (src dst : loc)
    : option (gmap string entry) :=
  f ← read_file t src;
  t1 ← unlink t src;
  write_file t1 dst f.

(** [shutil.copy2(src, dst)] inside one tree. *)
Definition copy2 (t : gmap string entry) (src dst : loc)
    : option (gmap string entry) :=
  f ← read_file t src;
  write_file t dst f.

(** [(root / d).mkdir(exist_ok=True)]: [FileExistsError] when the name is
    taken by a regular file. *)
Definition mkdir_exist_ok (t : gmap string entry) (d : string)
    : option (gmap string entry) :=
  match t !! d with
  | None => Some (<[d := Dir ∅]> t)
  | Some (Dir _) => Some t
  | Some (File _) => None
  end.

(** [Path.rmdir()]: only an empty directory can be removed. *)
Definition rmdir (t : gmap string entry) (d : string) : option (gmap string entry) :=
  match t !! d with
  | Some (Dir its) => if decide (its = ∅) then Some (delete d t) else None
  | _ => None
  end.

(** The entries of a folder, empty when it is not a folder. *)
Definition folder (t : gmap string entry) (d : string) : gmap string item :=
  match t !! d with Some (Dir its) => its | _ => ∅ end.

(** [t.isoformat(sep=' ', timespec='seconds')] *)
Definition isoformat (t : datetime) : string :=
  pad 4 (dt_year t) +:+ "-" +:+ pad 2 (dt_month t) +:+ "-" +:+ pad 2 (dt_day t)
  +:+ " " +:+ pad 2 (dt_hour t) +:+ ":" +:+ pad 2 (dt_minute t)
  +:+ ":" +:+ pad 2 (dt_second t).

(** ** sort_media_by_date.py *)

Module sort_media_by_date.

Definition INCLUDE_EXT : list string :=
  [".jpg"; ".jpeg"; ".png"; ".heic"; ".heif"; ".mov"; ".mp4"; ".hevc"; ".avi"].
Definition CONVERT_TO_JPG : list string := [".heic"; ".heif"].
Definition SKIP_DIR_NAMES : list string := ["@eaDir"].
Definition SKIP_FILE_NAMES : list string := [".DS_Store"].

(** Paths are lists of components below the batch root; [[]] stands for
    the empty string of a record without destination. *)
Record LogRecord := mk_LogRecord {
  original_path : list string;
  new_path : list string;
  method : string;
  timestamp_used : string
}.

Definition is_hidden (name : string) : bool :=
  if negb (truthy name) then false
  else if startswith "." name then true
  else if in_set name SKIP_DIR_NAMES || in_set name SKIP_FILE_NAMES then true
  else false.

Definition is_valid_date_folder (name : string) : bool :=
  if negb (String.length name =? 8)%nat || negb (isdigit name) then false
  else match strptime_Ymd name with Some _ => true | None => false end.

(** [resolve_collision(target_dir, filename)]: the returned path is
    [target_dir / name] for the name computed here. *)
Definition resolve_collision {A} (target_dir : gmap string A)
    (filename : string) : string :=
  first_free target_dir filename (candidate (stem filename) (suffix filename)).

(** [move_or_log(src, dst, dry_run)]; [None] is the re-raised exception. *)
Definition move_or_log (t : gmap string entry) (src dst : loc)
    (dry_run : bool) : option (gmap string entry) :=
  if dry_run then Some t
  else
    t1 ← match dst.1 with
         | None => Some t
         | Some d => mkdir_exist_ok t d
         end;
    replace t1 src dst.

(** The body of the inner loop of [consolidate_from_invalid_folders] for the
    entry [n] of the folder [d]. *)
Definition consolidate_file (dry_run : bool) (d : string)
    (st : gmap string entry * list LogRecord) (n : string)
    : gmap string entry * list LogRecord :=
  let '(t, logs) := st in
  if negb (is_file t (Some d, n)) || is_hidden n then st
  else if negb (in_set (lower (suffix n)) INCLUDE_EXT) then st
  else
    let dst := resolve_collision t n in
    match move_or_log t (Some d, n) (None, dst) dry_run with
    | Some t' =>
        (t', logs ++ [mk_LogRecord [d; n] [dst] "CONSOLIDATE"
                        ("moved from invalid folder: " +:+ d)])
    | None =>
        (t, logs ++ [mk_LogRecord [d; n] [] "ERROR" "consolidation failed"])
    end.

(** The body of the outer loop for the root entry [d]. *)
Definition consolidate_folder (ls : listing) (dry_run : bool)
    (st : gmap string entry * list LogRecord) (d : string)
    : gmap string entry * list LogRecord :=
  let '(t, logs) := st in
  if negb (is_dir t d) || is_hidden d then st
  else if is_valid_date_folder d then st
  else
    let st1 := fold_left (consolidate_file dry_run d) (ls _ (folder t d)) st in
    if dry_run then st1
    else
      match st1.1 !! d with
      | Some (Dir its) =>
          match ls _ its with
          | [] =>
              match rmdir st1.1 d with
              | Some t2 =>
                  (t2, st1.2 ++ [mk_LogRecord [d] [] "REMOVE_FOLDER"
                                   "removed empty invalid folder"])
              | None => st1
              end
          | _ => st1
          end
      | _ => st1
      end.

Definition consolidate_from_invalid_folders (ls : listing)
    (root : gmap string entry) (dry_run : bool)
    : gmap string entry * list LogRecord :=
  fold_left (consolidate_folder ls dry_run) (ls _ root) (root, []).

Definition iter_media_files (ls : listing) (root : gmap string entry)
    : list string :=
  filter (λ n, is_file root (None, n) && negb (is_hidden n)
               && in_set (lower (suffix n)) INCLUDE_EXT = true)
         (ls _ root).

Definition get_birth_or_mtime_local (f : file) : datetime * string :=
  match st_birthtime f with
  | None => (st_mtime f, "MTIME")
  | Some ts => (ts, "BIRTH")
  end.

(** [convert_heic_to_jpg(heic_path)] for a file of the root: the tree
    afterwards and the name of the written JPG, [None] on failure. *)
Definition convert_heic_to_jpg (w : collaborators) (t : gmap string entry)
    (heic_name : string) : gmap string entry * option string :=
  if negb (pillow_heif w) then (t, None)
  else
    let jpg_name :=
      first_free t (stem heic_name +:+ ".jpg")
                 (candidate (stem heic_name) ".jpg") in
    match read_file t (None, heic_name) with
    | None => (t, None)
    | Some f =>
        match heic_to_jpg w f with
        | Saved j =>
            match write_file t (None, jpg_name) j with
            | Some t' => (t', Some jpg_name)
            | None => (t, None)
            end
        | SaveFailed None => (t, None)
        | SaveFailed (Some part) =>
            (default t (write_file t (None, jpg_name) part), None)
        end
    end.

(** [process_file(root, path)] for the root file [name]; [DRY_RUN] is the
    module-level switch the function reads.  The second component is the
    returned record, [None] when an exception escapes. *)
Definition process_file (w : collaborators) (DRY_RUN : bool)
    (t : gmap string entry) (name : string)
    : gmap string entry * option LogRecord :=
  match read_file t (None, name) with
  | None => (t, None)
  | Some f =>
      if (st_size f =? 0)%N then
        (t, Some (mk_LogRecord [name] [] "SKIP" "zero-bytes"))
      else
        let '(t1, path) :=
          if in_set (lower (suffix name)) CONVERT_TO_JPG then
            match convert_heic_to_jpg w t name with
            | (t', Some converted_path) =>
                (if DRY_RUN then t' else default t' (unlink t' (None, name)),
                 converted_path)
            | (t', None) => (t', name)
            end
          else (t, name) in
        let is_video :=
          in_set (lower (suffix path)) [".mov"; ".mp4"; ".hevc"; ".avi"] in
        match read_file t1 (None, path) with
        | None => (t1, None)
        | Some f1 =>
            let '(timestamp, method) :=
              match (if is_video then None else exif_dto f1) with
              | Some exif_dt => (exif_dt, "EXIF")
              | None => get_birth_or_mtime_local f1
              end in
            let clean_date := strftime_Ymd timestamp in
            match mkdir_exist_ok t1 clean_date with
            | None => (t1, None)
            | Some t2 =>
                let dst := resolve_collision (folder t2 clean_date) path in
                match move_or_log t2 (None, path) (Some clean_date, dst) DRY_RUN with
                | None => (t2, None)
                | Some t3 =>
                    (t3, Some (mk_LogRecord [name] [clean_date; dst]
                                 (if decide (name = path) then method
                                  else method +:+ "_CONVERTED")
                                 (isoformat timestamp)))
                end
            end
        end
  end.

(** One iteration of the loop of [main] over the root files. *)
Definition process_step (w : collaborators) (DRY_RUN : bool)
    (st : gmap string entry * list LogRecord) (p : string)
    : gmap string entry * list LogRecord :=
  match process_file w DRY_RUN st.1 p with
  | (t', Some rec) => (t', st.2 ++ [rec])
  | (t', None) => (t', st.2 ++ [mk_LogRecord [p] [] "ERROR" "exception"])
  end.

(** [main()] after argument parsing: [DRY_RUN] is the module constant,
    [args_dry_run] and [args_no_dry_run] are the two command-line flags.
    The result is the tree afterwards and the rows handed to [write_log]
    (the CSV file itself is kept outside the tree). *)
Definition main (ls : listing) (w : collaborators) (DRY_RUN : bool)
    (args_dry_run args_no_dry_run : bool) (root : gmap string entry)
    : gmap string entry * list LogRecord :=
  let dry_run := DRY_RUN in
  let dry_run := if args_dry_run then true else dry_run in
  let dry_run := if args_no_dry_run then false else dry_run in
  let '(t1, consolidation_logs) :=
    consolidate_from_invalid_folders ls root dry_run in
  let files := iter_media_files ls t1 in
  let '(t2, processing_logs) :=
    fold_left (process_step w DRY_RUN) files (t1, []) in
  (t2, consolidation_logs ++ processing_logs).

(** The value of the module-level switch in the source. *)
Definition DRY_RUN : bool := false.

End sort_media_by_date.

(** ** Vocabulary for the consolidation phase *)

(** A media file that Phase 1 moves: a regular file, not hidden, with an
    included extension. *)
Definition eligible (n : string) (it : item) : bool :=
  match it with
  | IFile _ =>
      negb (sort_media_by_date.is_hidden n)
      && in_set (lower (suffix n)) sort_media_by_date.INCLUDE_EXT
  | ISubdir => false
  end.

(** A root entry that Phase 1 drains: a folder that is neither hidden nor
    named by a valid date. *)
Definition drainable (d : string) (e : entry) : bool :=
  match e with
  | Dir _ =>
      negb (sort_media_by_date.is_hidden d)
      && negb (sort_media_by_date.is_valid_date_folder d)
  | File _ => false
  end.

(** What stays in a drained folder. *)
Definition leftover (its : gmap string item) : gmap string item :=
  filter (λ x, eligible x.1 x.2 = false) its.

Definition consolidate_record (d n dst : string) : sort_media_by_date.LogRecord :=
  sort_media_by_date.mk_LogRecord [d; n] [dst] "CONSOLIDATE"
    ("moved from invalid folder: " +:+ d).

Definition remove_folder_record (d : string) : sort_media_by_date.LogRecord :=
  sort_media_by_date.mk_LogRecord [d] [] "REMOVE_FOLDER"
    "removed empty invalid folder".

Definition eligible_in (its : gmap string item) (n : string) : bool :=
  match its !! n with Some it => eligible n it | None => false end.

(** The folder after the inner loop has visited [names]. *)
Fixpoint drained (its : gmap string item) (names : list string)
    : gmap string item :=
  match names with
  | [] => its
  | n :: rest =>
      drained (if eligible_in its n then delete n its else its) rest
  end.

(** The records Phase 1 may write for the folders [names] of the tree [t]: a
    CONSOLIDATE record for an eligible file of a drainable folder, or a
    REMOVE_FOLDER record for a drainable folder in which nothing is left. *)
Definition phase1_record (t : gmap string entry) (names : list string)
    (r : sort_media_by_date.LogRecord) : Prop :=
  (∃ d its n f dst,
      r = consolidate_record d n dst ∧ d ∈ names
      ∧ t !! d = Some (Dir its) ∧ drainable d (Dir its) = true
      ∧ its !! n = Some (IFile f) ∧ eligible n (IFile f) = true)
  ∨ (∃ d its,
      r = remove_folder_record d ∧ d ∈ names
      ∧ t !! d = Some (Dir its) ∧ drainable d (Dir its) = true
      ∧ leftover its = ∅).

(** ** master_photo_processor.py: the pipeline *)

Module master_run.
Import master master_tags.

(** The constructor arguments the pipeline reads. *)
Record config := mk_config {
  dry_run : bool;
  target_ext : option string;      (* [_normalize_target_format(target_format)] *)
  ai_tags : list string            (* [_prepare_tags(ai_tags)] *)
}.

(** The [result] dictionary of [process_single_photo].  [final_path] is
    [(date_folder, filename)] below the temporary directory, [None] for the
    empty string; [timestamp] likewise. *)
Record result := mk_result {
  original_path : string;
  final_path : option (string * string);
  timestamp : option datetime;
  converted : bool;
  analyzed : bool;
  success : bool;
  error : string
}.

(** [current_path]: the photo in the input directory, or the JPG written
    into the temporary directory. *)
Inductive current := Orig (name : string) | Temp (name : string).

Definition current_name (c : current) : string :=
  match c with Orig n | Temp n => n end.

(** Reading [current_path]; the input directory is a flat map of files. *)
Definition read_current (input : gmap string file) (temp : gmap string entry)
    (c : current) : option file :=
  match c with
  | Orig n => input !! n
  | Temp n => read_file temp (None, n)
  end.

(** [PhotoProcessor.convert_heic_to_jpg(heic_path, temp_dir)] *)
Definition convert_heic_to_jpg (w : collaborators) (cfg : config)
    (input : gmap string file) (temp : gmap string entry) (heic_name : string)
    : gmap string entry * option string :=
  if negb (pillow_heif w) then (temp, None)
  else
    let jpg_name :=
      first_free temp (stem heic_name +:+ ".jpg")
                 (candidate (stem heic_name) ".jpg") in
    if dry_run cfg then (temp, Some jpg_name)
    else
      match input !! heic_name with
      | None => (temp, None)
      | Some f =>
          match heic_to_jpg w f with
          | Saved j =>
              match write_file temp (None, jpg_name) j with
              | Some temp' => (temp', Some jpg_name)
              | None => (temp, None)
              end
          | SaveFailed None => (temp, None)
          | SaveFailed (Some part) =>
              (default temp (write_file temp (None, jpg_name) part), None)
          end
      end.

(** [PhotoProcessor.convert_image_format(source_path, dest_path)] with
    [dest_path = temp_dir / date_folder / filename]. *)
Definition convert_image_format (w : collaborators) (cfg : config)
    (input : gmap string file) (temp : gmap string entry)
    (source : current) (dest : string * string) : gmap string entry * bool :=
  if dry_run cfg then (temp, true)
  else
    match mkdir_exist_ok temp dest.1 with
    | None => (temp, false)
    | Some temp1 =>
        match read_current input temp1 source with
        | None => (temp1, false)
        | Some f =>
            if negb (in_set (lower (suffix (current_name source))) IMAGE_EXT) then
              match write_file temp1 (Some dest.1, dest.2) f with
              | Some temp2 => (temp2, true)
              | None => (temp1, false)
              end
            else
              match save_as w (lower (suffix dest.2)) f with
              | Saved j =>
                  match write_file temp1 (Some dest.1, dest.2) j with
                  | Some temp2 => (temp2, true)
                  | None => (temp1, false)
                  end
              | SaveFailed None => (temp1, false)
              | SaveFailed (Some part) =>
                  (default temp1 (write_file temp1 (Some dest.1, dest.2) part),
                   false)
              end
        end
    end.

(** [PhotoProcessor.get_file_timestamp(file_path)] on the data of the file:
    EXIF for ".jpg", ".jpeg", ".png", else birth time, else modify time. *)
Definition get_file_timestamp (file_name : string) (f : file) : datetime :=
  match
    (if in_set (lower (suffix file_name)) [".jpg"; ".jpeg"; ".png"]
     then exif_dto f else None)
  with
  | Some dt => dt
  | None =>
      match st_birthtime f with
      | Some b => b
      | None => st_mtime f
      end
  end.

(** The filename after [# Handle filename conflicts]. *)
Definition free_final_name (temp : gmap string entry) (date_folder : string)
    (new_filename base_name ext : string) : string :=
  first_free (folder temp date_folder) new_filename
    (λ counter, base_name +:+ "_" +:+ str_nat counter +:+ "." +:+ ext).

(** [PhotoProcessor.process_single_photo(photo_path, temp_dir)]: the
    temporary tree afterwards and the result dictionary. *)
Definition process_single_photo (w : collaborators) (cfg : config)
    (input : gmap string file) (temp : gmap string entry) (photo : string)
    : gmap string entry * result :=
  let failed temp' ts conv an msg :=
    (temp', mk_result photo None ts conv an false msg) in
  (* Step 1: convert HEIC to JPG if needed *)
  let '(temp1, current_path, converted1) :=
    if in_set (lower (suffix photo)) CONVERT_TO_JPG then
      if negb (dry_run cfg) then
        match convert_heic_to_jpg w cfg input temp photo with
        | (temp', Some converted_path) => (temp', Temp converted_path, true)
        | (temp', None) => (temp', Orig photo, false)
        end
      else (temp, Orig photo, true)
    else (temp, Orig photo, false) in
  (* Step 2: timestamp *)
  match read_current input temp1 current_path with
  | None => failed temp1 None converted1 false "exception"
  | Some f =>
      let timestamp := get_file_timestamp (current_name current_path) f in
      (* Step 3: analysis *)
      let analysis :=
        analyze_photo_content (ai_loaded w) (ai_tags cfg) (hue_ratios w f)
          (clip_topk w f (match ai_tags cfg with
                          | [] => DEFAULT_TAGS | _ => ai_tags cfg end)) in
      (* Step 4: new filename *)
      let new_filename :=
        generate_descriptive_filename (target_ext cfg) photo timestamp analysis in
      (* Step 5: date folder and conflicts *)
      let date_folder := strftime_Ymd timestamp in
      match rsplit_dot new_filename with
      | None => failed temp1 (Some timestamp) converted1 true "exception"
      | Some (base_name, ext) =>
          let final_name :=
            free_final_name temp1 date_folder new_filename base_name ext in
          let differs :=
            negb (bool_decide (lower (suffix final_name) = lower (suffix photo))) in
          (* Step 6: copy to final location *)
          if negb (dry_run cfg) then
            match mkdir_exist_ok temp1 date_folder with
            | None => failed temp1 (Some timestamp) converted1 true "exception"
            | Some temp2 =>
                if match target_ext cfg with Some e => truthy e | None => false end
                   && negb (bool_decide
                              (lower (suffix final_name)
                               = lower (suffix (current_name current_path))))
                then
                  match convert_image_format w cfg input temp2 current_path
                          (date_folder, final_name) with
                  | (temp3, true) =>
                      (temp3, mk_result photo (Some (date_folder, final_name))
                                (Some timestamp) (converted1 || differs)
                                true true "")
                  | (temp3, false) =>
                      failed temp3 (Some timestamp) (converted1 || differs) true
                        ("Failed to convert " +:+ photo)
                  end
                else
                  match write_file temp2 (Some date_folder, final_name) f with
                  | Some temp3 =>
                      (temp3, mk_result photo (Some (date_folder, final_name))
                                (Some timestamp) (converted1 || differs)
                                true true "")
                  | None =>
                      failed temp2 (Some timestamp) converted1 true "exception"
                  end
            end
          else
            (temp1, mk_result photo (Some (date_folder, final_name))
                      (Some timestamp) (converted1 || differs) true true "")
      end
  end.

(** One iteration of the loop of [run] over [media_files]. *)
Definition process_step (w : collaborators) (cfg : config)
    (input : gmap string file)
    (st : gmap string entry * list result) (photo : string)
    : gmap string entry * list result :=
  let '(temp', r) := process_single_photo w cfg input st.1 photo in
  (temp', st.2 ++ [r]).

End master_run.

(** ** master_photo_processor.py: a whole run *)

Module master_batch.
Import master master_tags master_run.

(** The places a run can write to: the temporary directory, the output
    directory (each [None] while it does not exist), the master log inside the
    output directory and the master log a dry run writes into the working
    directory. *)
Record disk := mk_disk {
  temp_dir : option (gmap string entry);
  output_dir : option (gmap string entry);
  output_log : option (list result);
  cwd_log : option (list result)
}.

(** [setup_temp_directory]: [rmtree] when present, then [mkdir]. *)
Definition setup_temp_directory (d : disk) : disk :=
  mk_disk (Some ∅) (output_dir d) (output_log d) (cwd_log d).

(** [cleanup_temp_directory] *)
Definition cleanup_temp_directory (cfg : config) (d : disk) : disk :=
  match temp_dir d with
  | Some _ =>
      if negb (dry_run cfg) then mk_disk None (output_dir d) (output_log d) (cwd_log d)
      else d
  | None => d
  end.

(** The merge of one file of a date folder into an existing destination
    folder.  The state is the output tree and whether an exception has
    already ended the copy. *)
Definition merge_file (temp : gmap string entry) (date_folder : string)
    (st : gmap string entry * bool) (n : string) : gmap string entry * bool :=
  let '(out, aborted) := st in
  if aborted then st
  else if negb (is_file temp (Some date_folder, n)) then st
  else
    let dest :=
      if exists_at out (Some date_folder, n) then
        match rsplit_dot n with
        | None => None          (* unpacking [rsplit] raises *)
        | Some (name_part, ext) =>
            Some (first_free (folder out date_folder) n
                    (λ counter, name_part +:+ "_" +:+ str_nat counter
                                +:+ "." +:+ ext))
        end
      else Some n in
    match dest with
    | None => (out, true)
    | Some dest_name =>
        match read_file temp (Some date_folder, n) with
        | None => (out, true)
        | Some f =>
            match write_file out (Some date_folder, dest_name) f with
            | Some out' => (out', false)
            | None => (out, true)
            end
        end
    end.

(** The body of the loop over the entries of the temporary directory. *)
Definition copy_folder (ls : listing) (temp : gmap string entry)
    (st : gmap string entry * bool) (date_folder : string)
    : gmap string entry * bool :=
  let '(out, aborted) := st in
  if aborted then st
  else if negb (is_dir temp date_folder) then st
  else if exists_in out date_folder then
    fold_left (merge_file temp date_folder)
              (ls _ (folder temp date_folder)) (out, false)
  else
    (<[date_folder := Dir (folder temp date_folder)]> out, false).   (* copytree *)

(** [copy_to_final_destination] *)
Definition copy_to_final_destination (ls : listing) (cfg : config) (d : disk)
    : disk :=
  if dry_run cfg then d
  else
    let out := default ∅ (output_dir d) in        (* [mkdir(exist_ok=True)] *)
    match temp_dir d with
    | None => mk_disk None (Some out) (output_log d) (cwd_log d)
    | Some temp =>
        let st := fold_left (copy_folder ls temp) (ls _ temp) (out, false) in
        mk_disk (Some temp) (Some st.1) (output_log d) (cwd_log d)
    end.

(** [write_master_log]: opened with mode ['w'], inside the output directory
    for a live run and in the working directory for a dry run. *)
Definition write_master_log (cfg : config) (processing_log : list result)
    (d : disk) : disk :=
  if negb (dry_run cfg) then
    match output_dir d with
    | Some _ => mk_disk (temp_dir d) (output_dir d) (Some processing_log) (cwd_log d)
    | None => d
    end
  else mk_disk (temp_dir d) (output_dir d) (output_log d) (Some processing_log).

(** [PhotoProcessor.run] once [media_files] has been collected from the
    input directory: the disk afterwards, the processing log and the returned
    flag. *)
Definition run (ls : listing) (w : collaborators) (cfg : config)
    (input : gmap string file) (media_files : list string) (d : disk)
    : disk * list result * bool :=
  let d1 := setup_temp_directory d in
  match media_files with
  | [] => (cleanup_temp_directory cfg d1, [], false)
  | _ =>
      let '(temp, processing_log) :=
        fold_left (process_step w cfg input) media_files (∅, []) in
      let d2 := mk_disk (Some temp) (output_dir d1) (output_log d1) (cwd_log d1) in
      let d3 := copy_to_final_destination ls cfg d2 in
      let d4 := write_master_log cfg processing_log d3 in
      (cleanup_temp_directory cfg d4, processing_log,
       bool_decide (Exists (λ r, success r = true) processing_log))
  end.

End master_batch.

(** ** The two stages of [process_file], named for the proofs *)

(** The HEIC stage: the tree afterwards and the path processing goes on
    with. *)
Definition heic_stage (w : collaborators) (DRY_RUN : bool)
    (t : gmap string entry) (name : string) : gmap string entry * string :=
  if in_set (lower (suffix name)) sort_media_by_date.CONVERT_TO_JPG then
    match sort_media_by_date.convert_heic_to_jpg w t name with
    | (t', Some converted_path) =>
        (if DRY_RUN then t' else default t' (unlink t' (None, name)),
         converted_path)
    | (t', None) => (t', name)
    end
  else (t, name).

(** The timestamp and method [process_file] resolves for the file [f1] at
    [path]. *)
Definition resolved (path : string) (f1 : file) : datetime * string :=
  match (if in_set (lower (suffix path)) [".mov"; ".mp4"; ".hevc"; ".avi"]
         then None else exif_dto f1) with
  | Some exif_dt => (exif_dt, "EXIF")
  | None => sort_media_by_date.get_birth_or_mtime_local f1
  end.

(** The relocation stage. *)
Definition relocate (DRY_RUN : bool) (t1 : gmap string entry)
    (name path : string) : gmap string entry * option sort_media_by_date.LogRecord :=
  match read_file t1 (None, path) with
  | None => (t1, None)
  | Some f1 =>
      let clean_date := strftime_Ymd (resolved path f1).1 in
      match mkdir_exist_ok t1 clean_date with
      | None => (t1, None)
      | Some t2 =>
          let dst :=
            sort_media_by_date.resolve_collision (folder t2 clean_date) path in
          match sort_media_by_date.move_or_log t2 (None, path)
                  (Some clean_date, dst) DRY_RUN with
          | None => (t2, None)
          | Some t3 =>
              (t3, Some (sort_media_by_date.mk_LogRecord [name] [clean_date; dst]
                           (if decide (name = path) then (resolved path f1).2
                            else (resolved path f1).2 +:+ "_CONVERTED")
                           (isoformat (resolved path f1).1)))
          end
      end
  end.

(** A name of a folder of the tree is taken. *)
Definition holds (t : gmap string entry) (d n : string) : Prop :=
  is_Some (folder t d !! n).

(** A record with a destination names a root entry that held no regular
    file in [t] and holds one in [t']. *)
Definition placed_in_root (t t' : gmap string entry)
    (r : sort_media_by_date.LogRecord) : Prop :=
  sort_media_by_date.new_path r ≠ [] →
  ∃ dst f, sort_media_by_date.new_path r = [dst]
           ∧ (∀ g, t !! dst ≠ Some (File g))
           ∧ t' !! dst = Some (File f).

(** ** Vocabulary for re-running the sorting script *)

(** A failed conversion leaves no partial file behind. *)
Definition no_partial_files (w : collaborators) : Prop :=
  ∀ f part, heic_to_jpg w f ≠ SaveFailed (Some part).

(** Every folder Phase 1 would drain is non-empty and holds nothing
    eligible. *)
Definition settled (t : gmap string entry) : Prop :=
  ∀ d its, t !! d = Some (Dir its) → drainable d (Dir its) = true →
    its ≠ ∅ ∧ ∀ n it, its !! n = Some it → eligible n it = false.

(** A root name that Phase 2 enumerates and does not skip. *)
Definition pending (t : gmap string entry) (k : string) : Prop :=
  ∃ f, t !! k = Some (File f)
       ∧ sort_media_by_date.is_hidden k = false
       ∧ in_set (lower (suffix k)) sort_media_by_date.INCLUDE_EXT = true
       ∧ st_size f ≠ 0%N.

Definition skip_record (name : string) : sort_media_by_date.LogRecord :=
  sort_media_by_date.mk_LogRecord [name] [] "SKIP" "zero-bytes".

(** A record of Phase 1 names at most one path component: a root name or
    nothing. *)
Definition short_path (r : sort_media_by_date.LogRecord) : Prop :=
  (length (sort_media_by_date.new_path r) ≤ 1)%nat.

(** The regular files of the folder [d] of the temporary tree, as the merge
    loop of [copy_to_final_destination] enumerates them. *)
Definition files_in (ls : listing) (temp : gmap string entry) (d : string)
    : list string :=
  filter (λ n, is_file temp (Some d, n) = true) (ls _ (folder temp d)).

(** The colour labels, in the order [_color_tags] tests the bands. *)
Definition color_labels : list string :=
  [ "yellow_trench_protection"; "orange_conduit"; "blue_water_pipe";
    "green_sewer_pipe"; "red_electrical_marker" ].

(** ** Further functions of the scripts *)



Module sort_folders.
End sort_folders.

(** The records a dry run of Phase 1 writes for the folder [d]: one per
    eligible file, each with the name [resolve_collision] finds in the
    untouched root. *)
Definition planned_moves (ls : listing) (root : gmap string entry) (d : string)
    : list sort_media_by_date.LogRecord :=
  (λ n, consolidate_record d n (sort_media_by_date.resolve_collision root n))
    <$> filter (λ n, eligible_in (folder root d) n = true) (ls _ (folder root d)).

Definition dry_plan (ls : listing) (root : gmap string entry)
    : list sort_media_by_date.LogRecord :=
  d ← ls _ root;
  match root !! d with
  | Some e => if drainable d e then planned_moves ls root d else []
  | None => []
  end.

(** The files Phase 1 takes out of the folder [d], in enumeration order. *)
Definition sources (ls : listing) (t : gmap string entry) (d : string)
    : list (list string) :=
  match t !! d with
  | Some e =>
      if drainable d e
      then (λ n, [d; n]) <$> filter (λ n, eligible_in (folder t d) n = true)
                               (ls _ (folder t d))
      else []
  | None => []
  end.

Definition is_consolidate (r : sort_media_by_date.LogRecord) : Prop :=
  sort_media_by_date.method r = "CONSOLIDATE".

Global Instance is_consolidate_dec r : Decision (is_consolidate r).
Proof. unfold is_consolidate. apply _. Defined.

(** Nothing that was in the tree is lost or replaced, except possibly the
    root entry [name]: the other root files are the same, and every folder
    still holds what it held. *)
Definition kept_except (name : string) (t t' : gmap string entry) : Prop :=
  (∀ k g, t !! k = Some (File g) → k ≠ name → t' !! k = Some (File g))
  ∧ (∀ d its, t !! d = Some (Dir its) →
       ∃ its', t' !! d = Some (Dir its') ∧ its ⊆ its').

(** [c.isspace()] on the ASCII range: tab, line feed, vertical tab, form
    feed, carriage return, the four separators 28-31 and the space. *)
Definition is_space (c : ascii) : bool :=
  let n := nat_of_ascii c in
  ((9 <=? n) && (n <=? 13) || (28 <=? n) && (n <=? 32))%nat.

(** [s.lstrip()] *)
Fixpoint lstrip (s : string) : string :=
  match s with
  | "" => ""
  | String c r => if is_space c then lstrip r else s
  end.

(** [s.rstrip()] *)
Fixpoint rstrip (s : string) : string :=
  match s with
  | "" => ""
  | String c r =>
      match rstrip r with
      | "" => if is_space c then "" else String c ""
      | r' => String c r'
      end
  end.

(** [s.strip()] *)
Definition strip (s : string) : string := rstrip (lstrip s).

Module master_config.
Import master_tags.

(** The loop of [_prepare_tags]. *)
Fixpoint clean_loop (tags cleaned : list string) : list string :=
  match tags with
  | [] => cleaned
  | tag :: rest =>
      let text := strip tag in
      clean_loop rest
        (if truthy text && negb (in_set text cleaned)
         then cleaned ++ [text] else cleaned)
  end.

(** [PhotoProcessor._prepare_tags(tags)]; [None] is Python's [None]. *)
Definition _prepare_tags (tags : option (list string)) : list string :=
  let source :=
    match tags with
    | Some (t :: rest) => t :: rest
    | _ => DEFAULT_TAGS                  (* [tags or DEFAULT_TAGS] *)
    end in
  match clean_loop source [] with
  | [] => DEFAULT_TAGS
  | cleaned => cleaned
  end.
End master_config.

(** A tag as [_prepare_tags] keeps it: not empty and with no white space at
    either end. *)
Definition clean_tag (s : string) : Prop := s ≠ "" ∧ strip s = s.

(** [c in s] for a single character. *)
Fixpoint has_char (c : ascii) (s : string) : bool :=
  match s with
  | "" => false
  | String x r => bool_decide (x = c) || has_char c r
  end.

(** A label that can stand inside a file name: no path separator and no
    blank. *)
Definition path_safe (s : string) : Prop :=
  has_char "/" s = false ∧ has_char " " s = false.

Global Instance is_folder_dec (kv : string * entry) :
  Decision (∃ its, kv.2 = Dir its).
Proof.
  destruct kv as [k [f|its]]; [right; intros [x H]; discriminate|left; eauto].
Defined.

(** The folders of a tree, without its regular files: what the copy loop of
    [copy_to_final_destination] looks at. *)
Definition folders_of (t : gmap string entry) : gmap string entry :=
  filter (λ kv, ∃ its, kv.2 = Dir its) t.

Definition is_lower (c : ascii) : bool :=
  (97 <=? nat_of_ascii c)%nat && (nat_of_ascii c <=? 122)%nat.

Definition upper_ascii (c : ascii) : ascii :=
  if is_lower c then ascii_of_nat (nat_of_ascii c - 32) else c.

(** [s.upper()] *)
Fixpoint upper (s : string) : string :=
  match s with
  | "" => ""
  | String c r => String (upper_ascii c) (upper r)
  end.

(** [s.endswith(suf)] *)
Definition endswith (suf s : string) : bool :=
  (String.length suf <=? String.length s)%nat
  && bool_decide (sdrop (String.length s - String.length suf) s = suf).

(** [directory.glob("*" + ext)] on a POSIX path: the names of the directory
    that end in [ext], letter case included, in enumeration order. *)
Definition glob_ext {A} (ls : listing) (dir : gmap string A) (ext : string)
    : list string :=
  filter (λ n, endswith ext n = true) (ls _ dir).

(** ** heic_converter.py: the batch converter *)

Module heic_converter_run.

Definition HEIC_EXTENSIONS : list string := [".heic"; ".heif"].

(** The [result] dictionary of [convert_heic_to_jpg]; [converted_path] is
    the name inside the directory, empty while unset.  The [exif_preserved]
    entry, which depends on the decoded image alone, is left out. *)
Record result := mk_result {
  original_path : string;
  converted_path : string;
  success : bool;
  error : string;
  file_size_before : N;
  file_size_after : N
}.

(** [is_heic_file(file_path)] *)
Definition is_heic_file (name : string) : bool :=
  in_set (lower (suffix name)) HEIC_EXTENSIONS.

(** [convert_heic_to_jpg(heic_path, quality, dry_run)] for a file of a
    directory of regular files; [HEIF_AVAILABLE] is [pillow_heif w]. *)
Definition convert_heic_to_jpg (w : collaborators) (dir : gmap string file)
    (heic_name : string) (dry_run : bool) : gmap string file * result :=
  if negb (pillow_heif w) then
    (dir, mk_result heic_name "" false "pillow-heif not available" 0 0)
  else
    match dir !! heic_name with
    | None => (dir, mk_result heic_name "" false "exception" 0 0)
    | Some f =>
        let jpg_path := heic_converter.get_jpg_output_path dir heic_name in
        if dry_run then
          (dir, mk_result heic_name jpg_path true "" (st_size f) (st_size f))
        else
          match heic_to_jpg w f with
          | Saved j =>
              (<[jpg_path := j]> dir,
               mk_result heic_name jpg_path true "" (st_size f) (st_size j))
          | SaveFailed None =>
              (dir, mk_result heic_name jpg_path false "exception" (st_size f) 0)
          | SaveFailed (Some part) =>
              (<[jpg_path := part]> dir,
               mk_result heic_name jpg_path false "exception" (st_size f) 0)
          end
    end.

(** The list [heic_files] of [process_directory]; [exts] is the order in
    which the set [HEIC_EXTENSIONS] is iterated. *)
Definition heic_files (ls : listing) (exts : list string)
    (dir : gmap string file) : list string :=
  ext ← exts; glob_ext ls dir ext ++ glob_ext ls dir (upper ext).

(** One iteration of the conversion loop. *)
Definition convert_step (w : collaborators) (dry_run : bool)
    (st : gmap string file * list result) (heic_file : string)
    : gmap string file * list result :=
  let '(dir', r) := convert_heic_to_jpg w st.1 heic_file dry_run in
  (dir', st.2 ++ [r]).

(** [process_directory(directory, quality, dry_run)]; [None] is a directory
    that does not exist. *)
Definition process_directory (ls : listing) (exts : list string)
    (w : collaborators) (directory : option (gmap string file))
    (dry_run : bool) : option (gmap string file) * list result :=
  match directory with
  | None => (None, [])
  | Some dir =>
      let '(dir', results) :=
        fold_left (convert_step w dry_run) (heic_files ls exts dir) (dir, []) in
      (Some dir', results)
  end.

(** [cleanup_heic_files(results, dry_run)]; [response] is what the user
    types at the prompt. *)
Definition cleanup_heic_files (dir : gmap string file) (results : list result)
    (dry_run : bool) (response : string) : gmap string file :=
  let successful_conversions := filter (λ r, success r = true) results in
  match successful_conversions with
  | [] => dir
  | _ =>
      if dry_run then dir
      else if in_set (lower response) ["y"; "yes"] then
        fold_left (λ d r, delete (original_path r) d) successful_conversions dir
      else dir
  end.

End heic_converter_run.

(** The order of [sorted] on path names: code point by code point. *)
Definition name_le (a b : string) : Prop := String.leb a b = true.

Global Instance name_le_dec a b : Decision (name_le a b).
Proof. unfold name_le. apply _. Defined.

(** ** copy_to_project.py

    A copied file carries what the original carries: [copy2] keeps the
    bytes and the modification time, and nothing here looks at the birth
    time of a copy. *)

Module copy_to_project.

Definition PHOTO_EXT : list string := [".jpg"; ".jpeg"; ".png"; ".mov"; ".mp4"].
Definition log_files : list string := ["ai_rename_log.csv"; "sort_log.csv"].

(** [date_folders]: the folders of the source whose name is eight digits. *)
Definition date_folders (ls : listing) (source : gmap string entry)
    : list string :=
  filter (λ d, is_dir source d && isdigit d && (String.length d =? 8)%nat = true)
         (ls _ source).

(** The merge of one entry of a date folder into the existing destination
    folder.  The flag tells that an exception has ended the [try] block of
    this folder. *)
Definition merge_file (source : gmap string entry) (date_folder : string)
    (st : gmap string entry * bool) (n : string) : gmap string entry * bool :=
  let '(out, aborted) := st in
  if aborted then st
  else
    match read_file source (Some date_folder, n) with
    | Some f =>
        if in_set (lower (suffix n)) PHOTO_EXT then
          match rsplit_dot n with
          | None => (out, true)
          | Some (base_name, ext) =>
              let dest_name :=
                first_free (folder out date_folder) n
                  (λ counter, base_name +:+ "_" +:+ str_nat counter
                              +:+ "." +:+ ext) in
              match write_file out (Some date_folder, dest_name) f with
              | Some out' => (out', false)
              | None => (out, true)
              end
          end
        else st
    | None => st
    end.

(** The body of the loop over the sorted date folders, [try] block
    included. *)
Definition copy_folder (ls : listing) (source out : gmap string entry)
    (date_folder : string) : gmap string entry :=
  if exists_in out date_folder then
    (fold_left (merge_file source date_folder)
               (ls _ (folder source date_folder)) (out, false)).1
  else <[date_folder := Dir (folder source date_folder)]> out.   (* copytree *)

(** [shutil.copy2(log_path, dest_dir / log_file)] inside its [try]. *)
Definition copy_log (source out : gmap string entry) (log_file : string)
    : gmap string entry :=
  if exists_in source log_file then
    match read_file source (None, log_file) with
    | Some f =>
        match out !! log_file with
        | Some (Dir _) =>
            default out (write_file out (Some log_file, log_file) f)
        | _ => <[log_file := File f]> out
        end
    | None => out
    end
  else out.

(** [copy_organized_photos()]: [source] and [dest] are the two hard-wired
    directories ([None] when missing), [response] is the answer typed at the
    prompt.  The result is the destination afterwards and the returned
    flag. *)
Definition copy_organized_photos (ls : listing)
    (source dest : option (gmap string entry)) (response : string)
    : option (gmap string entry) * bool :=
  match source with
  | None => (dest, false)
  | Some src =>
      let out := default ∅ dest in                (* [mkdir(exist_ok=True)] *)
      let date_folders := date_folders ls src in
      match date_folders with
      | [] => (Some out, false)
      | _ =>
          if negb (in_set (lower response) ["y"; "yes"]) then (Some out, false)
          else
            let out1 :=
              fold_left (copy_folder ls src) (merge_sort name_le date_folders)
                        out in
            (Some (fold_left (copy_log src) log_files out1), true)
      end
  end.

End copy_to_project.

(** Every regular file and every folder entry of [t] is in [t'] as it was,
    names in [skip] apart. *)
Definition kept_in (skip : list string) (t t' : gmap string entry) : Prop :=
  (∀ k g, t !! k = Some (File g) → k ∉ skip → t' !! k = Some (File g))
  ∧ (∀ d its, t !! d = Some (Dir its) → d ∉ skip →
       ∃ its', t' !! d = Some (Dir its') ∧ its ⊆ its').

(** ** ai_photo_renamer.py: renaming the photos of a folder *)

Module renamer_run.
Import ai_photo_renamer.

Definition MEDIA_EXT : list string :=
  [".jpg"; ".jpeg"; ".png"; ".heic"; ".heif"; ".mov"; ".mp4"].

(** An entry of [results]; [new_path] is empty in the entry written by the
    [except] branch, whose [analysis] holds the error. *)
Record result := mk_result {
  original_path : string;
  new_path : string;
  timestamp : option datetime;
  renamed : bool;
  is_error : bool
}.

(** The module's [convert_heic_to_jpg(heic_path)] for a file of a folder
    of regular files: the folder afterwards and the name of the JPG, [None]
    when anything raises. *)
Definition convert_heic_to_jpg (w : collaborators) (dir : gmap string file)
    (heic_name : string) : gmap string file * option string :=
  let jpg_name :=
    first_free dir (stem heic_name +:+ ".jpg")
               (candidate (stem heic_name) ".jpg") in
  match dir !! heic_name with
  | None => (dir, None)
  | Some f =>
      match heic_to_jpg w f with
      | Saved j => (<[jpg_name := j]> dir, Some jpg_name)
      | SaveFailed None => (dir, None)
      | SaveFailed (Some part) => (<[jpg_name := part]> dir, None)
      end
  end.

(** The name left by the loop
    [while new_path.exists() and new_path != photo_path]. *)
Definition free_or_self (dir : gmap string file) (photo_path first : string)
    (mk : nat → string) : string :=
  let busy c := exists_in dir c && negb (bool_decide (c = photo_path)) in
  if busy first then default first (probe busy mk (S (size dir)) 1)
  else first.

(** The second half of the loop body, from [# Avoid conflicts] on:
    [o] is the file at [photo_path], if any. *)
Definition rename_to (dry_run : bool) (results : list result)
    (original_path : string) (dir1 : gmap string file) (photo_path : string)
    (o : option file) (timestamp : option datetime) (new_filename : string)
    : gmap string file * list result :=
  let failed := (dir1, results ++ [mk_result photo_path "" None false true]) in
  match rsplit_dot new_filename with
  | None => failed                                   (* [rsplit(...)[1]] raises *)
  | Some (base_name_part, ext_part) =>
      let new_path :=
        free_or_self dir1 photo_path new_filename
          (λ counter, base_name_part +:+ "_" +:+ str_nat counter
                      +:+ "." +:+ ext_part) in
      if bool_decide (new_path = photo_path) then (dir1, results)
      else
        let entry := mk_result original_path new_path timestamp
                       (negb dry_run) false in
        if dry_run then (dir1, results ++ [entry])
        else
          match o with
          | None => failed                           (* [rename] raises *)
          | Some f =>
              let dir2 := <[new_path := f]> (delete photo_path dir1) in
              let dir3 :=
                if negb (bool_decide (original_path = photo_path))
                   && in_set (lower (suffix original_path)) CONVERT_TO_JPG
                then delete original_path dir2 else dir2 in
              (dir3, results ++ [entry])
          end
  end.

(** The body of the loop of [rename_photos_in_folder] for one file.
    [analyze] is [AIPhotoAnalyzer.analyze_photo], which catches its own
    exceptions and answers the empty analysis for a file it cannot read. *)
Definition rename_step (w : collaborators) (analyze : file → analysis)
    (dry_run : bool) (st : gmap string file * list result) (photo : string)
    : gmap string file * list result :=
  let '(dir, results) := st in
  let '(dir1, photo_path) :=
    if in_set (lower (suffix photo)) CONVERT_TO_JPG then
      match convert_heic_to_jpg w dir photo with
      | (d, Some converted_path) => (d, converted_path)
      | (d, None) => (d, photo)
      end
    else (dir, photo) in
  let timestamp := extract_timestamp_from_filename photo_path in
  match dir1 !! photo_path, timestamp with
  | Some f, _ =>
      rename_to dry_run results photo dir1 photo_path (Some f) timestamp
        (generate_new_filename photo_path (st_mtime f) (analyze f) timestamp)
  | None, Some t =>
      rename_to dry_run results photo dir1 photo_path None timestamp
        (generate_new_filename photo_path t (mk_analysis "" []) timestamp)
  | None, None =>                                    (* [stat()] raises *)
      (dir1, results ++ [mk_result photo_path "" None false true])
  end.

(** The list [photo_files]; [exts] is the order in which the set
    [MEDIA_EXT] is iterated, [max_files] the optional limit (not
    negative). *)
Definition photo_files (ls : listing) (exts : list string)
    (dir : gmap string file) (max_files : option nat) : list string :=
  let all := ext ← exts; glob_ext ls dir ext ++ glob_ext ls dir (upper ext) in
  match max_files with
  | Some (S n) => take (S n) all
  | _ => all                                         (* [None] and [0] are falsy *)
  end.

(** [rename_photos_in_folder(folder_path, analyzer, dry_run, max_files)] *)
Definition rename_photos_in_folder (ls : listing) (exts : list string)
    (w : collaborators) (analyze : file → analysis)
    (dir : gmap string file) (dry_run : bool) (max_files : option nat)
    : gmap string file * list result :=
  fold_left (rename_step w analyze dry_run)
            (photo_files ls exts dir max_files) (dir, []).

End renamer_run.

(** The patterns globbed for a list of extensions: each extension as it is
    and in capitals. *)
Definition glob_patterns (exts : list string) : list string :=
  e ← exts; [e; upper e].

(** * Properties *)

Example strftime_sample :
  strftime_Ymd_HM (mk_datetime 2024 1 15 9 15 0) = "20240115_0915".
Proof. vm_compute. reflexivity. Qed.

Example suffix_sample :
  (suffix "a.b.JPG", stem "a.b.JPG", suffix ".bashrc", suffix "x.", stem "x.")
  = (".JPG", "a.b", "", "", "x.").
Proof. vm_compute. reflexivity. Qed.

Lemma in_set_true x l : in_set x l = true ↔ x ∈ l.
Proof. unfold in_set. apply bool_decide_eq_true. Qed.

Lemma in_set_false x l : in_set x l = false ↔ x ∉ l.
Proof. unfold in_set. apply bool_decide_eq_false. Qed.

Lemma lower_empty s : lower s = "" ↔ s = "".
Proof. destruct s; simpl; split; congruence. Qed.

Ltac in_list :=
  repeat (rewrite ?elem_of_cons, ?elem_of_nil in * ).

Lemma normalize_spec (fmt : string) :
  master._normalize_target_format fmt =
    if in_set (lower fmt) ["jpg"; "jpeg"] then Some ".jpg"
    else if bool_decide (lower fmt = "png") then Some ".png"
    else None.
Proof.
  unfold master._normalize_target_format, truthy.
  case_bool_decide as He; simpl.
  - subst fmt. reflexivity.
  - destruct (in_set (lower fmt) ["auto"; "source"; "original"; ""]) eqn:Ha;
      [|reflexivity].
    apply in_set_true in Ha.
    assert (in_set (lower fmt) ["jpg"; "jpeg"] = false) as ->.
    { apply in_set_false. in_list. intros Hj.
      destruct Ha as [Ha|[Ha|[Ha|[Ha|[]]]]]; rewrite Ha in Hj;
        destruct Hj as [Hj|[Hj|[]]]; discriminate Hj. }
    case_bool_decide as Hp; [|done].
    rewrite Hp in Ha. in_list.
    destruct Ha as [Ha|[Ha|[Ha|[Ha|[]]]]]; discriminate Ha.
Qed.

(** ** Target-format normalization and the composed extension *)

Lemma truthy_true s : truthy s = true ↔ s ≠ "".
Proof.
  unfold truthy. rewrite negb_true_iff, bool_decide_eq_false. reflexivity.
Qed.

Lemma source_extension_kept (name : string) ts a :
  suffix name ≠ "" →
  master.generate_descriptive_filename None name ts a =
    strftime_Ymd_HM ts +:+ "_" +:+
    match master.tags a with
    | [] => master.description a
    | _ => join "_" (take 3 (master.tags a))
    end +:+
    (if in_set (lower (suffix name)) [".heic"; ".heif"] then ".jpg"
     else lower (suffix name)).
Proof.
  intros Hs. unfold master.generate_descriptive_filename, master.CONVERT_TO_JPG.
  destruct (in_set (lower (suffix name)) [".heic"; ".heif"]); [reflexivity|].
  assert (truthy (lower (suffix name)) = true) as ->; [|reflexivity].
  apply truthy_true. rewrite lower_empty. exact Hs.
Qed.

(** C10: [_normalize_target_format] sends "jpg" and "jpeg" in any letter case
    to ".jpg", "png" to ".png" and every other string (empty, "auto",
    "source", "original", anything unrecognized) to [None]; it is a total
    function, so nothing is raised.  With [None] as the configured target the
    composed filename ends in the lower-cased source extension, except for
    ".heic"/".heif" sources, which get ".jpg". *)
Theorem C10_target_format_normalization (fmt : string) :
  master._normalize_target_format fmt =
    (if in_set (lower fmt) ["jpg"; "jpeg"] then Some ".jpg"
     else if bool_decide (lower fmt = "png") then Some ".png"
     else None)
  ∧ (lower fmt ∉ ["jpg"; "jpeg"; "png"] →
     master._normalize_target_format fmt = None
     ∧ master._normalize_target_format fmt = master._normalize_target_format "auto"
     ∧ ∀ (name : string) ts a,
         suffix name ≠ "" →
         master.generate_descriptive_filename
           (master._normalize_target_format fmt) name ts a =
           strftime_Ymd_HM ts +:+ "_" +:+
           match master.tags a with
           | [] => master.description a
           | _ => join "_" (take 3 (master.tags a))
           end +:+
           (if in_set (lower (suffix name)) [".heic"; ".heif"] then ".jpg"
            else lower (suffix name))).
Proof.
  split; [apply normalize_spec|].
  intros Hn.
  assert (master._normalize_target_format fmt = None) as Hnone.
  { rewrite normalize_spec.
    assert (in_set (lower fmt) ["jpg"; "jpeg"] = false) as ->.
    { apply in_set_false. in_list. tauto. }
    case_bool_decide as Hp; [|reflexivity].
    exfalso. apply Hn. in_list. tauto. }
  split; [exact Hnone|]. split; [rewrite Hnone; reflexivity|].
  intros name ts a Hs. rewrite Hnone. apply source_extension_kept, Hs.
Qed.

Lemma C10_target_format_normalization_witness :
  master._normalize_target_format "JpEg" = Some ".jpg"
  ∧ master._normalize_target_format "PNG" = Some ".png"
  ∧ master._normalize_target_format "tiff" = None
  ∧ master.generate_descriptive_filename
      (master._normalize_target_format "tiff") "IMG_0001.HEIC"
      (mk_datetime 2024 1 15 9 15 0)
      (master.mk_analysis "construction" ["orange_conduit"; "open_trench_excavation"])
    = "20240115_0915_orange_conduit_open_trench_excavation.jpg"
  ∧ master.generate_descriptive_filename
      (master._normalize_target_format "") "clip.MOV"
      (mk_datetime 2024 1 15 9 15 0) (master.mk_analysis "construction" [])
    = "20240115_0915_construction.mov".
Proof.
  split; [exact (proj1 (C10_target_format_normalization "JpEg"))|].
  split; [exact (proj1 (C10_target_format_normalization "PNG"))|].
  assert (lower "tiff" ∉ ["jpg"; "jpeg"; "png"]) as Ht.
  { apply (bool_decide_unpack _). vm_compute. exact I. }
  assert (lower "" ∉ ["jpg"; "jpeg"; "png"]) as He.
  { apply (bool_decide_unpack _). vm_compute. exact I. }
  destruct (proj2 (C10_target_format_normalization "tiff") Ht) as (H1 & _ & H2).
  destruct (proj2 (C10_target_format_normalization "") He) as (_ & _ & H3).
  split; [exact H1|]. split.
  - rewrite H2; [vm_compute; reflexivity|]. vm_compute. discriminate.
  - rewrite H3; [vm_compute; reflexivity|]. vm_compute. discriminate.
Defined.

(** ** The collision resolver *)

Lemma string_length_app (a b : string) :
  String.length (a +:+ b) = String.length a + String.length b.
Proof. induction a as [|c a IH]; simpl; [reflexivity|]. rewrite IH. reflexivity. Qed.

Lemma string_app_inv_tail (a b s : string) : a +:+ s = b +:+ s → a = b.
Proof.
  revert b. induction a as [|c a IH]; intros [|d b] H.
  - reflexivity.
  - apply (f_equal String.length) in H.
    rewrite !string_length_app in H. simpl in H. lia.
  - apply (f_equal String.length) in H.
    rewrite !string_length_app in H. simpl in H. lia.
  - change (String c (a +:+ s) = String d (b +:+ s)) in H.
    injection H as -> H. f_equal. apply IH, H.
Qed.

Lemma candidate_inj st sf : Inj (=) (=) (candidate st sf).
Proof.
  intros i j H. unfold candidate in H.
  apply String.app_inj in H. apply (String.app_inj "_") in H.
  apply string_app_inv_tail in H. apply (inj pretty) in H. exact H.
Qed.

Lemma exists_in_true {A} (dir : gmap string A) n :
  exists_in dir n = true ↔ is_Some (dir !! n).
Proof. unfold exists_in. apply bool_decide_eq_true. Qed.

Lemma exists_in_false {A} (dir : gmap string A) n :
  exists_in dir n = false ↔ dir !! n = None.
Proof.
  unfold exists_in. rewrite bool_decide_eq_false. symmetry.
  apply eq_None_not_Some.
Qed.

(** What a successful probe returns: the first free candidate from [i] on. *)
Lemma probe_some busy mk fuel i r :
  probe busy mk fuel i = Some r →
  ∃ k, (i ≤ k)%nat ∧ r = mk k ∧ busy (mk k) = false
       ∧ ∀ j, (i ≤ j < k)%nat → busy (mk j) = true.
Proof.
  revert i. induction fuel as [|fuel IH]; intros i H; simpl in H; [discriminate|].
  destruct (busy (mk i)) eqn:He.
  - apply IH in H as (k & Hk & -> & Hfree & Hbusy).
    exists k. split; [lia|]. split; [reflexivity|]. split; [exact Hfree|].
    intros j Hj. destruct (decide (j = i)) as [->|Hne]; [exact He|].
    apply Hbusy. lia.
  - injection H as <-. exists i. split; [lia|]. split; [reflexivity|].
    split; [exact He|]. intros j Hj. lia.
Qed.

(** Pigeonhole: when every busy name lies in a finite set [names], the probe
    finds a free name as soon as the fuel exceeds the number of names not yet
    accounted for. *)
Lemma probe_enough_fuel busy mk `{!Inj (=) (=) mk}
    (names : gset string) fuel i (seen : gset string) :
  (∀ n, busy n = true → n ∈ names) →
  seen ⊆ names →
  (∀ j, (i ≤ j)%nat → mk j ∉ seen) →
  (size names < size seen + fuel)%nat →
  is_Some (probe busy mk fuel i).
Proof.
  intros Hbusy. revert i seen.
  induction fuel as [|fuel IH]; intros i seen Hsub Hfresh Hsz.
  - apply subseteq_size in Hsub. lia.
  - simpl. destruct (busy (mk i)) eqn:He; [|eauto].
    apply (IH (S i) ({[mk i]} ∪ seen)).
    + apply union_subseteq. split; [|exact Hsub].
      apply singleton_subseteq_l, Hbusy, He.
    + intros j Hj. rewrite elem_of_union, elem_of_singleton.
      intros [Heq|Hin].
      * apply (inj mk) in Heq. lia.
      * apply (Hfresh j); [lia|exact Hin].
    + rewrite size_union.
      * rewrite size_singleton. lia.
      * apply disjoint_singleton_l, Hfresh. lia.
Qed.

Lemma probe_total {A} (dir : gmap string A) busy mk `{!Inj (=) (=) mk} :
  (∀ n, busy n = true → is_Some (dir !! n)) →
  is_Some (probe busy mk (S (size dir)) 1).
Proof.
  intros Hbusy. apply (probe_enough_fuel busy mk (dom dir) _ _ ∅).
  - intros n Hn. apply elem_of_dom, Hbusy, Hn.
  - apply empty_subseteq.
  - intros j _. apply not_elem_of_empty.
  - rewrite size_empty, size_dom. lia.
Qed.

Lemma first_free_probe {A} (dir : gmap string A) mk `{!Inj (=) (=) mk} :
  is_Some (probe (exists_in dir) mk (S (size dir)) 1).
Proof.
  apply (probe_total dir (exists_in dir) mk).
  intros n Hn. apply exists_in_true, Hn.
Qed.

Lemma first_free_spec {A} (dir : gmap string A) first mk `{!Inj (=) (=) mk} :
  (dir !! first = None → first_free dir first mk = first)
  ∧ (is_Some (dir !! first) →
     ∃ k, (1 ≤ k)%nat ∧ first_free dir first mk = mk k
          ∧ ∀ j, (1 ≤ j < k)%nat → is_Some (dir !! mk j))
  ∧ dir !! first_free dir first mk = None.
Proof.
  unfold first_free. destruct (exists_in dir first) eqn:He.
  - apply exists_in_true in He.
    destruct (first_free_probe dir mk) as [r Hr]. rewrite Hr. simpl.
    apply probe_some in Hr as (k & Hk & -> & Hfree & Hbusy).
    apply exists_in_false in Hfree.
    split; [intros Hn; rewrite Hn in He; destruct He; discriminate|].
    split; [|exact Hfree]. intros _. exists k. split; [exact Hk|].
    split; [reflexivity|]. intros j Hj. apply exists_in_true, Hbusy, Hj.
  - apply exists_in_false in He. split; [reflexivity|].
    split; [|exact He]. intros [x Hx]. congruence.
Qed.

Lemma exists_in_ext {A B} (d1 : gmap string A) (d2 : gmap string B) n :
  dom d1 = dom d2 → exists_in d1 n = exists_in d2 n.
Proof.
  intros Hd. unfold exists_in. apply bool_decide_ext.
  rewrite <- !elem_of_dom, Hd. reflexivity.
Qed.

Lemma probe_ext busy1 busy2 mk fuel i :
  (∀ n, busy1 n = busy2 n) → probe busy1 mk fuel i = probe busy2 mk fuel i.
Proof.
  intros Hb. revert i. induction fuel as [|fuel IH]; intros i; simpl; [reflexivity|].
  rewrite Hb, IH. reflexivity.
Qed.

Lemma first_free_ext {A B} (d1 : gmap string A) (d2 : gmap string B) first mk :
  dom d1 = dom d2 → first_free d1 first mk = first_free d2 first mk.
Proof.
  intros Hd. unfold first_free.
  rewrite (exists_in_ext d1 d2 first Hd), <- !size_dom, Hd.
  rewrite (probe_ext (exists_in d1) (exists_in d2));
    [reflexivity|intros n; apply exists_in_ext, Hd].
Qed.

(** C5: the collision resolver returns the desired name when it is free and
    otherwise [<stem>_<i><ext>] for the least [i ≥ 1] whose name is free; the
    returned name never exists in the directory, and the result depends on
    nothing but the set of names present.  The same holds for
    [get_jpg_output_path] with the desired name [<stem>.jpg]. *)
Theorem C5_collision_resolver {A} (dir : gmap string A) (filename : string) :
  let r := sort_media_by_date.resolve_collision dir filename in
  let j := heic_converter.get_jpg_output_path dir filename in
  (dir !! filename = None → r = filename)
  ∧ (is_Some (dir !! filename) →
     ∃ i, (1 ≤ i)%nat
          ∧ r = stem filename +:+ "_" +:+ str_nat i +:+ suffix filename
          ∧ ∀ k, (1 ≤ k < i)%nat →
              is_Some (dir !! (stem filename +:+ "_" +:+ str_nat k
                               +:+ suffix filename)))
  ∧ dir !! r = None
  ∧ (∀ B (dir' : gmap string B),
       dom dir' = dom dir →
       sort_media_by_date.resolve_collision dir' filename = r)
  ∧ (dir !! (stem filename +:+ ".jpg") = None → j = stem filename +:+ ".jpg")
  ∧ (is_Some (dir !! (stem filename +:+ ".jpg")) →
     ∃ i, (1 ≤ i)%nat
          ∧ j = stem filename +:+ "_" +:+ str_nat i +:+ ".jpg"
          ∧ ∀ k, (1 ≤ k < i)%nat →
              is_Some (dir !! (stem filename +:+ "_" +:+ str_nat k +:+ ".jpg")))
  ∧ dir !! j = None.
Proof.
  intros r j.
  pose proof (first_free_spec dir filename
                (candidate (stem filename) (suffix filename))
                (Inj0 := candidate_inj _ _)) as (H1 & H2 & H3).
  pose proof (first_free_spec dir (stem filename +:+ ".jpg")
                (candidate (stem filename) ".jpg")
                (Inj0 := candidate_inj _ _)) as (J1 & J2 & J3).
  split; [exact H1|]. split; [exact H2|]. split; [exact H3|].
  split; [|split; [exact J1|split; [exact J2|exact J3]]].
  intros B dir' Hd. apply first_free_ext, Hd.
Qed.

Lemma C5_collision_resolver_witness :
  let dir : gmap string unit :=
    {[ "shot.jpg" := (); "shot_1.jpg" := (); "shot_3.jpg" := () ]} in
  (dir !! "other.png" = None
   ∧ sort_media_by_date.resolve_collision dir "other.png" = "other.png")
  ∧ (is_Some (dir !! "shot.jpg")
     ∧ ∃ i, (1 ≤ i)%nat
          ∧ sort_media_by_date.resolve_collision dir "shot.jpg"
            = "shot" +:+ "_" +:+ str_nat i +:+ ".jpg"
          ∧ ∀ k, (1 ≤ k < i)%nat →
              is_Some (dir !! ("shot" +:+ "_" +:+ str_nat k +:+ ".jpg")))
  ∧ (is_Some (dir !! "shot.jpg")
     ∧ ∃ i, (1 ≤ i)%nat
          ∧ heic_converter.get_jpg_output_path dir "shot.HEIC"
            = "shot" +:+ "_" +:+ str_nat i +:+ ".jpg"
          ∧ ∀ k, (1 ≤ k < i)%nat →
              is_Some (dir !! ("shot" +:+ "_" +:+ str_nat k +:+ ".jpg"))).
Proof.
  intros dir.
  assert (dir !! "other.png" = None) as Hn by (vm_compute; reflexivity).
  assert (is_Some (dir !! "shot.jpg")) as Hs by (vm_compute; eauto).
  split; [split; [exact Hn|]|split; (split; [exact Hs|])].
  - exact (proj1 (C5_collision_resolver dir "other.png") Hn).
  - exact (proj1 (proj2 (C5_collision_resolver dir "shot.jpg")) Hs).
  - exact (proj1 (proj2 (proj2 (proj2 (proj2 (proj2
             (C5_collision_resolver dir "shot.HEIC")))))) Hs).
Defined.

Example resolve_collision_sample :
  let dir : gmap string unit :=
    {[ "shot.jpg" := (); "shot_1.jpg" := (); "shot_3.jpg" := () ]} in
  sort_media_by_date.resolve_collision dir "shot.jpg" = "shot_2.jpg"
  ∧ heic_converter.get_jpg_output_path dir "shot_3.HEIC" = "shot_3_1.jpg".
Proof. vm_compute. split; reflexivity. Qed.

(** ** Content tags *)

Section dedup.
Implicit Types l acc : list string.

Lemma dedup_onto_prefix l acc : acc `prefix_of` dedup_onto l acc.
Proof.
  revert acc. induction l as [|x l IH]; intros acc; simpl; [reflexivity|].
  destruct (in_set x acc); [apply IH|].
  etransitivity; [|apply IH]. apply prefix_app_r. reflexivity.
Qed.

Lemma dedup_onto_NoDup l acc : NoDup acc → NoDup (dedup_onto l acc).
Proof.
  revert acc. induction l as [|x l IH]; intros acc Hacc; simpl; [exact Hacc|].
  destruct (in_set x acc) eqn:Hx; apply IH; [exact Hacc|].
  apply in_set_false in Hx. apply NoDup_app. split; [exact Hacc|].
  split; [|apply NoDup_singleton].
  intros y Hy Hy'. apply list_elem_of_singleton in Hy'. subst y. exact (Hx Hy).
Qed.

Lemma dedup_onto_elem l acc x : x ∈ dedup_onto l acc ↔ x ∈ acc ∨ x ∈ l.
Proof.
  revert acc. induction l as [|y l IH]; intros acc; simpl.
  - rewrite elem_of_nil. tauto.
  - rewrite IH, elem_of_cons. destruct (in_set y acc) eqn:Hy.
    + apply in_set_true in Hy. split; [tauto|].
      intros [H|[->|H]]; tauto.
    + rewrite elem_of_app, list_elem_of_singleton. tauto.
Qed.

(** The merge loop of [analyze_photo_content] is first-occurrence
    de-duplication cut at three labels. *)
Lemma merge_loop_dedup l acc :
  (length acc < 3)%nat →
  master_tags.merge_loop l acc = take 3 (dedup_onto l acc).
Proof.
  revert acc. induction l as [|x l IH]; intros acc Hlen;
    cbn [master_tags.merge_loop dedup_onto].
  - rewrite take_ge; [reflexivity|lia].
  - destruct (in_set x acc) eqn:Hx.
    + assert ((3 <=? length acc)%nat = false) as ->
        by (apply Nat.leb_gt; lia).
      apply IH, Hlen.
    + destruct (3 <=? length (acc ++ [x]))%nat eqn:H3.
      * apply Nat.leb_le in H3. rewrite length_app in H3. simpl in H3.
        destruct (dedup_onto_prefix l (acc ++ [x])) as [k ->].
        rewrite take_app_length'; [reflexivity|].
        rewrite length_app. simpl. lia.
      * apply Nat.leb_gt in H3. apply IH, H3.
Qed.
End dedup.

Lemma exceeds_spec (r : Q) : master_tags.exceeds r = true ↔ (2 # 100 < r)%Q.
Proof.
  unfold master_tags.exceeds, master_tags.threshold.
  rewrite negb_true_iff, <- not_true_iff_false, Qle_bool_iff.
  split; [apply Qnot_le_lt|apply Qlt_not_le].
Qed.

Lemma color_tags_sublist image :
  sublist (master_tags._color_tags image) color_labels.
Proof.
  destruct image as [r|]; simpl; [|apply sublist_nil_l].
  unfold color_labels, master_tags.tag_if.
  repeat match goal with
         | |- context [if ?b then _ else _] => destruct b
         end; simpl;
    repeat first [ apply sublist_nil_l | apply sublist_skip | apply sublist_cons ].
Qed.

Lemma color_labels_NoDup : NoDup color_labels.
Proof. apply (bool_decide_unpack _). vm_compute. exact I. Qed.

Lemma color_tags_NoDup image : NoDup (master_tags._color_tags image).
Proof. eapply sublist_NoDup; [apply color_labels_NoDup|apply color_tags_sublist]. Qed.

Lemma color_tags_member (r : master_tags.color_ratios) :
  let t := master_tags._color_tags (Some r) in
  ("yellow_trench_protection" ∈ t ↔ (2 # 100 < master_tags.yellow r)%Q)
  ∧ ("orange_conduit" ∈ t ↔ (2 # 100 < master_tags.orange r)%Q)
  ∧ ("blue_water_pipe" ∈ t ↔ (2 # 100 < master_tags.blue r)%Q)
  ∧ ("green_sewer_pipe" ∈ t ↔ (2 # 100 < master_tags.green r)%Q)
  ∧ ("red_electrical_marker" ∈ t
     ↔ (2 # 100 < master_tags.red1 r + master_tags.red2 r)%Q).
Proof.
  simpl. rewrite <- !exceeds_spec. unfold master_tags.tag_if.
  repeat split;
    repeat match goal with
           | |- context [if ?b then _ else _] => destruct b
           end; simpl; intros H;
    first [ reflexivity | discriminate
          | (in_list; tauto)
          | (exfalso; in_list; intuition discriminate) ].
Qed.

Lemma dedup_onto_app l1 l2 acc :
  dedup_onto (l1 ++ l2) acc = dedup_onto l2 (dedup_onto l1 acc).
Proof.
  revert acc. induction l1 as [|x l1 IH]; intros acc; simpl; [reflexivity|].
  apply IH.
Qed.

Lemma dedup_onto_fresh l acc :
  NoDup l → (∀ x, x ∈ l → x ∉ acc) → dedup_onto l acc = acc ++ l.
Proof.
  revert acc. induction l as [|x l IH]; intros acc Hnd Hfresh; simpl.
  - rewrite app_nil_r. reflexivity.
  - apply NoDup_cons in Hnd as [Hx Hnd].
    assert (in_set x acc = false) as ->.
    { apply in_set_false, Hfresh. left. }
    rewrite IH; [rewrite <- app_assoc; reflexivity|exact Hnd|].
    intros y Hy. rewrite elem_of_app, list_elem_of_singleton.
    intros [Hin| ->]; [|exact (Hx Hy)].
    apply (Hfresh y); [right; exact Hy|exact Hin].
Qed.

Lemma take_prefix_mono (n : nat) (l k : list string) :
  l `prefix_of` k → take n l `prefix_of` take n k.
Proof.
  intros [m ->]. rewrite take_app. apply prefix_app_r. reflexivity.
Qed.

Lemma merged_tags_spec (color_tags clip_tags : list string) :
  master_tags.merge_loop (color_tags ++ clip_tags) [] =
    take 3 (dedup_onto (color_tags ++ clip_tags) []).
Proof. apply merge_loop_dedup. simpl. lia. Qed.

Lemma merged_tags_NoDup l : NoDup (master_tags.merge_loop l []).
Proof.
  rewrite merge_loop_dedup by (simpl; lia).
  eapply sublist_NoDup; [apply dedup_onto_NoDup, NoDup_nil_2|apply sublist_take].
Qed.

Lemma heuristic_only_tags image :
  let color := master_tags._color_tags image in
  let t := master.tags (master_tags.heuristic_only color) in
  NoDup t ∧ (0 < length t ≤ 3)%nat ∧ take 3 color `prefix_of` t
  ∧ (color = [] → t = ["construction"]).
Proof.
  intros color t. subst t. unfold master_tags.heuristic_only.
  pose proof (color_tags_NoDup image) as Hnd. fold color in Hnd.
  destruct color as [|c color'] eqn:Hc; cbn [master.tags].
  - split; [apply NoDup_singleton|]. split; [simpl; lia|].
    split; [apply prefix_nil|reflexivity].
  - split; [eapply sublist_NoDup; [exact Hnd|apply sublist_take]|].
    split; [|split; [reflexivity|discriminate]].
    rewrite length_take. cbn [length]. lia.
Qed.

Lemma soil_colors_vs_detections :
  Forall (λ t, ai_photo_renamer.simplify_primary (lower t)
               ∉ ai_photo_renamer.SOIL_COLORS)
         ai_photo_renamer.all_texts.
Proof. apply (bool_decide_unpack _). vm_compute. exact I. Qed.

Lemma description_parts_spec (a : ai_photo_renamer.analysis) :
  let p := ai_photo_renamer.description_parts a in
  (0 < length p ≤ 3)%nat
  ∧ (ai_photo_renamer.soil_color a ≠ "" →
     hd "" p = ai_photo_renamer.soil_color a)
  ∧ (ai_photo_renamer.soil_color a = "" →
     ai_photo_renamer.detected_objects a = [] → p = ["site"])
  ∧ (ai_photo_renamer.soil_color a ∈ "" :: ai_photo_renamer.SOIL_COLORS →
     (∀ t, t ∈ ai_photo_renamer.detected_objects a →
           t ∈ ai_photo_renamer.all_texts) →
     NoDup p).
Proof.
  destruct a as [soil det]. unfold ai_photo_renamer.description_parts. simpl.
  destruct (truthy soil) eqn:Hs.
  - apply truthy_true in Hs.
    destruct det as [|d det]; simpl.
    + split; [lia|]. split; [reflexivity|]. split; [congruence|].
      intros _ _. apply NoDup_singleton.
    + split; [lia|]. split; [reflexivity|]. split; [congruence|].
      intros Hsoil Hdet.
      apply NoDup_cons. split; [|apply NoDup_singleton].
      rewrite list_elem_of_singleton. intros Heq.
      apply elem_of_cons in Hsoil as [?|Hsoil]; [congruence|].
      pose proof soil_colors_vs_detections as Hall.
      rewrite Forall_forall in Hall.
      apply (Hall d); [apply Hdet; left|]. rewrite <- Heq. exact Hsoil.
  - apply not_true_iff_false in Hs. rewrite truthy_true in Hs.
    destruct det as [|d det]; simpl.
    + split; [lia|]. split; [intros H; destruct (Hs H)|].
      split; [reflexivity|]. intros _ _. apply NoDup_singleton.
    + split; [lia|]. split; [intros H; destruct (Hs H)|].
      split; [discriminate|]. intros _ _. apply NoDup_singleton.
Qed.

Lemma clip_tags_loop_prefix cats idxs acc r :
  master_tags.clip_tags_loop cats idxs acc = Some r → acc `prefix_of` r.
Proof.
  revert acc. induction idxs as [|i idxs IH]; intros acc H; simpl in H.
  - injection H as <-. reflexivity.
  - destruct (cats !! i) as [tag|]; [|discriminate].
    apply IH in H. destruct (in_set _ acc); [exact H|].
    etransitivity; [|exact H]. apply prefix_app_r. reflexivity.
Qed.

Lemma clip_tags_loop_nonempty cats idxs r :
  idxs ≠ [] → master_tags.clip_tags_loop cats idxs [] = Some r → r ≠ [].
Proof.
  destruct idxs as [|i idxs]; [congruence|]. intros _ H. simpl in H.
  destruct (cats !! i) as [tag|]; [|discriminate].
  apply clip_tags_loop_prefix in H as [k ->]. discriminate.
Qed.

(** C7: the tag list of [analyze_photo_content] has no repeated label and
    between one and three labels; the heuristic colour labels come first, in
    band declaration order, each present iff its pixel ratio exceeds the
    threshold; the classifier's labels follow, first occurrences only, and the
    whole is cut at three.  Without a classifier, or when it fails, and with
    no colour label the list is the single label "construction".  The parts
    list of the renamer's [generate_new_filename] has the soil colour first,
    the fallback "site", and no repetition either. *)
Theorem C7_tag_set (ai_analyzer : bool) (ai_tags : list string)
    (image : option master_tags.color_ratios) (clip : option (list nat)) :
  let color := master_tags._color_tags image in
  let t := master.tags
             (master_tags.analyze_photo_content ai_analyzer ai_tags image clip) in
  NoDup t
  ∧ (0 < length t ≤ 3)%nat
  ∧ take 3 color `prefix_of` t
  ∧ sublist color color_labels
  ∧ (∀ r, image = Some r →
      ("yellow_trench_protection" ∈ color ↔ (2 # 100 < master_tags.yellow r)%Q)
      ∧ ("orange_conduit" ∈ color ↔ (2 # 100 < master_tags.orange r)%Q)
      ∧ ("blue_water_pipe" ∈ color ↔ (2 # 100 < master_tags.blue r)%Q)
      ∧ ("green_sewer_pipe" ∈ color ↔ (2 # 100 < master_tags.green r)%Q)
      ∧ ("red_electrical_marker" ∈ color
         ↔ (2 # 100 < master_tags.red1 r + master_tags.red2 r)%Q))
  ∧ (color = [] → ai_analyzer = false ∨ clip = None → t = ["construction"])
  ∧ (∀ top_indices clip_tags,
       ai_analyzer = true → clip = Some top_indices → top_indices ≠ [] →
       master_tags.clip_tags_loop
         (match ai_tags with [] => master_tags.DEFAULT_TAGS | _ => ai_tags end)
         top_indices [] = Some clip_tags →
       t = take 3 (dedup_onto clip_tags color))
  ∧ (∀ a : ai_photo_renamer.analysis,
       let p := ai_photo_renamer.description_parts a in
       (0 < length p ≤ 3)%nat
       ∧ (ai_photo_renamer.soil_color a ≠ "" →
          hd "" p = ai_photo_renamer.soil_color a)
       ∧ (ai_photo_renamer.soil_color a = "" →
          ai_photo_renamer.detected_objects a = [] → p = ["site"])
       ∧ (ai_photo_renamer.soil_color a ∈ "" :: ai_photo_renamer.SOIL_COLORS →
          (∀ x, x ∈ ai_photo_renamer.detected_objects a →
                x ∈ ai_photo_renamer.all_texts) →
          NoDup p)).
Proof.
  intros color t.
  pose proof (heuristic_only_tags image) as (F1 & F2 & F3 & F4).
  fold color in F1, F2, F3, F4.
  pose proof (color_tags_NoDup image) as Hcolor. fold color in Hcolor.
  assert (∀ clip_tags, dedup_onto (color ++ clip_tags) [] = dedup_onto clip_tags color)
    as Hded.
  { intros ct. rewrite dedup_onto_app, (dedup_onto_fresh color []);
      [reflexivity|exact Hcolor|].
    intros x _. apply not_elem_of_nil. }
  assert (∀ top clip_tags,
            top ≠ [] →
            master_tags.clip_tags_loop
              (match ai_tags with [] => master_tags.DEFAULT_TAGS | _ => ai_tags end)
              top [] = Some clip_tags →
            let m := master_tags.merge_loop (color ++ clip_tags) [] in
            NoDup m ∧ (0 < length m ≤ 3)%nat ∧ take 3 color `prefix_of` m
            ∧ m = take 3 (dedup_onto clip_tags color)) as Hai.
  { intros top ct Htop Hloop m. subst m.
    split; [apply merged_tags_NoDup|].
    rewrite merged_tags_spec, Hded.
    split; [|split; [apply take_prefix_mono, dedup_onto_prefix|reflexivity]].
    rewrite length_take.
    assert (0 < length (dedup_onto ct color))%nat; [|lia].
    pose proof (clip_tags_loop_nonempty _ _ _ Htop Hloop) as Hne.
    destruct ct as [|x ct]; [congruence|].
    assert (x ∈ dedup_onto (x :: ct) color) as Hx.
    { apply dedup_onto_elem. right. left. }
    destruct (dedup_onto (x :: ct) color); [inversion Hx|simpl; lia]. }
  split; [|split; [|split; [|split; [apply color_tags_sublist|split; [|split; [|split]]]]]].
  - subst t. unfold master_tags.analyze_photo_content. fold color.
    destruct ai_analyzer; simpl; [|exact F1].
    destruct clip as [[|i top]|]; [exact F1| |exact F1].
    destruct (master_tags.clip_tags_loop _ (i :: top) []) as [ct|] eqn:Hloop;
      [|exact F1].
    apply (Hai (i :: top) ct); [discriminate|exact Hloop].
  - subst t. unfold master_tags.analyze_photo_content. fold color.
    destruct ai_analyzer; simpl; [|exact F2].
    destruct clip as [[|i top]|]; [exact F2| |exact F2].
    destruct (master_tags.clip_tags_loop _ (i :: top) []) as [ct|] eqn:Hloop;
      [|exact F2].
    apply (Hai (i :: top) ct); [discriminate|exact Hloop].
  - subst t. unfold master_tags.analyze_photo_content. fold color.
    destruct ai_analyzer; simpl; [|exact F3].
    destruct clip as [[|i top]|]; [exact F3| |exact F3].
    destruct (master_tags.clip_tags_loop _ (i :: top) []) as [ct|] eqn:Hloop;
      [|exact F3].
    apply (Hai (i :: top) ct); [discriminate|exact Hloop].
  - intros r ->. apply color_tags_member.
  - intros Hc [->| ->]; subst t; unfold master_tags.analyze_photo_content;
      fold color; [exact (F4 Hc)|].
    destruct ai_analyzer; exact (F4 Hc).
  - intros top ct -> -> Htop Hloop. subst t.
    unfold master_tags.analyze_photo_content. fold color. simpl.
    destruct top as [|i top]; [congruence|]. rewrite Hloop.
    apply (Hai (i :: top) ct); [discriminate|exact Hloop].
  - intros a. apply description_parts_spec.
Qed.

Lemma C7_tag_set_witness :
  let image := Some (master_tags.mk_ratios (5 # 100) (1 # 100) 0 (3 # 100) 0 0) in
  master.tags (master_tags.analyze_photo_content true [] image
                 (Some [13; 6; 3]%nat))
  = take 3 (dedup_onto
              ["excavator_digging_trench"; "open_trench_excavation";
               "green_sewer_pipe_in_trench"]
              (master_tags._color_tags image))
  ∧ master.tags (master_tags.analyze_photo_content false [] None None)
    = ["construction"].
Proof.
  intros image.
  pose proof (C7_tag_set true [] image (Some [13; 6; 3]%nat))
    as (_ & _ & _ & _ & _ & _ & H & _).
  pose proof (C7_tag_set false [] None None) as (_ & _ & _ & _ & _ & F & _).
  split.
  - apply (H [13; 6; 3]%nat); [reflexivity|reflexivity|discriminate|].
    vm_compute. reflexivity.
  - apply F; [reflexivity|left; reflexivity].
Defined.

Example tag_set_sample :
  master.tags (master_tags.analyze_photo_content true []
     (Some (master_tags.mk_ratios (5 # 100) (1 # 100) 0 (3 # 100) 0 0))
     (Some [13; 6; 3]%nat))
  = ["yellow_trench_protection"; "green_sewer_pipe"; "excavator_digging_trench"].
Proof. vm_compute. reflexivity. Qed.

(** ** Zero-byte files *)

Lemma zero_byte_skip (w : collaborators) (DRY_RUN : bool)
    (t : gmap string entry) (name : string) (f : file) :
  read_file t (None, name) = Some f →
  st_size f = 0%N →
  sort_media_by_date.process_file w DRY_RUN t name =
    (t, Some (sort_media_by_date.mk_LogRecord [name] [] "SKIP" "zero-bytes")).
Proof.
  intros Hread Hsize. unfold sort_media_by_date.process_file.
  rewrite Hread, Hsize. reflexivity.
Qed.

(** C9: for a root file of size zero, [process_file] returns the record
    (path, "", SKIP, zero-bytes) at once: the tree is returned unchanged,
    whatever the converter, the clock data and the dry-run switch are, so no
    conversion, folder creation or move has taken place and the file is still
    at its path with the same data. *)
Theorem C9_zero_byte_skip (w : collaborators) (DRY_RUN : bool)
    (t : gmap string entry) (name : string) (f : file) :
  read_file t (None, name) = Some f →
  st_size f = 0%N →
  sort_media_by_date.process_file w DRY_RUN t name =
    (t, Some (sort_media_by_date.mk_LogRecord [name] [] "SKIP" "zero-bytes"))
  ∧ read_file (sort_media_by_date.process_file w DRY_RUN t name).1 (None, name)
    = Some f.
Proof.
  intros Hread Hsize. rewrite (zero_byte_skip w DRY_RUN t name f Hread Hsize).
  split; [reflexivity|exact Hread].
Qed.

Lemma C9_zero_byte_skip_witness :
  let w := mk_collaborators true (λ f, Saved f) (λ _ f, Saved f) false
             (λ _, None) (λ _ _, None) in
  let f := mk_file 0 7 None None (mk_datetime 2024 2 1 10 0 0) in
  let t : gmap string entry := {[ "empty.heic" := File f ]} in
  sort_media_by_date.process_file w false t "empty.heic" =
    (t, Some (sort_media_by_date.mk_LogRecord ["empty.heic"] [] "SKIP" "zero-bytes"))
  ∧ read_file (sort_media_by_date.process_file w false t "empty.heic").1
              (None, "empty.heic") = Some f.
Proof.
  intros w f t.
  apply (C9_zero_byte_skip w false t "empty.heic" f); reflexivity.
Defined.

(** ** Phase 1: consolidation *)

Section consolidation.
Import sort_media_by_date.
Implicit Types t : gmap string entry.
Implicit Types its : gmap string item.

Lemma resolve_collision_free {A} (dir : gmap string A) n :
  dir !! resolve_collision dir n = None.
Proof.
  apply (first_free_spec dir n (candidate (stem n) (suffix n))
           (Inj0 := candidate_inj _ _)).
Qed.

(** A live move out of a folder into a free root name always succeeds. *)
Lemma move_up_live t d its n f dst :
  t !! d = Some (Dir its) → its !! n = Some (IFile f) → t !! dst = None →
  move_or_log t (Some d, n) (None, dst) false =
    Some (<[dst := File f]> (<[d := Dir (delete n its)]> t)).
Proof.
  intros Hd Hn Hdst. unfold move_or_log, replace. simpl.
  rewrite Hd, Hn. simpl.
  assert (dst ≠ d) as Hne by congruence.
  rewrite lookup_insert_ne by congruence. rewrite Hdst. reflexivity.
Qed.

Lemma consolidate_file_moves t logs d its n f :
  t !! d = Some (Dir its) → its !! n = Some (IFile f) →
  eligible n (IFile f) = true →
  consolidate_file false d (t, logs) n =
    (<[resolve_collision t n := File f]> (<[d := Dir (delete n its)]> t),
     logs ++ [consolidate_record d n (resolve_collision t n)]).
Proof.
  intros Hd Hn He. unfold consolidate_file, is_file. rewrite Hd, Hn.
  unfold eligible in He. apply andb_true_iff in He as [Hh Hm].
  apply negb_true_iff in Hh. rewrite Hh, Hm.
  cbn -[move_or_log resolve_collision].
  rewrite (move_up_live t d its n f); [reflexivity|exact Hd|exact Hn|].
  apply resolve_collision_free.
Qed.

Lemma consolidate_file_skips t logs d its n :
  t !! d = Some (Dir its) →
  (∀ it, its !! n = Some it → eligible n it = false) →
  consolidate_file false d (t, logs) n = (t, logs).
Proof.
  intros Hd He. unfold consolidate_file, is_file. rewrite Hd.
  destruct (its !! n) as [[f|]|] eqn:Hn; simpl; try reflexivity.
  specialize (He _ eq_refl). unfold eligible in He.
  destruct (is_hidden n); simpl in *; [reflexivity|].
  rewrite He. reflexivity.
Qed.
End consolidation.

Section consolidation_loops.
Import sort_media_by_date.
Implicit Types t : gmap string entry.
Implicit Types its : gmap string item.

Lemma eligible_in_delete its n m :
  m ≠ n → eligible_in (delete n its) m = eligible_in its m.
Proof.
  intros Hne. unfold eligible_in. rewrite lookup_delete_ne by congruence.
  reflexivity.
Qed.

Lemma filter_eligible_delete its n (names : list string) :
  n ∉ names →
  filter (λ m, eligible_in (delete n its) m = true) names
  = filter (λ m, eligible_in its m = true) names.
Proof.
  induction names as [|m names IH]; intros Hn; [reflexivity|].
  apply not_elem_of_cons in Hn as [Hne Hn].
  rewrite !filter_cons, IH by exact Hn.
  rewrite eligible_in_delete by congruence. reflexivity.
Qed.

(** The inner loop of Phase 1 over the names of one folder. *)
Lemma drain_fold (d : string) (names : list string) :
  ∀ t its logs,
    t !! d = Some (Dir its) → NoDup names →
    ∃ t' moved,
      fold_left (consolidate_file false d) names (t, logs)
      = (t', logs ++ ((λ x, consolidate_record d x.1 x.2) <$> moved))
      ∧ t' !! d = Some (Dir (drained its names))
      ∧ (∀ k e, k ≠ d → t !! k = Some e → t' !! k = Some e)
      ∧ (∀ k e, t' !! k = Some e → t !! k = None → ∃ f, e = File f)
      ∧ moved.*1 = filter (λ m, eligible_in its m = true) names
      ∧ (∀ n dst, (n, dst) ∈ moved →
           ∃ f, its !! n = Some (IFile f) ∧ t' !! dst = Some (File f))
      ∧ (∀ n dst, (n, dst) ∈ moved → t !! dst = None)
      ∧ NoDup moved.*2.
Proof.
  induction names as [|n names IH]; intros t its logs Hd Hnd.
  - exists t, []. simpl. rewrite app_nil_r.
    split; [reflexivity|]. split; [exact Hd|]. split; [auto|].
    split; [intros k e H1 H2; congruence|]. split; [reflexivity|].
    split; [intros n dst Hin; inversion Hin|].
    split; [intros n dst Hin; inversion Hin|constructor].
  - apply NoDup_cons in Hnd as [Hn Hnd]. cbn [fold_left drained].
    destruct (eligible_in its n) eqn:He.
    + pose proof He as He'. unfold eligible_in in He'.
      destruct (its !! n) as [[f|]|] eqn:Hlk; try discriminate.
      rewrite (consolidate_file_moves t logs d its n f Hd Hlk He').
      set (dst := resolve_collision t n).
      assert (t !! dst = None) as Hfree by apply resolve_collision_free.
      assert (dst ≠ d) as Hne by congruence.
      set (t1 := <[dst := File f]> (<[d := Dir (delete n its)]> t)).
      assert (t1 !! d = Some (Dir (delete n its))) as Hd1.
      { unfold t1. rewrite lookup_insert_ne by congruence.
        apply lookup_insert_eq. }
      destruct (IH t1 (delete n its)
                  (logs ++ [consolidate_record d n dst]) Hd1 Hnd)
        as (t' & moved & Hfold & Hd' & Hframe & Hnew & Hmoved & Hfiles
            & Hfresh & Hdsts).
      assert (t' !! dst = Some (File f)) as Hdst'.
      { apply Hframe; [exact Hne|]. unfold t1. apply lookup_insert_eq. }
      exists t', ((n, dst) :: moved).
      split; [rewrite Hfold, <- app_assoc; reflexivity|].
      split; [exact Hd'|]. split; [|split; [|split; [|split; [|split]]]].
      * intros k e Hk Hlook. apply Hframe; [exact Hk|].
        unfold t1. rewrite !lookup_insert_ne by congruence. exact Hlook.
      * intros k e Hk' Hk.
        destruct (decide (k = dst)) as [->|Hkd]; [exists f; congruence|].
        apply (Hnew k e Hk'). unfold t1.
        rewrite !lookup_insert_ne by congruence. exact Hk.
      * rewrite fmap_cons, filter_cons_True by exact He. cbn [fst].
        f_equal. rewrite Hmoved. apply filter_eligible_delete, Hn.
      * intros m dm Hin. apply elem_of_cons in Hin as [Heq|Hin].
        -- injection Heq as -> ->. exists f. split; [exact Hlk|exact Hdst'].
        -- destruct (Hfiles m dm Hin) as (g & Hg & Hg').
           exists g. split; [|exact Hg'].
           apply lookup_delete_Some in Hg as [_ Hg]. exact Hg.
      * intros m dm Hin. apply elem_of_cons in Hin as [Heq|Hin].
        -- injection Heq as -> ->. exact Hfree.
        -- specialize (Hfresh m dm Hin). unfold t1 in Hfresh.
           apply lookup_insert_None in Hfresh as [Hfresh _].
           apply lookup_insert_None in Hfresh as [Hfresh _]. exact Hfresh.
      * rewrite fmap_cons. apply NoDup_cons. split; [|exact Hdsts].
        cbn [snd]. intros Hin.
        apply list_elem_of_fmap in Hin as ([m dm] & Heq & Hin).
        simpl in Heq. subst dm. specialize (Hfresh m dst Hin).
        unfold t1 in Hfresh. rewrite lookup_insert_eq in Hfresh. discriminate.
    + rewrite (consolidate_file_skips t logs d its n Hd).
      2:{ intros it Hit. unfold eligible_in in He. rewrite Hit in He. exact He. }
      destruct (IH t its logs Hd Hnd)
        as (t' & moved & Hfold & Hd' & Hframe & Hnew & Hmoved & Hfiles & Hrest).
      exists t', moved. split; [exact Hfold|]. split; [exact Hd'|].
      split; [exact Hframe|]. split; [exact Hnew|].
      split; [|split; [exact Hfiles|exact Hrest]].
      rewrite filter_cons_False by (rewrite He; discriminate). exact Hmoved.
Qed.
End consolidation_loops.

Section listings.
Context (ls : listing) (Hls : listing_ok ls).

Lemma listing_NoDup {A} (m : gmap string A) : NoDup (ls A m).
Proof. rewrite (Hls A m). apply NoDup_fst_map_to_list. Qed.

Lemma listing_elem {A} (m : gmap string A) n : n ∈ ls A m ↔ is_Some (m !! n).
Proof.
  rewrite (Hls A m), list_elem_of_fmap. split.
  - intros ([k x] & -> & Hin). apply elem_of_map_to_list in Hin. eauto.
  - intros [x Hx]. exists (n, x). split; [reflexivity|].
    apply elem_of_map_to_list, Hx.
Qed.

Lemma listing_nil {A} (m : gmap string A) : ls A m = [] ↔ m = ∅.
Proof.
  split.
  - intros Hnil. apply map_empty. intros n.
    apply eq_None_not_Some. rewrite <- listing_elem, Hnil.
    apply not_elem_of_nil.
  - intros ->. pose proof (Hls A ∅) as Hp.
    rewrite map_to_list_empty in Hp. simpl in Hp.
    apply Permutation_nil_r in Hp. exact Hp.
Qed.
End listings.

Lemma default_listing_ok : listing_ok default_listing.
Proof. intros A m. reflexivity. Qed.

Lemma drained_lookup (names : list string) :
  ∀ (its : gmap string item) m,
    drained its names !! m =
      if bool_decide (m ∈ names) && eligible_in its m then None else its !! m.
Proof.
  induction names as [|n names IH]; intros its m; cbn [drained].
  - rewrite bool_decide_eq_false_2 by apply not_elem_of_nil. reflexivity.
  - rewrite IH. destruct (decide (m = n)) as [->|Hne].
    + rewrite (bool_decide_eq_true_2 (n ∈ n :: names)) by left.
      destruct (eligible_in its n) eqn:He; simpl.
      * rewrite lookup_delete_eq. destruct (_ && _); reflexivity.
      * rewrite He, andb_false_r. reflexivity.
    + assert (bool_decide (m ∈ n :: names) = bool_decide (m ∈ names)) as ->.
      { apply bool_decide_ext. rewrite elem_of_cons. tauto. }
      destruct (eligible_in its n).
      * rewrite eligible_in_delete, lookup_delete_ne by congruence. reflexivity.
      * reflexivity.
Qed.

Lemma leftover_lookup (its : gmap string item) m :
  leftover its !! m = if eligible_in its m then None else its !! m.
Proof.
  unfold leftover, eligible_in.
  destruct (its !! m) as [it|] eqn:Hm.
  - destruct (eligible m it) eqn:He.
    + apply map_lookup_filter_None. right. intros x Hx. simpl.
      rewrite Hm in Hx. injection Hx as <-. rewrite He. discriminate.
    + apply map_lookup_filter_Some. split; [exact Hm|exact He].
  - apply map_lookup_filter_None. left. exact Hm.
Qed.

Lemma drained_all (its : gmap string item) (names : list string) :
  (∀ m, is_Some (its !! m) → m ∈ names) → drained its names = leftover its.
Proof.
  intros Hall. apply map_eq. intros m. rewrite drained_lookup, leftover_lookup.
  destruct (eligible_in its m) eqn:He; [|rewrite andb_false_r; reflexivity].
  rewrite bool_decide_eq_true_2; [reflexivity|].
  apply Hall. unfold eligible_in in He. destruct (its !! m); [eauto|discriminate].
Qed.

Section consolidation_folders.
Import sort_media_by_date.
Context (ls : listing) (Hls : listing_ok ls).
Implicit Types t : gmap string entry.
Implicit Types its : gmap string item.

Lemma consolidate_folder_skips t logs d :
  (∀ e, t !! d = Some e → drainable d e = false) →
  consolidate_folder ls false (t, logs) d = (t, logs).
Proof.
  intros Hskip. unfold consolidate_folder, is_dir.
  destruct (t !! d) as [[f|its]|] eqn:Hd; try reflexivity.
  specialize (Hskip _ eq_refl). unfold drainable in Hskip.
  destruct (is_hidden d); [reflexivity|].
  destruct (is_valid_date_folder d); [reflexivity|discriminate].
Qed.

(** One folder of Phase 1: every eligible file leaves for the root, and
    the folder is removed exactly when nothing is left in it. *)
Lemma consolidate_folder_drains t logs d its :
  t !! d = Some (Dir its) → drainable d (Dir its) = true →
  ∃ t' moved,
    consolidate_folder ls false (t, logs) d
    = (t', logs ++ ((λ x, consolidate_record d x.1 x.2) <$> moved)
             ++ (if decide (leftover its = ∅)
                 then [remove_folder_record d] else []))
    ∧ t' !! d = (if decide (leftover its = ∅) then None
                 else Some (Dir (leftover its)))
    ∧ (∀ k e, k ≠ d → t !! k = Some e → t' !! k = Some e)
    ∧ (∀ k e, t' !! k = Some e → t !! k = None → ∃ f, e = File f)
    ∧ moved.*1 = filter (λ m, eligible_in its m = true) (ls _ its)
    ∧ (∀ n dst, (n, dst) ∈ moved →
         ∃ f, its !! n = Some (IFile f) ∧ t' !! dst = Some (File f))
    ∧ (∀ n dst, (n, dst) ∈ moved → t !! dst = None)
    ∧ NoDup moved.*2.
Proof.
  intros Hd Hdr. unfold drainable in Hdr.
  apply andb_true_iff in Hdr as [Hh Hv].
  apply negb_true_iff in Hh, Hv.
  unfold consolidate_folder, is_dir, folder. rewrite Hd, Hh, Hv.
  cbn [negb orb].
  destruct (drain_fold d (ls _ its) t its logs Hd (listing_NoDup ls Hls its))
    as (t1 & moved & Hfold & Hd1 & Hframe & Hnew & Hmoved & Hfiles & Hrest).
  rewrite Hfold. cbn [fst snd].
  rewrite (drained_all its (ls _ its)) in Hd1
    by (intros m Hm; apply (listing_elem ls Hls), Hm).
  rewrite Hd1.
  destruct (ls _ (leftover its)) as [|x xs] eqn:Hleft.
  - apply (listing_nil ls Hls) in Hleft.
    unfold rmdir. rewrite Hd1, Hleft.
    rewrite !decide_True by reflexivity.
    exists (delete d t1), moved.
    split; [rewrite <- app_assoc; reflexivity|].
    split; [apply lookup_delete_eq|].
    split; [|split; [|split; [exact Hmoved|split; [|exact Hrest]]]].
    + intros k e Hk Hlook. rewrite lookup_delete_ne by congruence.
      apply Hframe; [exact Hk|exact Hlook].
    + intros k e Hk' Hk. apply lookup_delete_Some in Hk' as [_ Hk'].
      apply (Hnew k e Hk' Hk).
    + intros n dst Hin. destruct (Hfiles n dst Hin) as (f & Hf & Hf').
      exists f. split; [exact Hf|].
      rewrite lookup_delete_ne; [exact Hf'|].
      intros ->. destruct Hrest as [Hfresh _].
      specialize (Hfresh n dst Hin). congruence.
  - assert (leftover its ≠ ∅) as Hne.
    { intros He. apply (listing_nil ls Hls) in He. congruence. }
    rewrite !decide_False by exact Hne.
    exists t1, moved. split; [rewrite app_nil_r; reflexivity|].
    split; [exact Hd1|].
    split; [exact Hframe|]. split; [exact Hnew|].
    split; [exact Hmoved|split; [exact Hfiles|exact Hrest]].
Qed.
End consolidation_folders.

Section consolidation_root.
Import sort_media_by_date.
Context (ls : listing) (Hls : listing_ok ls).
Implicit Types t : gmap string entry.
Implicit Types its : gmap string item.

Lemma phase1_record_head t names r :
  phase1_record t names r →
  ∃ d, d ∈ names ∧ hd_error (original_path r) = Some d.
Proof.
  intros [(d & its & n & f & dst & -> & Hd & _)|(d & its & -> & Hd & _)];
    exists d; (split; [exact Hd|reflexivity]).
Qed.

Lemma phase1_record_method t names r :
  phase1_record t names r →
  method r = "CONSOLIDATE" ∨ method r = "REMOVE_FOLDER".
Proof.
  intros [(d & its & n & f & dst & -> & _)|(d & its & -> & _)];
    [left|right]; reflexivity.
Qed.

Lemma drained_records_NoDup d its (moved : list (string * string)) :
  moved.*1 = filter (λ m, eligible_in its m = true) (ls _ its) →
  NoDup (original_path <$>
           ((λ x, consolidate_record d x.1 x.2) <$> moved)
           ++ (if decide (leftover its = ∅)
               then [remove_folder_record d] else [])).
Proof.
  intros Hmoved. rewrite fmap_app. apply NoDup_app. split; [|split].
  - rewrite <- list_fmap_compose.
    assert (NoDup (moved.*1)) as Hnd.
    { rewrite Hmoved. apply NoDup_filter, (listing_NoDup ls Hls). }
    clear Hmoved. induction moved as [|[n dst] moved IH]; [constructor|].
    rewrite fmap_cons in Hnd. apply NoDup_cons in Hnd as [Hn Hnd].
    rewrite fmap_cons. apply NoDup_cons. split; [|apply IH, Hnd].
    intros Hin. apply list_elem_of_fmap in Hin as ([m dm] & Heq & Hin).
    simpl in Heq. injection Heq as <-.
    apply Hn. apply list_elem_of_fmap. exists (n, dm). split; [reflexivity|exact Hin].
  - intros p Hp Hp'.
    apply list_elem_of_fmap in Hp as (r & -> & Hr).
    apply list_elem_of_fmap in Hr as ([n dst] & -> & _).
    destruct (decide (leftover its = ∅)); simpl in Hp'.
    + apply list_elem_of_singleton in Hp'. discriminate.
    + inversion Hp'.
  - destruct (decide (leftover its = ∅)); simpl; [apply NoDup_singleton|constructor].
Qed.

(** The outer loop of Phase 1 over root names. *)
Lemma consolidate_fold (names : list string) :
  ∀ t logs,
    NoDup names →
    ∃ t' new,
      fold_left (consolidate_folder ls false) names (t, logs)
      = (t', logs ++ new)
      ∧ (∀ k e, t !! k = Some e → k ∉ names ∨ drainable k e = false →
                t' !! k = Some e)
      ∧ (∀ d its, d ∈ names → t !! d = Some (Dir its) →
                  drainable d (Dir its) = true →
           (leftover its ≠ ∅ → t' !! d = Some (Dir (leftover its)))
           ∧ (leftover its = ∅ →
              is_dir t' d = false ∧ remove_folder_record d ∈ new)
           ∧ (∀ n f, its !! n = Some (IFile f) → eligible n (IFile f) = true →
                ∃ dst, consolidate_record d n dst ∈ new
                       ∧ t' !! dst = Some (File f)))
      ∧ (∀ k e, t' !! k = Some e → t !! k = None → ∃ f, e = File f)
      ∧ Forall (phase1_record t names) new
      ∧ NoDup (original_path <$> new)
      ∧ Forall (placed_in_root t t') new
      ∧ NoDup (filter (λ p, p ≠ []) (new_path <$> new)).
Proof.
  induction names as [|d names IH]; intros t logs Hnd.
  { exists t, []. simpl. rewrite app_nil_r.
    split; [reflexivity|]. split; [auto|].
    split; [intros d its Hin; inversion Hin|].
    split; [intros k e H1 H2; congruence|].
    repeat split; constructor. }
  apply NoDup_cons in Hnd as [Hdn Hnd]. cbn [fold_left].
  destruct (t !! d) as [e|] eqn:Hd;
    [destruct (drainable d e) eqn:Hdr|].
  - (* the folder is drained *)
    destruct e as [?|its]; [discriminate|].
    destruct (consolidate_folder_drains ls Hls t logs d its Hd Hdr)
      as (t1 & moved & Hstep & Hd1 & Hframe & Hnew & Hmoved & Hfiles
          & Hfresh & Hdsts).
    rewrite Hstep. set (new1 := _ ++ (if decide _ then _ else _)) in *.
    destruct (IH t1 (logs ++ new1) Hnd)
      as (t' & new2 & Hfold & O1 & O2 & O3 & O4 & O5 & O6 & O7).
    assert (Forall (placed_in_root t t1) new1) as Hplaced1.
    { unfold new1. apply Forall_app. split.
      - apply Forall_forall. intros r Hr.
        apply list_elem_of_fmap in Hr as ([n dst] & -> & Hin).
        destruct (Hfiles n dst Hin) as (f & _ & Hf).
        intros _. exists dst, f. split; [reflexivity|].
        split; [|exact Hf]. intros g. rewrite (Hfresh n dst Hin). discriminate.
      - destruct (decide (leftover its = ∅)); [|constructor].
        apply Forall_singleton. intros Hne. destruct Hne. reflexivity. }
    assert (∀ k its', k ∈ names → t1 !! k = Some (Dir its') →
                      t !! k = Some (Dir its')) as Hback.
    { intros k its' Hk Hk1. assert (k ≠ d) as Hkd by congruence.
      destruct (t !! k) as [e|] eqn:Hkt.
      - rewrite (Hframe k e Hkd Hkt) in Hk1. exact Hk1.
      - destruct (Hnew k _ Hk1 Hkt) as [f Hf]. discriminate. }
    exists t', (new1 ++ new2).
    split; [rewrite Hfold, <- app_assoc; reflexivity|].
    split; [|split; [|split; [|split; [|split; [|split]]]]].
    + intros k e Hk Hcond. assert (k ≠ d) as Hkd.
      { intros ->. rewrite Hd in Hk. injection Hk as <-.
        destruct Hcond as [Hc|Hc]; [apply Hc; left|congruence]. }
      apply O1; [apply Hframe; [exact Hkd|exact Hk]|].
      destruct Hcond as [Hc|Hc]; [left|right; exact Hc].
      intros Hin. apply Hc. right. exact Hin.
    + intros d' its' Hin Hd' Hdr'.
      apply elem_of_cons in Hin as [->|Hin].
      * rewrite Hd in Hd'. injection Hd' as <-. split; [|split].
        -- intros Hne. rewrite decide_False in Hd1 by exact Hne.
           apply O1; [exact Hd1|left; exact Hdn].
        -- intros He. rewrite decide_True in Hd1 by exact He. split.
           ++ unfold is_dir. destruct (t' !! d) as [e|] eqn:Hd'; [|reflexivity].
              destruct (O3 d e Hd' Hd1) as [f ->]. reflexivity.
           ++ apply elem_of_app. left. unfold new1.
              rewrite decide_True by exact He.
              apply elem_of_app. right. left.
        -- intros n f Hn He.
           assert (n ∈ moved.*1) as Hnm.
           { rewrite Hmoved. apply list_elem_of_filter. split.
             - unfold eligible_in. rewrite Hn. exact He.
             - apply (listing_elem ls Hls). eauto. }
           apply list_elem_of_fmap in Hnm as ([n' dst] & Heq & Hnm).
           simpl in Heq. subst n'.
           destruct (Hfiles n dst Hnm) as (f' & Hf' & Hdst).
           assert (f' = f) as -> by congruence.
           exists dst. split.
           ++ apply elem_of_app. left. apply elem_of_app. left.
              apply list_elem_of_fmap. exists (n, dst). split; [reflexivity|exact Hnm].
           ++ apply O1; [exact Hdst|right; reflexivity].
      * assert (d' ≠ d) as Hne by congruence.
        destruct (O2 d' its' Hin (Hframe d' _ Hne Hd') Hdr') as (A & B & C).
        split; [exact A|]. split.
        -- intros He. destruct (B He) as [B1 B2]. split; [exact B1|].
           apply elem_of_app. right. exact B2.
        -- intros n f Hn He. destruct (C n f Hn He) as (dst & C1 & C2).
           exists dst. split; [apply elem_of_app; right; exact C1|exact C2].
    + intros k e Hk' Hk. destruct (t1 !! k) as [e1|] eqn:Hk1.
      * destruct (Hnew k e1 Hk1 Hk) as [f ->].
        rewrite (O1 k (File f) Hk1) in Hk' by (right; reflexivity).
        exists f. congruence.
      * apply (O3 k e Hk' Hk1).
    + apply Forall_app. split.
      * unfold new1. apply Forall_app. split.
        -- apply Forall_forall. intros r Hr.
           apply list_elem_of_fmap in Hr as ([n dst] & -> & Hin).
           destruct (Hfiles n dst Hin) as (f & Hf & _).
           left. exists d, its, n, f, dst.
           split; [reflexivity|]. split; [left|]. split; [exact Hd|].
           split; [exact Hdr|]. split; [exact Hf|].
           assert (n ∈ moved.*1) as Hnm.
           { apply list_elem_of_fmap. exists (n, dst). split; [reflexivity|exact Hin]. }
           rewrite Hmoved in Hnm. apply list_elem_of_filter in Hnm as [Hel _].
           unfold eligible_in in Hel. rewrite Hf in Hel. exact Hel.
        -- destruct (decide (leftover its = ∅)) as [He|]; [|constructor].
           apply Forall_singleton. right. exists d, its.
           split; [reflexivity|]. split; [left|]. split; [exact Hd|].
           split; [exact Hdr|exact He].
      * eapply Forall_impl; [exact O4|]. intros r Hr.
        destruct Hr as [(d' & its' & n & f & dst & -> & Hin & Hd' & Hrest)
                       |(d' & its' & -> & Hin & Hd' & Hrest)].
        -- left. exists d', its', n, f, dst.
           split; [reflexivity|]. split; [right; exact Hin|].
           split; [apply Hback; [exact Hin|exact Hd']|exact Hrest].
        -- right. exists d', its'.
           split; [reflexivity|]. split; [right; exact Hin|].
           split; [apply Hback; [exact Hin|exact Hd']|exact Hrest].
    + rewrite fmap_app. apply NoDup_app. split; [|split; [|exact O5]].
      * apply drained_records_NoDup, Hmoved.
      * intros p Hp Hp'.
        apply list_elem_of_fmap in Hp' as (r2 & -> & Hr2).
        rewrite Forall_forall in O4.
        destruct (phase1_record_head _ _ _ (O4 r2 Hr2)) as (d2 & Hd2 & Hhd).
        apply list_elem_of_fmap in Hp as (r1 & Heq & Hr1).
        rewrite Heq in Hhd.
        assert (hd_error (original_path r1) = Some d) as Hhd1.
        { unfold new1 in Hr1. apply elem_of_app in Hr1 as [Hr1|Hr1].
          - apply list_elem_of_fmap in Hr1 as ([n dst] & -> & _). reflexivity.
          - destruct (decide (leftover its = ∅)); [|inversion Hr1].
            apply list_elem_of_singleton in Hr1. subst r1. reflexivity. }
        congruence.
    + apply Forall_app. split.
      * eapply Forall_impl; [exact Hplaced1|]. intros r Hr Hne.
        destruct (Hr Hne) as (dst & f & Hp & Hno & Hin). exists dst, f.
        split; [exact Hp|]. split; [exact Hno|].
        apply O1; [exact Hin|right; reflexivity].
      * eapply Forall_impl; [exact O6|]. intros r Hr Hne.
        destruct (Hr Hne) as (dst & f & Hp & Hno & Hin). exists dst, f.
        split; [exact Hp|]. split; [|exact Hin].
        intros g Hg. apply (Hno g).
        apply Hframe; [|exact Hg]. congruence.
    + rewrite fmap_app, filter_app. apply NoDup_app. split; [|split; [|exact O7]].
      * unfold new1. rewrite fmap_app, filter_app.
        assert (filter (λ p, p ≠ [])
                  (new_path <$> (if decide (leftover its = ∅)
                                 then [remove_folder_record d] else []))
                = []) as ->.
        { destruct (decide (leftover its = ∅)); [|reflexivity].
          simpl. rewrite filter_cons_False; [reflexivity|]. intros H. apply H. reflexivity. }
        rewrite app_nil_r, <- list_fmap_compose.
        assert (new_path ∘ (λ x : string * string, consolidate_record d x.1 x.2)
                = (λ x, [x.2])) as -> by reflexivity.
        clear -Hdsts. induction moved as [|[n dst] moved IHm]; [constructor|].
        rewrite fmap_cons in Hdsts. apply NoDup_cons in Hdsts as [Hn Hdsts].
        rewrite fmap_cons, filter_cons_True by discriminate.
        apply NoDup_cons. split; [|apply IHm, Hdsts].
        intros Hin. apply list_elem_of_filter in Hin as [_ Hin].
        apply list_elem_of_fmap in Hin as ([m dm] & Heq & Hin).
        simpl in Heq. injection Heq as <-.
        apply Hn. apply list_elem_of_fmap. exists (m, dst). split; [reflexivity|exact Hin].
      * intros p Hp Hp'.
        apply list_elem_of_filter in Hp as [Hne Hp].
        apply list_elem_of_filter in Hp' as [_ Hp'].
        apply list_elem_of_fmap in Hp as (r1 & -> & Hr1).
        apply list_elem_of_fmap in Hp' as (r2 & Heq & Hr2).
        rewrite Forall_forall in Hplaced1, O6.
        destruct (Hplaced1 r1 Hr1 Hne) as (dst1 & f1 & Hp1 & _ & Hin1).
        rewrite Heq in Hne.
        destruct (O6 r2 Hr2 Hne) as (dst2 & f2 & Hp2 & Hno2 & _).
        assert (dst1 = dst2) as <- by congruence.
        apply (Hno2 f1 Hin1).
  - (* the entry is left alone *)
    rewrite (consolidate_folder_skips ls t logs d)
      by (intros e' He'; congruence).
    destruct (IH t logs Hnd) as (t' & new & Hfold & O1 & O2 & O3 & O4 & O5 & O67).
    exists t', new. split; [exact Hfold|].
    split; [|split; [|split; [exact O3|split; [|split; [exact O5|exact O67]]]]].
    + intros k e' Hk Hcond. apply O1; [exact Hk|].
      destruct Hcond as [Hc|Hc]; [left|right; exact Hc].
      intros Hin. apply Hc. right. exact Hin.
    + intros d' its' Hin Hd' Hdr'.
      apply elem_of_cons in Hin as [->|Hin]; [congruence|].
      apply O2; assumption.
    + eapply Forall_impl; [exact O4|]. intros r Hr.
      destruct Hr as [(d' & its' & n & f & dst & -> & Hin & Hrest)
                     |(d' & its' & -> & Hin & Hrest)].
      * left. exists d', its', n, f, dst.
        split; [reflexivity|]. split; [right; exact Hin|exact Hrest].
      * right. exists d', its'.
        split; [reflexivity|]. split; [right; exact Hin|exact Hrest].
  - rewrite (consolidate_folder_skips ls t logs d)
      by (intros e' He'; congruence).
    destruct (IH t logs Hnd) as (t' & new & Hfold & O1 & O2 & O3 & O4 & O5 & O67).
    exists t', new. split; [exact Hfold|].
    split; [|split; [|split; [exact O3|split; [|split; [exact O5|exact O67]]]]].
    + intros k e' Hk Hcond. apply O1; [exact Hk|].
      destruct Hcond as [Hc|Hc]; [left|right; exact Hc].
      intros Hin. apply Hc. right. exact Hin.
    + intros d' its' Hin Hd' Hdr'.
      apply elem_of_cons in Hin as [->|Hin]; [congruence|].
      apply O2; assumption.
    + eapply Forall_impl; [exact O4|]. intros r Hr.
      destruct Hr as [(d' & its' & n & f & dst & -> & Hin & Hrest)
                     |(d' & its' & -> & Hin & Hrest)].
      * left. exists d', its', n, f, dst.
        split; [reflexivity|]. split; [right; exact Hin|exact Hrest].
      * right. exists d', its'.
        split; [reflexivity|]. split; [right; exact Hin|exact Hrest].
Qed.
End consolidation_root.

Lemma is_valid_date_folder_spec (name : string) :
  sort_media_by_date.is_valid_date_folder name = true ↔
  String.length name = 8%nat ∧ all_digits name = true
  ∧ valid_date (int_of_digits (stake 4 name))
               (int_of_digits (stake 2 (sdrop 4 name)))
               (int_of_digits (stake 2 (sdrop 6 name))) = true.
Proof.
  unfold sort_media_by_date.is_valid_date_folder, strptime_Ymd, isdigit.
  destruct (String.length name =? 8)%nat eqn:Hlen.
  - apply Nat.eqb_eq in Hlen. destruct name as [|c name]; [discriminate|].
    destruct (all_digits (String c name)) eqn:Hd; cbn [negb orb andb].
    + destruct (valid_date _ _ _).
      * split; [intros _; split; [exact Hlen|split; reflexivity]|reflexivity].
      * split; [discriminate|]. intros (_ & _ & H). discriminate.
    + split; [discriminate|]. intros (_ & H & _). discriminate.
  - apply Nat.eqb_neq in Hlen. cbn [negb orb]. split; [discriminate|].
    intros (H & _). contradiction.
Qed.

(** C6 (amended): in a live run Phase 1 moves every eligible media file of
    every folder that is neither hidden nor named by a valid date to the
    root, with one CONSOLIDATE record per file; such a folder is removed, with
    a REMOVE_FOLDER record, exactly when nothing is left in it, and otherwise
    stays with its other entries; no ERROR record is written; every other root
    entry, valid date folders and hidden folders included, is the same
    afterwards. *)
Theorem C6_consolidation (ls : listing) (root : gmap string entry) :
  listing_ok ls →
  let r := sort_media_by_date.consolidate_from_invalid_folders ls root false in
  (∀ d its, root !! d = Some (Dir its) → drainable d (Dir its) = true →
     (∀ n f, its !! n = Some (IFile f) → eligible n (IFile f) = true →
        ∃ dst, consolidate_record d n dst ∈ r.2 ∧ r.1 !! dst = Some (File f))
     ∧ (leftover its = ∅ →
        is_dir r.1 d = false ∧ remove_folder_record d ∈ r.2)
     ∧ (leftover its ≠ ∅ →
        r.1 !! d = Some (Dir (leftover its)) ∧ remove_folder_record d ∉ r.2))
  ∧ (∀ k e, root !! k = Some e → drainable k e = false → r.1 !! k = Some e)
  ∧ (∀ d its, root !! d = Some (Dir its) →
       sort_media_by_date.is_valid_date_folder d = true →
       r.1 !! d = Some (Dir its))
  ∧ NoDup (sort_media_by_date.original_path <$> r.2)
  ∧ Forall (phase1_record root (ls _ root)) r.2
  ∧ (∀ rec, rec ∈ r.2 →
       sort_media_by_date.method rec = "CONSOLIDATE"
       ∨ sort_media_by_date.method rec = "REMOVE_FOLDER").
Proof.
  intros Hls r. subst r. unfold sort_media_by_date.consolidate_from_invalid_folders.
  destruct (consolidate_fold ls Hls (ls _ root) root [] (listing_NoDup ls Hls root))
    as (t' & new & Hfold & O1 & O2 & O3 & O4 & O5 & _).
  rewrite Hfold. cbn [fst snd app].
  split; [|split; [|split; [|split; [exact O5|split; [exact O4|]]]]].
  - intros d its Hd Hdr.
    assert (d ∈ ls _ root) as Hin by (apply (listing_elem ls Hls); eauto).
    destruct (O2 d its Hin Hd Hdr) as (A & B & C).
    split; [exact C|]. split; [exact B|].
    intros Hne. split; [apply A, Hne|].
    intros Hrm. rewrite Forall_forall in O4.
    destruct (O4 _ Hrm) as [(d' & its' & n & f & dst & Heq & _)
                           |(d' & its' & Heq & _ & Hd' & _ & He)].
    + discriminate.
    + injection Heq as <-. congruence.
  - intros k e Hk Hdr. apply O1; [exact Hk|right; exact Hdr].
  - intros d its Hd Hv. apply O1; [exact Hd|right].
    unfold drainable. rewrite Hv. apply andb_false_r.
  - intros rec Hrec. rewrite Forall_forall in O4.
    apply (phase1_record_method root (ls _ root)), O4, Hrec.
Qed.

Lemma C6_consolidation_witness :
  let f := mk_file 10 1 None None (mk_datetime 2024 2 1 10 0 0) in
  let root : gmap string entry :=
    {[ "misc_photos" := Dir {[ "a.jpg" := IFile f ]};
       "20240115" := Dir {[ "x.jpg" := IFile f ]};
       "a.jpg" := File f ]} in
  let r := sort_media_by_date.consolidate_from_invalid_folders
             default_listing root false in
  (∃ dst, consolidate_record "misc_photos" "a.jpg" dst ∈ r.2
          ∧ r.1 !! dst = Some (File f))
  ∧ is_dir r.1 "misc_photos" = false
  ∧ remove_folder_record "misc_photos" ∈ r.2
  ∧ r.1 !! "20240115" = Some (Dir {[ "x.jpg" := IFile f ]}).
Proof.
  intros f root r.
  destruct (C6_consolidation default_listing root default_listing_ok)
    as (H1 & _ & H3 & _).
  destruct (H1 "misc_photos" {[ "a.jpg" := IFile f ]}) as (A & B & _);
    [reflexivity|reflexivity|].
  split; [apply (A "a.jpg" f); reflexivity|].
  assert (leftover ({[ "a.jpg" := IFile f ]} : gmap string item) = ∅) as He.
  { apply (bool_decide_unpack _). vm_compute. exact I. }
  split; [apply (B He)|]. split; [apply (B He)|].
  apply (H3 "20240115"); reflexivity.
Defined.

(** The claim as first stated fails for hidden folders: a folder named
    "@eaDir" is not a valid date, yet Phase 1 leaves its media files where
    they are and writes no record. *)
Lemma C6_hidden_folder_not_drained :
  let f := mk_file 10 1 None None (mk_datetime 2024 2 1 10 0 0) in
  let root : gmap string entry := {[ "@eaDir" := Dir {[ "a.jpg" := IFile f ]} ]} in
  sort_media_by_date.is_valid_date_folder "@eaDir" = false
  ∧ eligible "a.jpg" (IFile f) = true
  ∧ sort_media_by_date.consolidate_from_invalid_folders default_listing root false
    = (root, []).
Proof. vm_compute. repeat split; reflexivity. Qed.

(** ** Timestamps: filename patterns and the pipeline's sources *)

Lemma string_app_cons c (a b : string) : String c a +:+ b = String c (a +:+ b).
Proof. reflexivity. Qed.

Lemma string_app_nil_l (a : string) : "" +:+ a = a.
Proof. reflexivity. Qed.

Lemma string_app_assoc (a b c : string) : (a +:+ b) +:+ c = a +:+ b +:+ c.
Proof.
  induction a as [|x a IH]; [reflexivity|].
  rewrite !string_app_cons, IH. reflexivity.
Qed.


Lemma sdrop_app (p s : string) : sdrop (String.length p) (p +:+ s) = s.
Proof.
  induction p as [|c p IH]; [destruct s; reflexivity|].
  rewrite string_app_cons. simpl. exact IH.
Qed.


Section filename_patterns.
Import ai_photo_renamer.


End filename_patterns.







(** ** Effects of the file operations *)

Section fs_effects.
Implicit Types t : gmap string entry.

Lemma read_file_root t n f : read_file t (None, n) = Some f ↔ t !! n = Some (File f).
Proof.
  simpl. destruct (t !! n) as [[g|its]|]; split; intros H; congruence.
Qed.


Lemma folder_insert_file t n f d :
  (∀ its, t !! n ≠ Some (Dir its)) → folder (<[n := File f]> t) d = folder t d.
Proof.
  intros Hn. unfold folder. destruct (decide (d = n)) as [->|Hne].
  - rewrite lookup_insert_eq. destruct (t !! n) as [[g|its]|]; try reflexivity.
    destruct (Hn its eq_refl).
  - rewrite lookup_insert_ne by congruence. reflexivity.
Qed.

Lemma folder_delete_file t n f d :
  t !! n = Some (File f) → folder (delete n t) d = folder t d.
Proof.
  intros Hn. unfold folder. destruct (decide (d = n)) as [->|Hne].
  - rewrite lookup_delete_eq, Hn. reflexivity.
  - rewrite lookup_delete_ne by congruence. reflexivity.
Qed.

Lemma write_root_effect t n f t' :
  write_file t (None, n) f = Some t' →
  t' = <[n := File f]> t ∧ ∀ d, folder t' d = folder t d.
Proof.
  simpl. intros H.
  assert (∀ its, t !! n ≠ Some (Dir its)) as Hn.
  { intros its Hits. rewrite Hits in H. discriminate. }
  assert (t' = <[n := File f]> t) as ->
    by (destruct (t !! n) as [[g|its]|]; congruence).
  split; [reflexivity|]. intros d. apply folder_insert_file, Hn.
Qed.

Lemma unlink_root_effect t n t' :
  unlink t (None, n) = Some t' →
  t' = delete n t ∧ ∀ d, folder t' d = folder t d.
Proof.
  simpl. intros H. destruct (t !! n) as [[g|its]|] eqn:Hn; try discriminate.
  injection H as <-. split; [reflexivity|].
  intros d. apply (folder_delete_file t n g), Hn.
Qed.

Lemma mkdir_effect t d0 t' :
  mkdir_exist_ok t d0 = Some t' →
  t' !! d0 = Some (Dir (folder t d0))
  ∧ (∀ k, k ≠ d0 → t' !! k = t !! k)
  ∧ (∀ d, folder t' d = folder t d).
Proof.
  unfold mkdir_exist_ok, folder. intros H.
  destruct (t !! d0) as [[g|its]|] eqn:Hd; try discriminate; injection H as <-.
  - rewrite Hd. split; [reflexivity|]. split; reflexivity.
  - rewrite lookup_insert_eq. split; [reflexivity|].
    split; [intros k Hk; apply lookup_insert_ne; congruence|].
    intros d. destruct (decide (d = d0)) as [->|Hne].
    + rewrite lookup_insert_eq, Hd. reflexivity.
    + rewrite lookup_insert_ne by congruence. reflexivity.
Qed.

(** A live move of a root file into a free name of a folder. *)
Lemma move_down_live t name f date dst :
  t !! name = Some (File f) → is_dir t date = true →
  folder t date !! dst = None →
  sort_media_by_date.move_or_log t (None, name) (Some date, dst) false
  = Some (<[date := Dir (<[dst := IFile f]> (folder t date))]> (delete name t)).
Proof.
  intros Hn Hd Hdst. unfold is_dir in Hd. unfold folder in Hdst |- *.
  destruct (t !! date) as [[g|its]|] eqn:Hdate; try discriminate.
  assert (date ≠ name) as Hne by congruence.
  unfold sort_media_by_date.move_or_log, mkdir_exist_ok, replace.
  cbn [fst snd negb]. rewrite Hdate. simpl. rewrite Hn. simpl.
  rewrite lookup_delete_ne by congruence. rewrite Hdate, Hdst. reflexivity.
Qed.
End fs_effects.

(** ** Phase 2: [process_file] *)

Section process_file_facts.
Import sort_media_by_date.
Implicit Types t : gmap string entry.

Lemma process_file_stages w DR t name :
  process_file w DR t name =
    match read_file t (None, name) with
    | None => (t, None)
    | Some f =>
        if (st_size f =? 0)%N then
          (t, Some (mk_LogRecord [name] [] "SKIP" "zero-bytes"))
        else
          relocate DR (heic_stage w DR t name).1 name (heic_stage w DR t name).2
    end.
Proof.
  unfold process_file, relocate, heic_stage, resolved.
  destruct (read_file t (None, name)) as [f|]; [|reflexivity].
  destruct (st_size f =? 0)%N; [reflexivity|].
  destruct (in_set (lower (suffix name)) CONVERT_TO_JPG);
    [destruct (convert_heic_to_jpg w t name) as [t' [c|]]|];
    cbn [fst snd];
    (destruct (read_file _ _) as [f1|]; [|reflexivity]);
    destruct (if in_set _ _ then None else exif_dto f1);
    try destruct (get_birth_or_mtime_local f1); reflexivity.
Qed.

(** What [convert_heic_to_jpg] does to the tree. *)
Lemma convert_heic_effect w t name t' res :
  convert_heic_to_jpg w t name = (t', res) →
  (∀ d, folder t' d = folder t d)
  ∧ match res with
    | Some jpg =>
        ∃ f j, t !! name = Some (File f) ∧ heic_to_jpg w f = Saved j
               ∧ t !! jpg = None ∧ t' = <[jpg := File j]> t
    | None =>
        t' = t
        ∨ ∃ jpg part f, t !! name = Some (File f)
                        ∧ heic_to_jpg w f = SaveFailed (Some part)
                        ∧ t !! jpg = None ∧ t' = <[jpg := File part]> t
    end.
Proof.
  unfold convert_heic_to_jpg. intros H.
  set (jpg := first_free t _ _) in H.
  assert (t !! jpg = None) as Hfree.
  { apply (first_free_spec t _ (candidate (stem name) ".jpg")
             (Inj0 := candidate_inj _ _)). }
  destruct (pillow_heif w); cbn [negb] in H;
    [|injection H as <- <-; split; [reflexivity|left; reflexivity]].
  destruct (read_file t (None, name)) as [f|] eqn:Hread;
    [|injection H as <- <-; split; [reflexivity|left; reflexivity]].
  apply read_file_root in Hread.
  assert (∀ x, write_file t (None, jpg) x = Some (<[jpg := File x]> t)) as Hw
    by (intros x; simpl; rewrite Hfree; reflexivity).
  assert (∀ x d, folder (<[jpg := File x]> t) d = folder t d) as Hfold.
  { intros x d. apply folder_insert_file. intros its. congruence. }
  destruct (heic_to_jpg w f) as [j|[part|]] eqn:Hcodec; rewrite ?Hw in H;
    injection H as <- <-.
  - split; [apply Hfold|]. exists f, j. auto.
  - split; [apply Hfold|]. right. exists jpg, part, f. auto.
  - split; [reflexivity|left; reflexivity].
Qed.

(** The HEIC stage leaves every folder as it is and hands on a regular
    file of the root: the original, or the JPG written from it. *)
Lemma heic_stage_effect w DR t name f :
  t !! name = Some (File f) →
  let t1 := (heic_stage w DR t name).1 in
  let path := (heic_stage w DR t name).2 in
  (∀ d, folder t1 d = folder t d)
  ∧ ((path = name ∧ t1 !! name = Some (File f)
      ∧ (t1 = t
         ∨ ∃ jpg part, heic_to_jpg w f = SaveFailed (Some part)
                       ∧ t !! jpg = None ∧ t1 = <[jpg := File part]> t))
     ∨ (∃ j, in_set (lower (suffix name)) CONVERT_TO_JPG = true
             ∧ heic_to_jpg w f = Saved j ∧ t !! path = None
             ∧ t1 = (if DR then <[path := File j]> t
                     else delete name (<[path := File j]> t)))).
Proof.
  intros Hf. cbv zeta. unfold heic_stage.
  destruct (in_set (lower (suffix name)) CONVERT_TO_JPG);
    [|cbn [fst snd]; split; [reflexivity|left; auto]].
  destruct (convert_heic_to_jpg w t name) as [t' res] eqn:Hconv.
  apply convert_heic_effect in Hconv as [Hfold Hres].
  destruct res as [jpg|]; cbn [fst snd].
  - destruct Hres as (f' & j & Hf' & Hcodec & Hfree & ->).
    assert (f' = f) as -> by congruence.
    assert (jpg ≠ name) as Hne by congruence.
    assert (<[jpg := File j]> t !! name = Some (File f)) as Hname
      by (rewrite lookup_insert_ne by congruence; exact Hf).
    destruct DR.
    + split; [exact Hfold|]. right. exists j. auto.
    + assert (unlink (<[jpg := File j]> t) (None, name)
              = Some (delete name (<[jpg := File j]> t))) as ->
        by (simpl; rewrite Hname; reflexivity).
      cbn [from_option id]. split.
      * intros d. rewrite (folder_delete_file _ name f) by exact Hname.
        apply Hfold.
      * right. exists j. auto.
  - split; [exact Hfold|]. left. split; [reflexivity|].
    destruct Hres as [->|(jpg & part & f' & Hf' & Hcodec & Hfree & ->)].
    + split; [exact Hf|left; reflexivity].
    + assert (f' = f) as -> by congruence.
      split; [|right; exists jpg, part; auto].
      rewrite lookup_insert_ne by congruence. exact Hf.
Qed.

(** The relocation stage, for a regular file [path] of the root. *)
Lemma relocate_effect DR t1 name path f1 :
  t1 !! path = Some (File f1) →
  let date := strftime_Ymd (resolved path f1).1 in
  let dst := resolve_collision (folder t1 date) path in
  (mkdir_exist_ok t1 date = None ∧ relocate DR t1 name path = (t1, None))
  ∨ (∃ t2 rec,
       mkdir_exist_ok t1 date = Some t2
       ∧ new_path rec = [date; dst] ∧ original_path rec = [name]
       ∧ folder t1 date !! dst = None
       ∧ relocate DR t1 name path
         = (if DR then t2
            else <[date := Dir (<[dst := IFile f1]> (folder t1 date))]>
                   (delete path t2),
            Some rec)).
Proof.
  intros Hpath. cbv zeta. unfold relocate.
  rewrite (proj2 (read_file_root t1 path f1) Hpath).
  generalize (strftime_Ymd (resolved path f1).1). intros date.
  destruct (mkdir_exist_ok t1 date) as [t2|] eqn:Hmk;
    [right|left; auto].
  destruct (mkdir_effect _ _ _ Hmk) as (Hdate & Hother & Hfold).
  rewrite (Hfold date).
  generalize (resolve_collision_free (folder t1 date) path).
  generalize (resolve_collision (folder t1 date) path). intros dst Hfree.
  assert (t2 !! path = Some (File f1)) as Hpath2.
  { destruct (decide (path = date)) as [->|Hne].
    - unfold mkdir_exist_ok in Hmk. rewrite Hpath in Hmk. discriminate.
    - rewrite Hother by congruence. exact Hpath. }
  destruct DR.
  - eexists t2, _. split; [reflexivity|].
    split; [|split; [|split; [exact Hfree|reflexivity]]]; reflexivity.
  - rewrite (move_down_live t2 path f1 date dst Hpath2).
    + rewrite (Hfold date). eexists t2, _. split; [reflexivity|].
      split; [|split; [|split; [exact Hfree|reflexivity]]]; reflexivity.
    + unfold is_dir. rewrite Hdate. reflexivity.
    + rewrite (Hfold date). exact Hfree.
Qed.
End process_file_facts.

(** ** Conversion failures and the original file *)

Section conversion_failure.
Import sort_media_by_date.
Implicit Types t : gmap string entry.

Lemma heic_stage_failed w DR t name :
  (convert_heic_to_jpg w t name).2 = None →
  (heic_stage w DR t name).2 = name.
Proof.
  unfold heic_stage. intros H. destruct (in_set _ _); [|reflexivity].
  destruct (convert_heic_to_jpg w t name) as [t' [c|]]; [discriminate|reflexivity].
Qed.

End conversion_failure.

Lemma process_single_photo_failure (w : collaborators) (cfg : master_run.config)
    (input : gmap string file) (temp : gmap string entry) (photo : string) :
  let r := (master_run.process_single_photo w cfg input temp photo).2 in
  master_run.original_path r = photo
  ∧ (master_run.success r = false → master_run.final_path r = None).
Proof.
  cbv zeta. unfold master_run.process_single_photo.
  repeat case_match; cbn [snd master_run.success master_run.final_path
                            master_run.original_path];
    (split; [reflexivity|]); intros; congruence.
Qed.




(** ** Dry runs *)

(** C2: what the code does on dry runs.  (1) [main] of the sorting script
    with [--dry-run]: Phase 2 reads the module-level switch, not the flag, so
    the run creates the date folder and moves the file.  (2) [run] of the
    master pipeline with [dry_run] set: the temporary directory is wiped and
    re-created, and stays.  (3) Two files composing to the same name get the
    same destination in the dry run's log and distinct ones in the live
    run's. *)
Theorem C2_dry_run_mutates_and_diverges :
  let w := mk_collaborators true (λ f, Saved f) (λ _ f, Saved f) false
             (λ _, None) (λ _ _, None) in
  let f := mk_file 10 1 None None (mk_datetime 2024 2 1 10 0 0) in
  let g := mk_file 12 2 None None (mk_datetime 2024 2 1 10 0 30) in
  let root : gmap string entry := {[ "a.jpg" := File f ]} in
  let input : gmap string file := {[ "a.jpg" := f; "b.jpg" := g ]} in
  let before :=
    master_batch.mk_disk (Some {[ "old.jpg" := File f ]}) None None None in
  let dry :=
    master_batch.run default_listing w (master_run.mk_config true None [])
      input ["a.jpg"; "b.jpg"] before in
  let live :=
    master_batch.run default_listing w (master_run.mk_config false None [])
      input ["a.jpg"; "b.jpg"] before in
  (sort_media_by_date.main default_listing w sort_media_by_date.DRY_RUN
     true false root).1
  = {[ "20240201" := Dir {[ "a.jpg" := IFile f ]} ]}
  ∧ master_batch.temp_dir dry.1.1 = Some ∅
  ∧ master_run.final_path <$> dry.1.2
    = [ Some ("20240201", "20240201_1000_construction.jpg");
        Some ("20240201", "20240201_1000_construction.jpg") ]
  ∧ master_run.final_path <$> live.1.2
    = [ Some ("20240201", "20240201_1000_construction.jpg");
        Some ("20240201", "20240201_1000_construction_1.jpg") ].
Proof. vm_compute. repeat split; reflexivity. Qed.

(** ** Uniqueness of destinations *)

Section phase2_uniqueness.
Import sort_media_by_date.
Implicit Types t : gmap string entry.

Lemma relocated_folders t1 t2 path f1 date dst d :
  t1 !! path = Some (File f1) → mkdir_exist_ok t1 date = Some t2 →
  folder (<[date := Dir (<[dst := IFile f1]> (folder t1 date))]> (delete path t2)) d
  = if decide (d = date) then <[dst := IFile f1]> (folder t1 date)
    else folder t1 d.
Proof.
  intros Hpath Hmk. destruct (mkdir_effect _ _ _ Hmk) as (Hdate & Hother & Hfold).
  assert (path ≠ date) as Hne.
  { intros ->. unfold mkdir_exist_ok in Hmk. rewrite Hpath in Hmk. discriminate. }
  destruct (decide (d = date)) as [->|Hd].
  - unfold folder at 1. rewrite lookup_insert_eq. reflexivity.
  - unfold folder at 1. rewrite lookup_insert_ne by congruence.
    fold (folder (delete path t2) d).
    rewrite (folder_delete_file t2 path f1), Hfold; [reflexivity|].
    rewrite Hother by congruence. exact Hpath.
Qed.

(** [process_file] never frees a name of a folder, and a record with a
    destination names a place that was free; in a live run the place is
    taken afterwards. *)
Lemma process_file_folders w DR t name :
  let r := process_file w DR t name in
  (∀ d n, holds t d n → holds r.1 d n)
  ∧ (∀ rec, r.2 = Some rec →
       new_path rec = []
       ∨ ∃ d n, new_path rec = [d; n] ∧ folder t d !! n = None
                ∧ (DR = false → holds r.1 d n)).
Proof.
  cbv zeta. rewrite process_file_stages.
  destruct (read_file t (None, name)) as [f|] eqn:Hread;
    [|split; [auto|intros rec Hrec; discriminate]].
  apply read_file_root in Hread.
  destruct (st_size f =? 0)%N.
  { split; [auto|]. intros rec Hrec. injection Hrec as <-. left. reflexivity. }
  destruct (heic_stage_effect w DR t name f Hread) as [Hfold1 Hstage].
  set (t1 := (heic_stage w DR t name).1) in *.
  set (path := (heic_stage w DR t name).2) in *.
  assert (∃ f1, t1 !! path = Some (File f1)) as [f1 Hpath].
  { destruct Hstage as [(-> & Hname & _)|(j & _ & _ & Hfree & ->)].
    - eauto.
    - exists j. assert (path ≠ name) as Hne by congruence.
      destruct DR; [apply lookup_insert_eq|].
      rewrite lookup_delete_ne by congruence. apply lookup_insert_eq. }
  destruct (relocate_effect DR t1 name path f1 Hpath)
    as [[_ ->]|(t2 & rec & Hmk & Hnew & _ & Hdst & ->)]; cbn [fst snd].
  { split; [|intros rec Hrec; discriminate].
    intros d n. unfold holds. rewrite Hfold1. auto. }
  set (date := strftime_Ymd (resolved path f1).1) in *.
  set (dst := resolve_collision (folder t1 date) path) in *.
  assert (∀ d n, holds t d n →
            holds (if DR then t2
                   else <[date := Dir (<[dst := IFile f1]> (folder t1 date))]>
                          (delete path t2)) d n) as Hmono.
  { intros d n. unfold holds. destruct DR.
    - destruct (mkdir_effect _ _ _ Hmk) as (_ & _ & Hfold2).
      rewrite Hfold2, Hfold1. auto.
    - rewrite (relocated_folders t1 t2 path f1 date dst d Hpath Hmk).
      destruct (decide (d = date)) as [->|Hd]; intros H.
      + rewrite <- Hfold1 in H. apply lookup_insert_is_Some'. right. exact H.
      + rewrite Hfold1. exact H. }
  split; [exact Hmono|].
  intros rec' Hrec. injection Hrec as <-. right. exists date, dst.
  split; [exact Hnew|]. split; [rewrite <- Hfold1; exact Hdst|].
  intros ->. unfold holds.
  rewrite (relocated_folders t1 t2 path f1 date dst date Hpath Hmk).
  rewrite decide_True by reflexivity. rewrite lookup_insert_eq. eauto.
Qed.

(** The invariant of the Phase 2 loop: every destination written so far is
    taken in the current tree, and no two records share one. *)
Lemma phase2_fold w (files : list string) :
  ∀ t logs,
    Forall (λ r, new_path r = []
                 ∨ ∃ d n, new_path r = [d; n] ∧ holds t d n) logs →
    NoDup (filter (λ p, p ≠ []) (new_path <$> logs)) →
    let r := fold_left (process_step w false) files (t, logs) in
    Forall (λ r', new_path r' = []
                  ∨ ∃ d n, new_path r' = [d; n] ∧ holds r.1 d n) r.2
    ∧ NoDup (filter (λ p, p ≠ []) (new_path <$> r.2)).
Proof.
  induction files as [|p files IH]; intros t logs Hinv Hnd; cbn [fold_left].
  { split; assumption. }
  destruct (process_step w false (t, logs) p) as [t' logs'] eqn:Hstep.
  unfold process_step in Hstep. cbn [fst snd] in Hstep.
  destruct (process_file_folders w false t p) as [Hmono Hrec].
  assert (Forall (λ r, new_path r = []
                       ∨ ∃ d n, new_path r = [d; n]
                                ∧ holds (process_file w false t p).1 d n) logs)
    as Hinv'.
  { eapply Forall_impl; [exact Hinv|]. intros r [Hr|(d & n & Hr & Hh)];
      [left; exact Hr|right; exists d, n; auto]. }
  destruct (process_file w false t p) as [t'' [rec|]]; cbn [fst snd] in *;
    injection Hstep as <- <-; apply IH.
  - apply Forall_app. split; [exact Hinv'|]. apply Forall_singleton.
    destruct (Hrec rec eq_refl) as [Hr|(d & n & Hr & _ & Hh)];
      [left; exact Hr|right; exists d, n; auto].
  - rewrite fmap_app, filter_app.
    destruct (Hrec rec eq_refl) as [Hr|(d & n & Hr & Hfree & _)];
      cbn [fmap list_fmap]; rewrite Hr.
    + rewrite filter_cons_False by (intros H; apply H; reflexivity).
      rewrite filter_nil, app_nil_r. exact Hnd.
    + rewrite filter_cons_True by discriminate. rewrite filter_nil.
      apply NoDup_app. split; [exact Hnd|]. split; [|apply NoDup_singleton].
      intros q Hq Hq'. apply list_elem_of_singleton in Hq'. subst q.
      apply list_elem_of_filter in Hq as [_ Hq].
      apply list_elem_of_fmap in Hq as (r0 & Heq & Hr0).
      rewrite Forall_forall in Hinv.
      destruct (Hinv r0 Hr0) as [H0|(d0 & n0 & H0 & Hh)]; [congruence|].
      assert (d0 = d ∧ n0 = n) as [-> ->] by (split; congruence).
      unfold holds in Hh. rewrite Hfree in Hh. destruct Hh. discriminate.
  - apply Forall_app. split; [exact Hinv'|]. apply Forall_singleton.
    left. reflexivity.
  - rewrite fmap_app, filter_app. cbn [fmap list_fmap new_path].
    rewrite filter_cons_False by (intros H; apply H; reflexivity).
    rewrite filter_nil, app_nil_r. exact Hnd.
Qed.
End phase2_uniqueness.

Section master_uniqueness.
Import master_run.
Implicit Types temp : gmap string entry.

Lemma write_folder_effect temp d n f temp' :
  write_file temp (Some d, n) f = Some temp' →
  ∀ d', folder temp' d' =
        if decide (d' = d) then <[n := IFile f]> (folder temp d)
        else folder temp d'.
Proof.
  simpl. intros H d'. unfold folder.
  destruct (temp !! d) as [[g|its]|] eqn:Hd; try discriminate.
  assert (temp' = <[d := Dir (<[n := IFile f]> its)]> temp) as ->
    by (destruct (its !! n) as [[g|]|]; congruence).
  destruct (decide (d' = d)) as [->|Hne].
  - rewrite lookup_insert_eq. reflexivity.
  - rewrite lookup_insert_ne by congruence. reflexivity.
Qed.

Lemma write_folder_holds temp d n f temp' :
  write_file temp (Some d, n) f = Some temp' →
  (∀ d' n', holds temp d' n' → holds temp' d' n') ∧ holds temp' d n.
Proof.
  intros H. pose proof (write_folder_effect _ _ _ _ _ H) as Hf.
  unfold holds. split.
  - intros d' n' Hh. rewrite Hf. destruct (decide (d' = d)) as [->|]; [|exact Hh].
    apply lookup_insert_is_Some'. right. exact Hh.
  - rewrite Hf, decide_True by reflexivity. rewrite lookup_insert_eq. eauto.
Qed.

Lemma free_final_name_free temp date new_filename base_name ext :
  folder temp date !! free_final_name temp date new_filename base_name ext
  = None.
Proof.
  unfold free_final_name.
  apply (first_free_spec (folder temp date) new_filename
           (candidate base_name ("." +:+ ext))
           (Inj0 := candidate_inj _ _)).
Qed.

Lemma master_convert_heic_folders w cfg input temp name d :
  folder (convert_heic_to_jpg w cfg input temp name).1 d = folder temp d.
Proof.
  unfold convert_heic_to_jpg.
  set (jpg := first_free temp _ _).
  assert (temp !! jpg = None) as Hfree.
  { apply (first_free_spec temp _ (candidate (stem name) ".jpg")
             (Inj0 := candidate_inj _ _)). }
  assert (∀ x, write_file temp (None, jpg) x = Some (<[jpg := File x]> temp)) as Hw
    by (intros x; simpl; rewrite Hfree; reflexivity).
  assert (∀ x, folder (<[jpg := File x]> temp) d = folder temp d) as Hfold.
  { intros x. apply folder_insert_file. intros its. congruence. }
  destruct (pillow_heif w); [|reflexivity]. cbn [negb].
  destruct (dry_run cfg); [reflexivity|].
  destruct (input !! name) as [f|]; [|reflexivity].
  destruct (heic_to_jpg w f) as [j|[part|]]; rewrite ?Hw; cbn [fst from_option id];
    first [apply Hfold|reflexivity].
Qed.

Lemma convert_image_format_holds w cfg input temp src d n :
  let r := convert_image_format w cfg input temp src (d, n) in
  (∀ d' n', holds temp d' n' → holds r.1 d' n')
  ∧ (r.2 = true → dry_run cfg = false → holds r.1 d n).
Proof.
  cbv zeta. unfold convert_image_format. cbn [fst snd].
  destruct (dry_run cfg); [split; [auto|discriminate]|].
  destruct (mkdir_exist_ok temp d) as [temp1|] eqn:Hmk;
    [|split; [auto|discriminate]].
  destruct (mkdir_effect _ _ _ Hmk) as (_ & _ & Hfold).
  assert (∀ d' n', holds temp d' n' → holds temp1 d' n') as H1
    by (intros d' n'; unfold holds; rewrite Hfold; auto).
  destruct (read_current input temp1 src) as [f|];
    [|split; [exact H1|discriminate]].
  destruct (negb (in_set _ master.IMAGE_EXT)).
  - destruct (write_file temp1 (Some d, n) f) as [temp2|] eqn:Hw;
      [|split; [exact H1|discriminate]].
    destruct (write_folder_holds _ _ _ _ _ Hw) as [H2 H3].
    split; [auto|intros _ _; exact H3].
  - destruct (save_as w _ f) as [j|[part|]].
    + destruct (write_file temp1 (Some d, n) j) as [temp2|] eqn:Hw;
        [|split; [exact H1|discriminate]].
      destruct (write_folder_holds _ _ _ _ _ Hw) as [H2 H3].
      split; [auto|intros _ _; exact H3].
    + destruct (write_file temp1 (Some d, n) part) as [temp2|] eqn:Hw;
        cbn [fst snd from_option id]; [|split; [exact H1|discriminate]].
      destruct (write_folder_holds _ _ _ _ _ Hw) as [H2 H3].
      split; [auto|discriminate].
    + split; [exact H1|discriminate].
Qed.
End master_uniqueness.

Section master_uniqueness_loop.
Import master_run.
Implicit Types temp : gmap string entry.

(** [process_single_photo] never frees a name of a folder of the
    temporary tree; the destination of its result was free, and in a live
    run it is taken afterwards. *)
Lemma process_single_photo_folders w cfg input temp photo :
  let r := process_single_photo w cfg input temp photo in
  (∀ d n, holds temp d n → holds r.1 d n)
  ∧ (∀ d n, final_path r.2 = Some (d, n) →
       folder temp d !! n = None ∧ (dry_run cfg = false → holds r.1 d n)).
Proof.
  cbv zeta. unfold process_single_photo.
  set (E := if in_set (lower (suffix photo)) master.CONVERT_TO_JPG
            then if negb (dry_run cfg)
                 then match convert_heic_to_jpg w cfg input temp photo with
                      | (temp', Some converted_path) =>
                          (temp', Temp converted_path, true)
                      | (temp', None) => (temp', Orig photo, false)
                      end
                 else (temp, Orig photo, true)
            else (temp, Orig photo, false)).
  assert (∀ d, folder E.1.1 d = folder temp d) as Hfold1.
  { intros d. unfold E. destruct (in_set _ _); [|reflexivity].
    destruct (negb (dry_run cfg)); [|reflexivity].
    pose proof (master_convert_heic_folders w cfg input temp photo d) as H.
    destruct (convert_heic_to_jpg w cfg input temp photo) as [t' [c|]];
      exact H. }
  destruct E as [[temp1 cur] c1]. cbn [fst snd] in Hfold1.
  assert (∀ d n, holds temp d n → holds temp1 d n) as H1
    by (intros d n; unfold holds; rewrite Hfold1; auto).
  destruct (read_current input temp1 cur) as [f|];
    [|split; [exact H1|discriminate]].
  destruct (rsplit_dot _) as [[base_name ext]|];
    [|split; [exact H1|discriminate]].
  set (ts := get_file_timestamp (current_name cur) f).
  set (date := strftime_Ymd ts).
  set (nf := master.generate_descriptive_filename _ _ _ _).
  pose proof (free_final_name_free temp1 date nf base_name ext) as Hfree.
  set (final := free_final_name temp1 date nf base_name ext) in *.
  rewrite Hfold1 in Hfree.
  destruct (dry_run cfg) eqn:Hdry; cbn [negb].
  { cbn [fst snd final_path]. split; [exact H1|].
    intros d n Heq. injection Heq as <- <-. split; [exact Hfree|discriminate]. }
  destruct (mkdir_exist_ok temp1 date) as [temp2|] eqn:Hmk;
    [|split; [exact H1|discriminate]].
  destruct (mkdir_effect _ _ _ Hmk) as (_ & _ & Hfold2).
  assert (∀ d n, holds temp d n → holds temp2 d n) as H2
    by (intros d n Hh; unfold holds; rewrite Hfold2; apply H1, Hh).
  destruct (_ && _).
  - pose proof (convert_image_format_holds w cfg input temp2 cur date final)
      as [Hc1 Hc2].
    destruct (convert_image_format w cfg input temp2 cur (date, final))
      as [temp3 [|]]; cbn [fst snd final_path] in *.
    + split; [auto|]. intros d n Heq. injection Heq as <- <-.
      split; [exact Hfree|]. intros _. apply Hc2; [reflexivity|exact Hdry].
    + split; [auto|discriminate].
  - destruct (write_file temp2 (Some date, final) f) as [temp3|] eqn:Hw;
      cbn [fst snd final_path]; [|split; [exact H2|discriminate]].
    destruct (write_folder_holds _ _ _ _ _ Hw) as [H3 H4].
    split; [auto|]. intros d n Heq. injection Heq as <- <-.
    split; [exact Hfree|]. intros _. exact H4.
Qed.

(** The invariant of the loop of [run]: every destination of a result is
    taken in the temporary tree, and no two results share one. *)
Lemma master_fold w cfg input (media_files : list string) :
  dry_run cfg = false →
  ∀ temp results,
    Forall (λ r, ∀ d n, final_path r = Some (d, n) → holds temp d n) results →
    NoDup (omap final_path results) →
    let r := fold_left (process_step w cfg input) media_files (temp, results) in
    Forall (λ r', ∀ d n, final_path r' = Some (d, n) → holds r.1 d n) r.2
    ∧ NoDup (omap final_path r.2).
Proof.
  intros Hlive.
  induction media_files as [|p files IH]; intros temp results Hinv Hnd;
    cbn [fold_left].
  { split; assumption. }
  destruct (process_step w cfg input (temp, results) p) as [temp' results']
    eqn:Hstep.
  unfold process_step in Hstep. cbn [fst snd] in Hstep.
  destruct (process_single_photo_folders w cfg input temp p) as [Hmono Hres].
  destruct (process_single_photo w cfg input temp p) as [temp'' res];
    cbn [fst snd] in *.
  injection Hstep as <- <-. apply IH.
  - apply Forall_app. split.
    + eapply Forall_impl; [exact Hinv|]. intros r Hr d n Hd. apply Hmono, Hr, Hd.
    + apply Forall_singleton. intros d n Hd. apply (Hres d n Hd), Hlive.
  - rewrite omap_app. apply NoDup_app. split; [exact Hnd|].
    split; [|simpl; destruct (final_path res); [apply NoDup_singleton|constructor]].
    intros [d n] Hin Hin'. simpl in Hin'.
    destruct (final_path res) as [[d' n']|] eqn:Hfp; [|inversion Hin'].
    apply list_elem_of_singleton in Hin'. injection Hin' as <- <-.
    apply list_elem_of_omap in Hin as (r0 & Hr0 & Hfp0).
    rewrite Forall_forall in Hinv. specialize (Hinv r0 Hr0 d n Hfp0).
    destruct (Hres d n eq_refl) as [Hfree _].
    unfold holds in Hinv. rewrite Hfree in Hinv. destruct Hinv. discriminate.
Qed.
End master_uniqueness_loop.

(** Paths recorded by Phase 1, and dry runs of the master loop. *)

Lemma NoDup_filter_weaken {A} (P Q : A → Prop)
    `{!∀ x, Decision (P x)} `{!∀ x, Decision (Q x)} (l : list A) :
  (∀ x, P x → Q x) → NoDup (filter Q l) → NoDup (filter P l).
Proof.
  intros HPQ. induction l as [|x l IH]; [intros _; constructor|].
  destruct (decide (P x)) as [HP|HP].
  - rewrite (filter_cons_True P) by exact HP.
    rewrite (filter_cons_True Q) by (apply HPQ, HP).
    intros Hnd. apply NoDup_cons in Hnd as [Hx Hnd].
    apply NoDup_cons. split; [|apply IH, Hnd].
    intros Hin. apply Hx. apply list_elem_of_filter in Hin as [_ Hin].
    apply list_elem_of_filter. split; [apply HPQ, HP|exact Hin].
  - rewrite (filter_cons_False P) by exact HP.
    destruct (decide (Q x)) as [HQ|HQ].
    + rewrite (filter_cons_True Q) by exact HQ.
      intros Hnd. apply NoDup_cons in Hnd as [_ Hnd]. apply IH, Hnd.
    + rewrite (filter_cons_False Q) by exact HQ. exact IH.
Qed.

Section phase1_paths.
Import sort_media_by_date.
Context (ls : listing) (dry_run : bool).

Lemma consolidate_file_paths d l : ∀ st,
  Forall short_path st.2 →
  Forall short_path (fold_left (consolidate_file dry_run d) l st).2.
Proof.
  induction l as [|n l IH]; intros [t logs] H; [exact H|].
  cbn [fold_left]. apply IH. unfold consolidate_file.
  repeat case_match; cbn [snd] in *; try exact H;
    apply Forall_app; (split; [exact H|]); repeat constructor.
Qed.

Lemma consolidate_folder_paths l : ∀ st,
  Forall short_path st.2 →
  Forall short_path (fold_left (consolidate_folder ls dry_run) l st).2.
Proof.
  induction l as [|d l IH]; intros [t logs] H; [exact H|].
  cbn [fold_left]. apply IH. unfold consolidate_folder.
  pose proof (consolidate_file_paths d (ls _ (folder t d)) (t, logs) H) as H1.
  repeat case_match; cbn [snd] in *; try exact H; try exact H1;
    apply Forall_app; (split; [exact H1|]); repeat constructor.
Qed.

Lemma consolidate_paths root :
  Forall short_path (consolidate_from_invalid_folders ls root dry_run).2.
Proof. apply consolidate_folder_paths. constructor. Qed.

Lemma short_paths_filter (logs : list LogRecord) :
  Forall short_path logs →
  filter (λ p, length p = 2%nat) (new_path <$> logs) = [].
Proof.
  induction 1 as [|r logs Hr _ IH]; [reflexivity|].
  rewrite fmap_cons, filter_cons_False; [exact IH|].
  unfold short_path in Hr. lia.
Qed.
End phase1_paths.

Section master_dry.
Import master_run.

Lemma process_single_photo_dry w cfg input temp photo :
  dry_run cfg = true →
  (process_single_photo w cfg input temp photo).1 = temp.
Proof.
  intros Hdry. unfold process_single_photo. rewrite Hdry. cbn [negb].
  destruct (in_set (lower (suffix photo)) master.CONVERT_TO_JPG);
    repeat case_match; reflexivity.
Qed.

Lemma master_dry_fold w cfg input (media_files : list string) :
  dry_run cfg = true →
  ∀ temp results,
    (fold_left (process_step w cfg input) media_files (temp, results)).1 = temp.
Proof.
  intros Hdry. induction media_files as [|p files IH]; intros temp results;
    [reflexivity|].
  cbn [fold_left]. unfold process_step at 2. cbn [fst snd].
  pose proof (process_single_photo_dry w cfg input temp p Hdry) as Hp.
  destruct (process_single_photo w cfg input temp p) as [temp' r].
  cbn [fst] in Hp. subst temp'. apply IH.
Qed.
End master_dry.

(** The copy of the date folders into the output directory. *)

Section master_copy.
Import master_batch.
Context (ls : listing) (temp : gmap string entry).

Lemma merge_file_aborted d l out :
  fold_left (merge_file temp d) l (out, true) = (out, true).
Proof. induction l as [|n l IH]; [reflexivity|exact IH]. Qed.

Lemma merge_file_effect d out n out' ab :
  merge_file temp d (out, false) n = (out', ab) →
  (is_file temp (Some d, n) = false ∧ out' = out ∧ ab = false)
  ∨ (is_file temp (Some d, n) = true ∧ out' = out ∧ ab = true)
  ∨ (∃ f its dest,
       read_file temp (Some d, n) = Some f ∧ out !! d = Some (Dir its)
       ∧ its !! dest = None
       ∧ out' = <[d := Dir (<[dest := IFile f]> its)]> out ∧ ab = false).
Proof.
  unfold merge_file.
  destruct (is_file temp (Some d, n)) eqn:Hfile; cbn [negb];
    [|intros [= <- <-]; left; auto].
  intros H. right.
  assert (∃ f, read_file temp (Some d, n) = Some f) as [f Hf].
  { simpl in Hfile |- *. destruct (temp !! d) as [[g|its]|]; try discriminate.
    destruct (its !! n) as [[g|]|]; try discriminate. eauto. }
  rewrite Hf in H.
  set (dest := if exists_at out (Some d, n) then _ else _) in H.
  destruct dest as [dn|] eqn:Hdest; [|injection H as <- <-; left; auto].
  destruct (write_file out (Some d, dn) f) as [o|] eqn:Hw;
    [|injection H as <- <-; left; auto].
  injection H as <- <-. right. simpl in Hw.
  destruct (out !! d) as [[g|its]|] eqn:Hd; try discriminate.
  assert (its !! dn = None) as Hfree.
  { subst dest. simpl in Hdest. rewrite Hd in Hdest.
    unfold folder in Hdest. rewrite Hd in Hdest.
    destruct (exists_in its n) eqn:He.
    - destruct (rsplit_dot n) as [[name_part ext]|]; [|discriminate].
      injection Hdest as <-.
      apply (first_free_spec its n (candidate name_part ("." +:+ ext))
               (Inj0 := candidate_inj _ _)).
    - injection Hdest as <-. apply exists_in_false, He. }
  rewrite Hfree in Hw. injection Hw as <-.
  exists f, its, dn. auto.
Qed.

Lemma merge_fold d l : ∀ out out' ab,
  fold_left (merge_file temp d) l (out, false) = (out', ab) →
  (∀ d', d' ≠ d → out' !! d' = out !! d')
  ∧ (∀ e, out !! d = Some e →
       ∃ e', out' !! d = Some e'
             ∧ (∀ g, e = File g → e' = e)
             ∧ ∀ its, e = Dir its →
                 ∃ its', e' = Dir its' ∧ its ⊆ its'
                   ∧ (ab = false →
                      size its' = (size its
                        + length (filter (λ n, is_file temp (Some d, n) = true) l))%nat))
  ∧ (out !! d = None → out' !! d = None).
Proof.
  induction l as [|n l IH]; intros out out' ab; cbn [fold_left].
  - intros [= <- <-]. split; [auto|]. split; [|auto].
    intros e He. exists e. split; [exact He|]. split; [auto|].
    intros its ->. exists its. split; [reflexivity|]. split; [reflexivity|].
    intros _. simpl. lia.
  - destruct (merge_file temp d (out, false) n) as [o1 a1] eqn:Hstep.
    apply merge_file_effect in Hstep
      as [(Hfile & -> & ->)|[(Hfile & -> & ->)|(f & its0 & dn & Hf & Hd & Hfree & -> & ->)]].
    + intros H. rewrite filter_cons_False by congruence. apply (IH _ _ _ H).
    + rewrite merge_file_aborted. intros [= <- <-]. split; [auto|]. split; [|auto].
      intros e He. exists e. split; [exact He|]. split; [auto|].
      intros its ->. exists its. split; [reflexivity|]. split; [reflexivity|].
      discriminate.
    + intros H. destruct (IH _ _ _ H) as (I1 & I2 & I3).
      assert (is_file temp (Some d, n) = true) as Hfile.
      { simpl in Hf |- *. destruct (temp !! d) as [[g|its]|]; try discriminate.
        destruct (its !! n) as [[g|]|]; try discriminate. reflexivity. }
      rewrite filter_cons_True by exact Hfile.
      split; [|split].
      * intros d' Hne. rewrite (I1 d' Hne). apply lookup_insert_ne. congruence.
      * intros e He. rewrite Hd in He. injection He as <-.
        destruct (I2 (Dir (<[dn := IFile f]> its0)) (lookup_insert_eq _ _ _))
          as (e' & He' & _ & Hdir).
        destruct (Hdir _ eq_refl) as (its' & -> & Hsub & Hsize).
        exists (Dir its'). split; [exact He'|]. split; [discriminate|].
        intros its [= <-]. exists its'. split; [reflexivity|]. split.
        -- etransitivity; [|exact Hsub]. apply insert_subseteq, Hfree.
        -- intros Hab. rewrite (Hsize Hab), map_size_insert_None by exact Hfree.
           simpl. lia.
      * rewrite Hd. discriminate.
Qed.

Lemma copy_folder_aborted l out :
  fold_left (copy_folder ls temp) l (out, true) = (out, true).
Proof. induction l as [|n l IH]; [reflexivity|exact IH]. Qed.

Lemma copy_fold l : NoDup l → ∀ out out' ab,
  fold_left (copy_folder ls temp) l (out, false) = (out', ab) →
  (∀ d, d ∉ l ∨ is_dir temp d = false → out' !! d = out !! d)
  ∧ (∀ d g, out !! d = Some (File g) → out' !! d = Some (File g))
  ∧ (∀ d its, out !! d = Some (Dir its) →
       ∃ its', out' !! d = Some (Dir its') ∧ its ⊆ its'
         ∧ (ab = false → d ∈ l → is_dir temp d = true →
            size its' = (size its + length (files_in ls temp d))%nat))
  ∧ (ab = false → ∀ d, d ∈ l → is_dir temp d = true → out !! d = None →
       out' !! d = Some (Dir (folder temp d))).
Proof.
  induction l as [|d0 l IH]; intros Hnd out out' ab; cbn [fold_left].
  - intros [= <- <-]. split; [auto|]. split; [auto|]. split.
    + intros d its Hd. exists its. split; [exact Hd|]. split; [reflexivity|].
      intros _ Hin. inversion Hin.
    + intros _ d Hin. inversion Hin.
  - apply NoDup_cons in Hnd as [Hd0 Hnd].
    unfold copy_folder at 2.
    destruct (is_dir temp d0) eqn:Hdir; cbn [negb].
    2:{ intros H. destruct (IH Hnd _ _ _ H) as (I1 & I2 & I3 & I4).
        assert (∀ d, d ∈ d0 :: l → is_dir temp d = true → d ∈ l) as Hin.
        { intros d Hd Ht. apply elem_of_cons in Hd as [->|Hd]; [congruence|exact Hd]. }
        split; [|split; [exact I2|split]].
        - intros d [Hd|Hd]; apply I1; [left|right; exact Hd].
          intros Hl. apply Hd. right. exact Hl.
        - intros d its Hd. destruct (I3 d its Hd) as (its' & A & B & C).
          exists its'. split; [exact A|]. split; [exact B|].
          intros Hab Hl Ht. apply (C Hab (Hin d Hl Ht) Ht).
        - intros Hab d Hl Ht. apply (I4 Hab d (Hin d Hl Ht) Ht). }
    destruct (exists_in out d0) eqn:Hex.
    + destruct (fold_left (merge_file temp d0) _ (out, false)) as [o1 a1] eqn:Hm.
      destruct (merge_fold d0 _ _ _ _ Hm) as (M1 & M2 & M3).
      fold (files_in ls temp d0) in M2.
      apply exists_in_true in Hex as [e0 He0].
      destruct a1.
      * rewrite copy_folder_aborted. intros [= <- <-].
        split; [|split; [|split; [|discriminate]]].
        -- intros d Hd. apply M1. intros ->. destruct Hd as [Hd|Hd]; [|congruence].
           apply Hd. left.
        -- intros d g Hd. destruct (decide (d = d0)) as [->|Hne].
           ++ destruct (M2 _ Hd) as (e' & He' & Hfile & _).
              rewrite He', (Hfile g eq_refl). reflexivity.
           ++ rewrite (M1 d Hne). exact Hd.
        -- intros d its Hd. destruct (decide (d = d0)) as [->|Hne].
           ++ destruct (M2 _ Hd) as (e' & He' & _ & Hd').
              destruct (Hd' its eq_refl) as (its' & -> & Hsub & _).
              exists its'. split; [exact He'|]. split; [exact Hsub|discriminate].
           ++ exists its. rewrite (M1 d Hne). split; [exact Hd|].
              split; [reflexivity|discriminate].
      * intros H. destruct (IH Hnd _ _ _ H) as (I1 & I2 & I3 & I4).
        split; [|split; [|split]].
        -- intros d Hd.
           assert (d ≠ d0) as Hne.
           { intros ->. destruct Hd as [Hd|Hd]; [|congruence]. apply Hd. left. }
           rewrite <- (M1 d Hne). apply I1. destruct Hd as [Hd|Hd]; [left|right; exact Hd].
           intros Hl. apply Hd. right. exact Hl.
        -- intros d g Hd. apply I2. destruct (decide (d = d0)) as [->|Hne].
           ++ destruct (M2 _ Hd) as (e' & He' & Hfile & _).
              rewrite He', (Hfile g eq_refl). reflexivity.
           ++ rewrite (M1 d Hne). exact Hd.
        -- intros d its Hd. destruct (decide (d = d0)) as [->|Hne].
           ++ destruct (M2 _ Hd) as (e' & He' & _ & Hd').
              destruct (Hd' its eq_refl) as (its1 & -> & Hsub & Hsize).
              exists its1. split; [rewrite (I1 d0 (or_introl Hd0)); exact He'|].
              split; [exact Hsub|]. intros _ _ _. apply Hsize. reflexivity.
           ++ destruct (I3 d its) as (its' & A & B & C);
                [rewrite (M1 d Hne); exact Hd|].
              exists its'. split; [exact A|]. split; [exact B|].
              intros Hab Hl Ht. apply (C Hab); [|exact Ht].
              apply elem_of_cons in Hl as [->|Hl]; [congruence|exact Hl].
        -- intros Hab d Hl Ht Hnone.
           assert (d ≠ d0) as Hne by (intros ->; congruence).
           apply (I4 Hab); [|exact Ht|rewrite (M1 d Hne); exact Hnone].
           apply elem_of_cons in Hl as [->|Hl]; [congruence|exact Hl].
    + apply exists_in_false in Hex.
      intros H. destruct (IH Hnd _ _ _ H) as (I1 & I2 & I3 & I4).
      split; [|split; [|split]].
      * intros d Hd.
        assert (d ≠ d0) as Hne.
        { intros ->. destruct Hd as [Hd|Hd]; [|congruence]. apply Hd. left. }
        rewrite <- (lookup_insert_ne out d0 d (Dir (folder temp d0))) by congruence.
        apply I1. destruct Hd as [Hd|Hd]; [left|right; exact Hd].
        intros Hl. apply Hd. right. exact Hl.
      * intros d g Hd. apply I2. rewrite lookup_insert_ne by congruence. exact Hd.
      * intros d its Hd.
        assert (d ≠ d0) as Hne by congruence.
        destruct (I3 d its) as (its' & A & B & C);
          [rewrite lookup_insert_ne by congruence; exact Hd|].
        exists its'. split; [exact A|]. split; [exact B|].
        intros Hab Hl Ht. apply (C Hab); [|exact Ht].
        apply elem_of_cons in Hl as [->|Hl]; [congruence|exact Hl].
      * intros Hab d Hl Ht Hnone. destruct (decide (d = d0)) as [->|Hne].
        -- rewrite (I1 d0 (or_introl Hd0)). apply lookup_insert_eq.
        -- apply (I4 Hab); [|exact Ht|rewrite lookup_insert_ne by congruence; exact Hnone].
           apply elem_of_cons in Hl as [->|Hl]; [congruence|exact Hl].
Qed.
End master_copy.

(** C8: no two files receive the same destination.  For the sorting script,
    whatever the two command-line flags are: the (folder, name) pairs recorded
    by Phase 2 of [main] are pairwise distinct and each is taken in the final
    tree; when the run is live, the destinations of Phase 1 and Phase 2
    together are pairwise distinct.  For the master pipeline in a live run:
    the destinations of the results are pairwise distinct and each is taken
    in the temporary tree; in a dry run the loop places nothing.  Each
    destination was free when it was probed and nothing placed is ever
    removed.  The copy into the output directory keeps every entry that was
    there and, unless an exception ends it, adds one entry per regular file of
    the date folder: a folder that did not exist is the copy of the temporary
    one, an existing folder grows by exactly the number of files merged into
    it. *)
Theorem C8_destinations_pairwise_distinct (ls : listing) (w : collaborators) :
  listing_ok ls →
  (∀ (root : gmap string entry) (args_dry_run args_no_dry_run : bool),
     let r := sort_media_by_date.main ls w sort_media_by_date.DRY_RUN
                args_dry_run args_no_dry_run root in
     NoDup (filter (λ p, length p = 2%nat) (sort_media_by_date.new_path <$> r.2))
     ∧ (∀ rec d n, rec ∈ r.2 → sort_media_by_date.new_path rec = [d; n] →
                   holds r.1 d n)
     ∧ ((if args_no_dry_run then false else args_dry_run) = false →
        NoDup (filter (λ p, p ≠ []) (sort_media_by_date.new_path <$> r.2))))
  ∧ (∀ cfg (input : gmap string file) (media_files : list string),
       master_run.dry_run cfg = false →
       let r := fold_left (master_run.process_step w cfg input) media_files
                  (∅, []) in
       NoDup (omap master_run.final_path r.2)
       ∧ ∀ res d n, res ∈ r.2 → master_run.final_path res = Some (d, n) →
                    holds r.1 d n)
  ∧ (∀ (temp out : gmap string entry),
       let st := fold_left (master_batch.copy_folder ls temp) (ls _ temp)
                   (out, false) in
       (∀ d g, out !! d = Some (File g) → st.1 !! d = Some (File g))
       ∧ (∀ d its, out !! d = Some (Dir its) →
            ∃ its', st.1 !! d = Some (Dir its') ∧ its ⊆ its'
              ∧ (st.2 = false → is_dir temp d = true →
                 size its' = (size its + length (files_in ls temp d))%nat))
       ∧ (st.2 = false → ∀ d, is_dir temp d = true → out !! d = None →
            st.1 !! d = Some (Dir (folder temp d))))
  ∧ (∀ cfg (input : gmap string file) (media_files : list string),
       master_run.dry_run cfg = true →
       (fold_left (master_run.process_step w cfg input) media_files (∅, [])).1
       = ∅).
Proof.
  intros Hls. split; [|split; [|split]].
  4:{ intros cfg input files Hdry. apply master_dry_fold, Hdry. }
  3:{ intros temp out st.
      destruct st as [out' ab] eqn:Hst. subst st.
      destruct (copy_fold ls temp (ls _ temp) (listing_NoDup ls Hls temp)
                  out out' ab Hst) as (_ & C2 & C3 & C4).
      assert (∀ d, is_dir temp d = true → d ∈ ls _ temp) as Hin.
      { intros d Hd. apply (listing_elem ls Hls). unfold is_dir in Hd.
        destruct (temp !! d); [eauto|discriminate]. }
      cbn [fst snd]. split; [exact C2|]. split.
      - intros d its Hd. destruct (C3 d its Hd) as (its' & A & B & C).
        exists its'. split; [exact A|]. split; [exact B|].
        intros Hab Ht. apply (C Hab (Hin d Ht) Ht).
      - intros Hab d Ht. apply (C4 Hab d (Hin d Ht) Ht). }
  - intros root a b. unfold sort_media_by_date.main, sort_media_by_date.DRY_RUN.
    set (dry := if b then false else if a then true else false).
    pose proof (consolidate_paths ls dry root) as Hshort.
    destruct (sort_media_by_date.consolidate_from_invalid_folders ls root dry)
      as [t1 clogs] eqn:Hc. cbn [snd] in Hshort.
    pose proof (phase2_fold w (sort_media_by_date.iter_media_files ls t1) t1 []
                  (Forall_nil_2 _) (NoDup_nil_2)) as [Hinv Hnd2].
    destruct (fold_left _ _ (t1, [])) as [t2 plogs]. cbn [fst snd] in *.
    split; [|split].
    + rewrite fmap_app, filter_app, (short_paths_filter clogs Hshort).
      cbn [app]. revert Hnd2. apply NoDup_filter_weaken.
      intros p Hp ->. discriminate.
    + intros rec d n Hrec Hp. apply elem_of_app in Hrec as [Hrec|Hrec].
      * rewrite Forall_forall in Hshort. specialize (Hshort rec Hrec).
        unfold short_path in Hshort. rewrite Hp in Hshort. simpl in Hshort. lia.
      * rewrite Forall_forall in Hinv.
        destruct (Hinv rec Hrec) as [H2|(d' & n' & H2 & Hh)]; [congruence|].
        assert (d' = d ∧ n' = n) as [-> ->] by (split; congruence). exact Hh.
    + intros Hlive.
      assert (dry = false) as Hdry by (subst dry; destruct a, b; auto).
      rewrite Hdry in Hc.
      unfold sort_media_by_date.consolidate_from_invalid_folders in Hc.
      destruct (consolidate_fold ls Hls (ls _ root) root []
                  (listing_NoDup ls Hls root))
        as (t1' & clogs' & Hfold & _ & _ & _ & _ & _ & Hplaced & Hnd1).
      rewrite Hfold in Hc. cbn [app] in Hc. injection Hc as -> ->.
      rewrite fmap_app, filter_app. apply NoDup_app.
      split; [exact Hnd1|]. split; [|exact Hnd2].
      intros p Hp Hp'.
      apply list_elem_of_filter in Hp as [Hne Hp].
      apply list_elem_of_filter in Hp' as [_ Hp'].
      apply list_elem_of_fmap in Hp as (r1 & -> & Hr1).
      apply list_elem_of_fmap in Hp' as (r2 & Heq & Hr2).
      rewrite Forall_forall in Hplaced, Hinv.
      destruct (Hplaced r1 Hr1 Hne) as (dst & f & Hp1 & _).
      destruct (Hinv r2 Hr2) as [H2|(d & n & H2 & _)]; congruence.
  - intros cfg input files Hlive.
    pose proof (master_fold w cfg input files Hlive ∅ []
                  (Forall_nil_2 _) (NoDup_nil_2)) as [Hinv Hnd].
    split; [exact Hnd|]. intros res d n Hres Hfp.
    rewrite Forall_forall in Hinv. apply (Hinv res Hres d n Hfp).
Qed.

Lemma C8_destinations_pairwise_distinct_witness :
  let w := mk_collaborators true (λ f, Saved f) (λ _ f, Saved f) false
             (λ _, None) (λ _ _, None) in
  let f := mk_file 10 1 None None (mk_datetime 2024 2 1 10 0 0) in
  let g := mk_file 12 2 None None (mk_datetime 2024 2 1 10 0 30) in
  let input : gmap string file := {[ "a.jpg" := f; "b.jpg" := g ]} in
  let cfg := master_run.mk_config false None [] in
  let r := fold_left (master_run.process_step w cfg input) ["a.jpg"; "b.jpg"]
             (∅, []) in
  listing_ok default_listing
  ∧ master_run.dry_run cfg = false
  ∧ NoDup (omap master_run.final_path r.2)
  ∧ omap master_run.final_path r.2
    = [ ("20240201", "20240201_1000_construction.jpg");
        ("20240201", "20240201_1000_construction_1.jpg") ].
Proof.
  intros w f g input cfg r.
  split; [exact default_listing_ok|]. split; [reflexivity|]. split.
  - apply (proj1 (proj2 (C8_destinations_pairwise_distinct default_listing w
                           default_listing_ok)) cfg input ["a.jpg"; "b.jpg"] eq_refl).
  - vm_compute. reflexivity.
Defined.

(** ** Running the sorting script a second time *)

Section rerun.
Import sort_media_by_date.
Context (ls : listing) (Hls : listing_ok ls).
Context (w : collaborators) (Hw : no_partial_files w).
Implicit Types t : gmap string entry.

(** What a live [process_file] that returns a record does to the root. *)
Lemma process_file_root t name t' rec :
  process_file w false t name = (t', Some rec) →
  (rec = skip_record name ∧ t' = t
   ∧ ∃ f, t !! name = Some (File f) ∧ st_size f = 0%N)
  ∨ (∃ d n, new_path rec = [d; n]
       ∧ (∀ k f, t' !! k = Some (File f) → t !! k = Some (File f) ∧ k ≠ name)
       ∧ (∀ k its, t' !! k = Some (Dir its) → k ≠ d →
                   t !! k = Some (Dir its))).
Proof.
  rewrite process_file_stages.
  destruct (read_file t (None, name)) as [f|] eqn:Hread; [|discriminate].
  apply read_file_root in Hread.
  destruct (st_size f =? 0)%N eqn:Hsize.
  { intros H. injection H as <- <-. left. apply N.eqb_eq in Hsize.
    split; [reflexivity|]. split; [reflexivity|]. exists f. auto. }
  destruct (heic_stage_effect w false t name f Hread) as [_ Hstage].
  set (t1 := (heic_stage w false t name).1) in *.
  set (path := (heic_stage w false t name).2) in *.
  intros Hrel. right.
  assert (∃ f1, t1 !! path = Some (File f1)
                ∧ (∀ k g, k ≠ path → t1 !! k = Some (File g) →
                          t !! k = Some (File g) ∧ k ≠ name)
                ∧ (∀ k its, t1 !! k = Some (Dir its) → t !! k = Some (Dir its)))
    as (f1 & Hpath & Hfiles & Hdirs).
  { destruct Hstage as [(Hp & Hname & [Ht1|(jpg & part & Hc & _)])
                       |(j & _ & _ & Hfree & Ht1)].
    - exists f. rewrite Hp, Ht1. split; [exact Hread|]. split; [|auto].
      intros k g Hk Hg. split; [exact Hg|congruence].
    - destruct (Hw f part Hc).
    - exists j. assert (path ≠ name) as Hne by congruence.
      rewrite Ht1. split; [|split].
      + rewrite lookup_delete_ne by congruence. apply lookup_insert_eq.
      + intros k g Hk Hg. apply lookup_delete_Some in Hg as [Hkn Hg].
        rewrite lookup_insert_ne in Hg by congruence. split; congruence.
      + intros k its Hk. apply lookup_delete_Some in Hk as [_ Hk].
        apply lookup_insert_Some in Hk as [[_ Hk]|[_ Hk]]; [discriminate|exact Hk]. }
  destruct (relocate_effect false t1 name path f1 Hpath)
    as [[_ Herr]|(t2 & rec0 & Hmk & Hnew & _ & _ & Hok)];
    rewrite Hrel in *; [discriminate|].
  injection Hok as -> <-.
  destruct (mkdir_effect _ _ _ Hmk) as (Hdate & Hother & _).
  set (date := strftime_Ymd (resolved path f1).1) in *.
  eexists date, _. split; [exact Hnew|]. split.
  - intros k g Hk. apply lookup_insert_Some in Hk as [[_ Hk]|[Hkd Hk]];
      [discriminate|].
    apply lookup_delete_Some in Hk as [Hkp Hk].
    rewrite Hother in Hk by congruence.
    apply Hfiles; [congruence|exact Hk].
  - intros k its Hk Hkd. rewrite lookup_insert_ne in Hk by congruence.
    apply lookup_delete_Some in Hk as [_ Hk].
    rewrite Hother in Hk by congruence. apply Hdirs, Hk.
Qed.
End rerun.

Section rerun_loops.
Import sort_media_by_date.
Context (ls : listing) (Hls : listing_ok ls).
Context (w : collaborators) (Hw : no_partial_files w).
Implicit Types t : gmap string entry.

Lemma process_fold_logs DR (files : list string) :
  ∀ t logs, ∃ new,
    (fold_left (process_step w DR) files (t, logs)).2 = logs ++ new.
Proof.
  induction files as [|p files IH]; intros t logs; cbn [fold_left].
  - exists []. rewrite app_nil_r. reflexivity.
  - destruct (process_step w DR (t, logs) p) as [t' logs'] eqn:Hstep.
    destruct (IH t' logs') as [new Hnew]. rewrite Hnew.
    unfold process_step in Hstep. cbn [fst snd] in Hstep.
    destruct (process_file w DR t p) as [t'' [rec|]]; injection Hstep as <- <-;
      eexists; rewrite <- app_assoc; reflexivity.
Qed.

(** Phase 2 of an error-free first run whose destination folders all have
    valid date names: the tree stays settled and nothing is left pending. *)
Lemma phase2_settles (files : list string) :
  ∀ t logs,
    let r := fold_left (process_step w false) files (t, logs) in
    (∀ rec, rec ∈ r.2 → method rec ≠ "ERROR") →
    (∀ rec d n, rec ∈ r.2 → new_path rec = [d; n] →
                is_valid_date_folder d = true) →
    settled t → (∀ k, pending t k → k ∈ files) →
    settled r.1 ∧ ∀ k, ¬ pending r.1 k.
Proof.
  induction files as [|p files IH]; intros t logs; cbv zeta; cbn [fold_left].
  { intros _ _ Hset Hpend. split; [exact Hset|].
    intros k Hk. apply Hpend in Hk. inversion Hk. }
  destruct (process_step w false (t, logs) p) as [t' logs'] eqn:Hstep.
  intros Hnoerr Hvalid Hset Hpend.
  destruct (process_fold_logs false files t' logs') as [new Hnew].
  unfold process_step in Hstep. cbn [fst snd] in Hstep.
  destruct (process_file w false t p) as [t'' [rec|]] eqn:Hproc;
    injection Hstep as -> <-.
  2:{ exfalso. apply (Hnoerr (mk_LogRecord [p] [] "ERROR" "exception"));
        [|reflexivity].
      rewrite Hnew. apply elem_of_app. left. apply elem_of_app. right. left. }
  assert (rec ∈ (fold_left (process_step w false) files (t', logs ++ [rec])).2)
    as Hrec.
  { rewrite Hnew. apply elem_of_app. left. apply elem_of_app. right. left. }
  apply IH; [exact Hnoerr|exact Hvalid| |].
  - destruct (process_file_root w Hw t p t' rec Hproc)
      as [(_ & -> & _)|(d & n & Hp & _ & Hdirs)]; [exact Hset|].
    intros d0 its Hd0 Hdr. apply (Hset d0 its); [|exact Hdr].
    apply Hdirs; [exact Hd0|]. intros ->.
    unfold drainable in Hdr. rewrite (Hvalid rec d n Hrec Hp) in Hdr.
    rewrite andb_false_r in Hdr. discriminate.
  - intros k Hk.
    destruct (process_file_root w Hw t p t' rec Hproc)
      as [(_ & -> & f & Hf & Hsize)|(d & n & _ & Hfiles & _)].
    + specialize (Hpend k Hk). apply elem_of_cons in Hpend as [->|Hin];
        [|exact Hin].
      destruct Hk as (g & Hg & _ & _ & Hnz). congruence.
    + destruct Hk as (g & Hg & Hh & Hm & Hnz).
      destruct (Hfiles k g Hg) as [Hg' Hne].
      assert (pending t k) as Hk' by (exists g; auto).
      specialize (Hpend k Hk'). apply elem_of_cons in Hpend as [->|Hin];
        [congruence|exact Hin].
Qed.

Lemma drain_noop t logs d its (names : list string) :
  t !! d = Some (Dir its) →
  (∀ n it, its !! n = Some it → eligible n it = false) →
  fold_left (consolidate_file false d) names (t, logs) = (t, logs).
Proof.
  intros Hd Hel. induction names as [|n names IH]; [reflexivity|].
  cbn [fold_left]. rewrite (consolidate_file_skips t logs d its n Hd); [exact IH|].
  intros it Hit. apply (Hel n it Hit).
Qed.

(** Phase 1 changes nothing in a settled tree. *)
Lemma consolidate_settled t :
  settled t → consolidate_from_invalid_folders ls t false = (t, []).
Proof.
  intros Hset. unfold consolidate_from_invalid_folders.
  generalize (ls _ t) ([] : list LogRecord). intros names.
  induction names as [|d names IH]; intros logs; [reflexivity|].
  cbn [fold_left].
  assert (consolidate_folder ls false (t, logs) d = (t, logs)) as ->;
    [|apply IH].
  destruct (t !! d) as [e|] eqn:Hd;
    [destruct (drainable d e) eqn:Hdr|];
    try (apply (consolidate_folder_skips ls); intros e' He'; congruence).
  destruct e as [?|its]; [discriminate|].
  destruct (Hset d its Hd Hdr) as [Hne Hel].
  unfold drainable in Hdr. apply andb_true_iff in Hdr as [Hh Hv].
  apply negb_true_iff in Hh, Hv.
  unfold consolidate_folder, is_dir, folder. rewrite Hd, Hh, Hv. cbn [negb orb].
  rewrite (drain_noop t logs d its _ Hd Hel). cbn [fst snd]. rewrite Hd.
  destruct (ls _ its) eqn:Hnil; [|reflexivity].
  apply (listing_nil ls Hls) in Hnil. contradiction.
Qed.

(** After a live Phase 1 the tree is settled. *)
Lemma consolidate_settles (root : gmap string entry) :
  settled (consolidate_from_invalid_folders ls root false).1.
Proof.
  unfold consolidate_from_invalid_folders.
  destruct (consolidate_fold ls Hls (ls _ root) root []
              (listing_NoDup ls Hls root))
    as (t1 & new & Hfold & O1 & O2 & O3 & _).
  rewrite Hfold. cbn [fst]. intros d its1 Hd1 Hdr.
  destruct (root !! d) as [e0|] eqn:Hd0.
  - destruct e0 as [f|its0].
    + rewrite (O1 d (File f) Hd0) in Hd1 by (right; reflexivity). discriminate.
    + assert (d ∈ ls _ root) as Hin by (apply (listing_elem ls Hls); eauto).
      destruct (O2 d its0 Hin Hd0 Hdr) as (A & B & _).
      destruct (decide (leftover its0 = ∅)) as [He|Hne].
      * destruct (B He) as [Hnd _]. unfold is_dir in Hnd.
        rewrite Hd1 in Hnd. discriminate.
      * rewrite (A Hne) in Hd1. injection Hd1 as <-. split; [exact Hne|].
        intros n it Hit. apply map_lookup_filter_Some in Hit as [_ Hit].
        exact Hit.
  - destruct (O3 d _ Hd1 Hd0) as [f Hf]. discriminate.
Qed.

Lemma pending_enumerated t k :
  pending t k → k ∈ iter_media_files ls t.
Proof.
  intros (f & Hf & Hh & Hm & _). unfold iter_media_files.
  apply list_elem_of_filter. split.
  - simpl. rewrite Hf, Hh, Hm. reflexivity.
  - apply (listing_elem ls Hls). eauto.
Qed.

Lemma phase2_all_skip DR (files : list string) t :
  (∀ k, k ∈ files → ∃ f, t !! k = Some (File f) ∧ st_size f = 0%N) →
  ∀ logs, fold_left (process_step w DR) files (t, logs)
          = (t, logs ++ (skip_record <$> files)).
Proof.
  induction files as [|p files IH]; intros Hall logs; cbn [fold_left].
  - rewrite app_nil_r. reflexivity.
  - destruct (Hall p) as (f & Hf & Hsize); [left|].
    unfold process_step at 2. cbn [fst snd].
    rewrite (zero_byte_skip w DR t p f)
      by (first [apply read_file_root, Hf|exact Hsize]).
    rewrite IH by (intros k Hk; apply Hall; right; exact Hk).
    rewrite <- app_assoc. reflexivity.
Qed.
End rerun_loops.

Lemma main_live (ls : listing) (w : collaborators) (root : gmap string entry) :
  sort_media_by_date.main ls w false false false root =
    let c := sort_media_by_date.consolidate_from_invalid_folders ls root false in
    let p := fold_left (sort_media_by_date.process_step w false)
               (sort_media_by_date.iter_media_files ls c.1) (c.1, []) in
    (p.1, c.2 ++ p.2).
Proof.
  unfold sort_media_by_date.main. cbv zeta.
  destruct (sort_media_by_date.consolidate_from_invalid_folders ls root false)
    as [t1 clogs]. cbn [fst snd].
  destruct (fold_left _ _ _) as [t2 plogs]. reflexivity.
Qed.

(** C4 (amended): a second live run of the sorting script over the tree left
    by a first live run that recorded no error and filed everything under
    valid date folders changes nothing: Phase 1 moves and removes nothing (so
    every folder, the valid date folders among them, is as it was), Phase 2
    enumerates only the zero-byte files it skipped before and skips them
    again, and the tree after the second run is the tree after the first.
    The converter is assumed to leave no partial file behind; the CSV log, to
    which every run appends its rows, is not part of the tree. *)
Theorem C4_second_run_changes_nothing (ls : listing) (w : collaborators)
    (root : gmap string entry) :
  listing_ok ls → no_partial_files w →
  let r1 := sort_media_by_date.main ls w false false false root in
  (∀ rec, rec ∈ r1.2 → sort_media_by_date.method rec ≠ "ERROR") →
  (∀ rec d n, rec ∈ r1.2 → sort_media_by_date.new_path rec = [d; n] →
              sort_media_by_date.is_valid_date_folder d = true) →
  let r2 := sort_media_by_date.main ls w false false false r1.1 in
  r2.1 = r1.1
  ∧ r2.2 = skip_record <$> sort_media_by_date.iter_media_files ls r1.1
  ∧ (∀ k, k ∈ sort_media_by_date.iter_media_files ls r1.1 →
          ∃ f, r1.1 !! k = Some (File f) ∧ st_size f = 0%N)
  ∧ sort_media_by_date.consolidate_from_invalid_folders ls r1.1 false
    = (r1.1, []).
Proof.
  intros Hls Hw. cbv zeta.
  rewrite !(main_live ls w).
  pose proof (consolidate_settles ls Hls root) as Hset1.
  destruct (sort_media_by_date.consolidate_from_invalid_folders ls root false)
    as [t1 clogs]. cbn [fst snd] in *.
  pose proof (phase2_settles w Hw (sort_media_by_date.iter_media_files ls t1) t1 [])
    as Hphase2. cbv zeta in Hphase2.
  destruct (fold_left (sort_media_by_date.process_step w false)
              (sort_media_by_date.iter_media_files ls t1) (t1, []))
    as [t2 plogs]. cbn [fst snd] in *.
  intros Hnoerr Hvalid.
  destruct Hphase2 as [Hset2 Hnone].
  { intros rec Hrec. apply Hnoerr, elem_of_app. right. exact Hrec. }
  { intros rec d n Hrec. apply Hvalid, elem_of_app. right. exact Hrec. }
  { exact Hset1. }
  { intros k. apply (pending_enumerated ls Hls). }
  assert (∀ k, k ∈ sort_media_by_date.iter_media_files ls t2 →
               ∃ f, t2 !! k = Some (File f) ∧ st_size f = 0%N) as Hzero.
  { intros k Hk. unfold sort_media_by_date.iter_media_files in Hk.
    apply list_elem_of_filter in Hk as [Hk _].
    apply andb_true_iff in Hk as [Hk Hm]. apply andb_true_iff in Hk as [Hf Hh].
    apply negb_true_iff in Hh. simpl in Hf.
    destruct (t2 !! k) as [[f|its]|] eqn:Hlook; try discriminate.
    exists f. split; [reflexivity|].
    destruct (decide (st_size f = 0%N)) as [Hz|Hnz]; [exact Hz|].
    exfalso. apply (Hnone k). exists f. auto. }
  rewrite (consolidate_settled ls Hls t2 Hset2). cbv zeta. cbn [fst snd].
  rewrite (phase2_all_skip w false _ t2 Hzero []). cbn [fst snd app].
  split; [reflexivity|]. split; [reflexivity|].
  split; [exact Hzero|reflexivity].
Qed.

Lemma C4_second_run_changes_nothing_witness :
  let w := mk_collaborators true (λ f, Saved f) (λ _ f, Saved f) false
             (λ _, None) (λ _ _, None) in
  let f := mk_file 10 1 None None (mk_datetime 2024 2 1 10 0 0) in
  let z := mk_file 0 2 None None (mk_datetime 2024 2 1 10 0 0) in
  let root : gmap string entry :=
    {[ "misc_photos" := Dir {[ "a.jpg" := IFile f; "notes.txt" := IFile f ]};
       "20240115" := Dir {[ "x.jpg" := IFile f ]};
       "a.jpg" := File f; "b.HEIC" := File f; "z.jpg" := File z ]} in
  let r1 := sort_media_by_date.main default_listing w false false false root in
  let r2 := sort_media_by_date.main default_listing w false false false r1.1 in
  r2.1 = r1.1
  ∧ r2.2 = skip_record <$> sort_media_by_date.iter_media_files default_listing r1.1.
Proof.
  intros w f z root r1 r2.
  assert (no_partial_files w) as Hw by (intros g part; discriminate).
  assert (∀ rec, rec ∈ r1.2 → sort_media_by_date.method rec ≠ "ERROR") as H1.
  { apply Forall_forall. apply (bool_decide_unpack _). vm_compute. exact I. }
  assert (∀ rec d n, rec ∈ r1.2 → sort_media_by_date.new_path rec = [d; n] →
                     sort_media_by_date.is_valid_date_folder d = true) as H2.
  { intros rec d n Hin Hp. revert Hin.
    generalize (eq_refl : r1.2 = r1.2). generalize r1.2 at 2 3. intros l Hl.
    vm_compute in Hl. subst l. intros Hin.
    repeat (apply elem_of_cons in Hin as [->|Hin]; [try discriminate|]);
      try (inversion Hin); injection Hp as <- <-; reflexivity. }
  destruct (C4_second_run_changes_nothing default_listing w root
              default_listing_ok Hw H1 H2) as (A & B & _).
  split; [exact A|exact B].
Defined.

(** The claim as first stated fails.  In the sorting script a zero-byte root
    file is skipped, stays in the root and is enumerated again by Phase 2 of
    the second run.  In the master pipeline a second run over the same input
    copies every file again, under suffixed names. *)
Lemma C4_second_run_enumerates_and_copies :
  let w := mk_collaborators true (λ f, Saved f) (λ _ f, Saved f) false
             (λ _, None) (λ _ _, None) in
  let f := mk_file 10 1 None None (mk_datetime 2024 2 1 10 0 0) in
  let z := mk_file 0 2 None None (mk_datetime 2024 2 1 10 0 0) in
  let root : gmap string entry := {[ "z.jpg" := File z ]} in
  let r1 := sort_media_by_date.main default_listing w false false false root in
  let input : gmap string file := {[ "a.jpg" := f ]} in
  let cfg := master_run.mk_config false None [] in
  let m1 := master_batch.run default_listing w cfg input ["a.jpg"]
              (master_batch.mk_disk None None None None) in
  let m2 := master_batch.run default_listing w cfg input ["a.jpg"] m1.1.1 in
  sort_media_by_date.iter_media_files default_listing r1.1 = ["z.jpg"]
  ∧ master_batch.output_dir m1.1.1
    = Some {[ "20240201" :=
                Dir {[ "20240201_1000_construction.jpg" := IFile f ]} ]}
  ∧ master_batch.output_dir m2.1.1
    = Some {[ "20240201" :=
                Dir {[ "20240201_1000_construction.jpg" := IFile f;
                       "20240201_1000_construction_1.jpg" := IFile f ]} ]}.
Proof. vm_compute. repeat split; reflexivity. Qed.

(** * Further properties *)

Lemma all_digits_app (a b : string) :
  all_digits (a +:+ b) = all_digits a && all_digits b.
Proof.
  induction a as [|c a IH]; [reflexivity|].
  rewrite string_app_cons. cbn [all_digits]. rewrite IH. apply andb_assoc.
Qed.

Lemma int_of_digits_acc_app (a b : string) acc :
  int_of_digits_acc acc (a +:+ b) = int_of_digits_acc (int_of_digits_acc acc a) b.
Proof.
  revert acc. induction a as [|c a IH]; intros acc; [reflexivity|].
  rewrite string_app_cons. cbn [int_of_digits_acc]. apply IH.
Qed.

Lemma pretty_N_char_digit (x : N) :
  (x < 10)%N →
  is_digit (pretty_N_char x) = true ∧ digit_val (pretty_N_char x) = N.to_nat x.
Proof.
  intros Hx.
  assert (x = 0 ∨ x = 1 ∨ x = 2 ∨ x = 3 ∨ x = 4 ∨ x = 5 ∨ x = 6 ∨ x = 7
          ∨ x = 8 ∨ x = 9)%N as H by lia.
  repeat (destruct H as [->|H]; [split; reflexivity|]). subst. split; reflexivity.
Qed.

(** The digits [pretty_N_go] puts in front of its accumulator. *)
Lemma pretty_N_go_digits (x : N) :
  ∀ s, ∃ ds,
    pretty_N_go x s = ds +:+ s
    ∧ all_digits ds = true
    ∧ (∀ acc, int_of_digits_acc acc ds
              = (acc * 10 ^ String.length ds + N.to_nat x)%nat)
    ∧ (N.to_nat x < 10 ^ String.length ds)%nat
    ∧ ((0 < x)%N → (0 < String.length ds)%nat
                   ∧ (10 ^ (String.length ds - 1) ≤ N.to_nat x)%nat).
Proof.
  induction (N.lt_wf_0 x) as [x _ IH]. intros s.
  assert (x = 0 ∨ 0 < x)%N as [->|Hpos] by lia.
  - exists "". rewrite pretty_N_go_0. split; [reflexivity|]. split; [reflexivity|].
    split; [intros acc; simpl; lia|]. split; [simpl; lia|]. lia.
  - rewrite pretty_N_go_step by exact Hpos.
    destruct (IH (x `div` 10)%N (N.div_lt x 10 Hpos eq_refl)
                (String (pretty_N_char (x `mod` 10)) s))
      as (ds & Heq & Hd & Hval & Hlt & Hge).
    destruct (pretty_N_char_digit (x `mod` 10)%N) as [Hc Hv];
      [apply N.mod_lt; lia|].
    set (c := pretty_N_char (x `mod` 10)) in *.
    exists (ds +:+ String c "").
    assert (String.length (ds +:+ String c "") = S (String.length ds)) as Hlen
      by (rewrite string_length_app; simpl; lia).
    assert (N.to_nat x = 10 * N.to_nat (x `div` 10) + N.to_nat (x `mod` 10))%nat
      as Hx.
    { rewrite (N.div_mod x 10) at 1 by lia. rewrite N2Nat.inj_add, N2Nat.inj_mul.
      reflexivity. }
    assert (N.to_nat (x `mod` 10) < 10)%nat as Hm.
    { pose proof (N.mod_lt x 10). lia. }
    split; [rewrite Heq, string_app_assoc; reflexivity|].
    split; [rewrite all_digits_app, Hd; simpl; rewrite Hc; reflexivity|].
    split; [|split].
    + intros acc. rewrite int_of_digits_acc_app, Hval, Hlen.
      cbn [int_of_digits_acc]. rewrite Hv, Hx, Nat.pow_succ_r'. lia.
    + rewrite Hlen, Nat.pow_succ_r', Hx. lia.
    + intros _. rewrite Hlen. split; [lia|].
      replace (S (String.length ds) - 1)%nat with (String.length ds) by lia.
      assert (x `div` 10 = 0 ∨ 0 < x `div` 10)%N as [H0|Hp] by lia.
      * assert (String.length ds = 0%nat) as ->.
        { destruct ds as [|a ds]; [reflexivity|]. exfalso.
          rewrite H0, pretty_N_go_0 in Heq.
          apply (f_equal String.length) in Heq.
          rewrite string_length_app in Heq. simpl in Heq. lia. }
        simpl. assert (0 < N.to_nat x)%nat by lia. lia.
      * destruct (Hge Hp) as [Hl Hg].
        replace (String.length ds) with (S (String.length ds - 1)) at 1 by lia.
        rewrite Nat.pow_succ_r', Hx. lia.
Qed.

(** [str(n)] is a non-empty string of digits and [int(str(n)) = n]. *)
Lemma str_nat_digits (n : nat) :
  all_digits (str_nat n) = true
  ∧ int_of_digits (str_nat n) = n
  ∧ (0 < String.length (str_nat n))%nat
  ∧ (∀ w, (0 < w)%nat → (n < 10 ^ w)%nat → (String.length (str_nat n) ≤ w)%nat).
Proof.
  unfold str_nat, pretty, pretty_nat, pretty, pretty_N.
  destruct (decide (N.of_nat n = 0%N)) as [H0|Hne].
  - assert (n = 0%nat) as -> by lia. split; [reflexivity|]. split; [reflexivity|].
    split; [simpl; lia|]. intros w Hw _. simpl. lia.
  - destruct (pretty_N_go_digits (N.of_nat n) "") as (ds & Heq & Hd & Hval & Hlt & Hge).
    assert (ds +:+ "" = ds) as Hnil.
    { clear. induction ds as [|c ds IH]; [reflexivity|].
      rewrite string_app_cons, IH. reflexivity. }
    rewrite Heq, Hnil. rewrite Nat2N.id in *.
    destruct Hge as [Hl Hg]; [lia|].
    split; [exact Hd|]. split; [unfold int_of_digits; rewrite Hval; lia|].
    split; [exact Hl|]. intros w Hw Hn.
    destruct (decide (String.length ds ≤ w)%nat) as [|Hgt]; [assumption|].
    exfalso. assert (10 ^ w ≤ 10 ^ (String.length ds - 1))%nat.
    { apply Nat.pow_le_mono_r; lia. }
    lia.
Qed.


Lemma stake_app (p s : string) : stake (String.length p) (p +:+ s) = p.
Proof.
  induction p as [|c p IH]; [destruct s; reflexivity|].
  rewrite string_app_cons. simpl. rewrite IH. reflexivity.
Qed.

Lemma zeros_spec (k : nat) :
  String.length (zeros k) = k ∧ all_digits (zeros k) = true
  ∧ int_of_digits_acc 0 (zeros k) = 0%nat.
Proof.
  induction k as [|k (IH1 & IH2 & IH3)]; [repeat split|].
  cbn [zeros String.length all_digits int_of_digits_acc].
  rewrite IH1, IH2. repeat split. exact IH3.
Qed.


Lemma pad_digits (w n : nat) : all_digits (pad w n) = true.
Proof.
  unfold pad. rewrite all_digits_app.
  destruct (zeros_spec (w - String.length (str_nat n))) as (_ & -> & _).
  apply str_nat_digits.
Qed.







Section phase1_dry.
Import sort_media_by_date.
Context (ls : listing).

Lemma eligible_in_folder t d n :
  eligible_in (folder t d) n
  = negb (negb (is_file t (Some d, n)) || is_hidden n)
    && in_set (lower (suffix n)) INCLUDE_EXT.
Proof.
  unfold eligible_in, folder. cbn [is_file].
  destruct (t !! d) as [[g|its]|]; [rewrite lookup_empty; reflexivity|
                                    |rewrite lookup_empty; reflexivity].
  destruct (its !! n) as [[f|]|]; cbn [negb orb andb eligible]; try reflexivity.
Qed.

Lemma dry_file_fold d l : ∀ t logs,
  fold_left (consolidate_file true d) l (t, logs)
  = (t, logs ++ ((λ n, consolidate_record d n (resolve_collision t n))
                   <$> filter (λ n, eligible_in (folder t d) n = true) l)).
Proof.
  induction l as [|n l IH]; intros t logs; cbn [fold_left].
  { rewrite app_nil_r. reflexivity. }
  pose proof (eligible_in_folder t d n) as He.
  unfold consolidate_file at 2.
  destruct (negb (is_file t (Some d, n)) || is_hidden n) eqn:H1.
  - rewrite filter_cons_False by (rewrite He; discriminate). apply IH.
  - destruct (in_set (lower (suffix n)) INCLUDE_EXT) eqn:H2; cbn [negb] in *.
    + rewrite filter_cons_True by exact He. cbn [move_or_log].
      rewrite IH, fmap_cons, <- app_assoc. reflexivity.
    + rewrite filter_cons_False by (rewrite He; discriminate). apply IH.
Qed.

Lemma dry_folder_fold root l : ∀ logs,
  fold_left (consolidate_folder ls true) l (root, logs)
  = (root, logs ++ (d ← l;
                    match root !! d with
                    | Some e => if drainable d e then planned_moves ls root d else []
                    | None => []
                    end)).
Proof.
  induction l as [|d l IH]; intros logs; cbn [fold_left].
  { rewrite app_nil_r. reflexivity. }
  unfold consolidate_folder at 2. rewrite bind_cons.
  unfold is_dir, drainable.
  destruct (root !! d) as [[g|its]|] eqn:Hd; cbn [negb orb].
  - rewrite IH. reflexivity.
  - destruct (is_hidden d); cbn [negb andb]; [apply IH|].
    destruct (is_valid_date_folder d); cbn [negb]; [apply IH|].
    rewrite dry_file_fold, IH, <- app_assoc. reflexivity.
  - rewrite IH. reflexivity.
Qed.

Lemma dry_consolidation root :
  consolidate_from_invalid_folders ls root true = (root, dry_plan ls root).
Proof. apply (dry_folder_fold root (ls _ root) []). Qed.
End phase1_dry.

Section phase1_parity.
Import sort_media_by_date.
Context (ls : listing) (Hls : listing_ok ls).

Lemma moved_sources d (moved : list (string * string)) :
  original_path <$> filter is_consolidate
                      ((λ x, consolidate_record d x.1 x.2) <$> moved)
  = (λ n, [d; n]) <$> moved.*1.
Proof.
  induction moved as [|[n dst] moved IH]; [reflexivity|].
  rewrite !fmap_cons, filter_cons_True by reflexivity.
  rewrite fmap_cons, IH. reflexivity.
Qed.

Lemma sources_frame t t' d k :
  k ≠ d →
  (∀ e, t !! k = Some e → t' !! k = Some e) →
  (∀ e, t' !! k = Some e → t !! k = None → ∃ f, e = File f) →
  sources ls t' k = sources ls t k.
Proof.
  intros Hne Hkeep Hnew. unfold sources, folder.
  destruct (t !! k) as [e|] eqn:Hk.
  - rewrite (Hkeep e eq_refl). reflexivity.
  - destruct (t' !! k) as [e'|] eqn:Hk'; [|reflexivity].
    destruct (Hnew e' eq_refl eq_refl) as [f ->]. reflexivity.
Qed.

Lemma live_sources (names : list string) :
  NoDup names → ∀ t logs,
  original_path <$> filter is_consolidate
      (fold_left (consolidate_folder ls false) names (t, logs)).2
  = (original_path <$> filter is_consolidate logs)
    ++ (d ← names; sources ls t d).
Proof.
  induction names as [|d names IH]; intros Hnd t logs; cbn [fold_left].
  { rewrite app_nil_r. reflexivity. }
  apply NoDup_cons in Hnd as [Hd Hnd]. rewrite bind_cons.
  assert (∀ t', (∀ k, k ≠ d → sources ls t' k = sources ls t k) →
            names ≫= sources ls t' = names ≫= sources ls t) as Hrest.
  { intros t' Hfr. clear IH Hnd. induction names as [|k names IHn]; [reflexivity|].
    rewrite !bind_cons, Hfr, IHn; [reflexivity| |].
    - intros Hin. apply Hd. right. exact Hin.
    - intros ->. apply Hd. left. }
  destruct (t !! d) as [e|] eqn:Hlook.
  2:{ rewrite (consolidate_folder_skips ls t logs d) by (intros e; congruence).
      rewrite (IH Hnd). unfold sources at 2. rewrite Hlook. reflexivity. }
  destruct (drainable d e) eqn:Hdr.
  2:{ rewrite (consolidate_folder_skips ls t logs d)
        by (intros e'; rewrite Hlook; intros [= <-]; exact Hdr).
      rewrite (IH Hnd). unfold sources at 2. rewrite Hlook, Hdr. reflexivity. }
  destruct e as [g|its]; [discriminate|].
  destruct (consolidate_folder_drains ls Hls t logs d its Hlook Hdr)
    as (t' & moved & Hstep & _ & Hkeep & Hnew & Hmoved & _).
  rewrite Hstep, (IH Hnd). rewrite !filter_app, !fmap_app, moved_sources, Hmoved.
  assert (filter is_consolidate
            (if decide (leftover its = ∅) then [remove_folder_record d] else [])
          = []) as ->.
  { destruct (decide (leftover its = ∅)); [|reflexivity].
    rewrite filter_cons_False by discriminate. reflexivity. }
  rewrite Hrest.
  2:{ intros k Hk. apply (sources_frame t t' d k Hk).
      - intros e. apply Hkeep. exact Hk.
      - intros e. apply Hnew. }
  unfold sources at 2. rewrite Hlook, Hdr. unfold folder. rewrite Hlook.
  cbn [fmap list_fmap app]. rewrite app_nil_r, <- !app_assoc. reflexivity.
Qed.

Lemma dry_plan_sources root :
  original_path <$> dry_plan ls root = (d ← ls _ root; sources ls root d).
Proof.
  unfold dry_plan. generalize (ls _ root). intros l.
  induction l as [|d l IH]; [reflexivity|].
  rewrite !bind_cons, fmap_app, IH. f_equal.
  unfold sources, planned_moves.
  destruct (root !! d) as [e|]; [|reflexivity].
  destruct (drainable d e); [|reflexivity].
  rewrite <- list_fmap_compose. reflexivity.
Qed.
End phase1_parity.

(** X2: a dry run of Phase 1 leaves the tree as it is and writes one
    CONSOLIDATE record per eligible file of every drainable folder, with the
    destination [resolve_collision] finds in the untouched root; it writes no
    REMOVE_FOLDER and no ERROR record.  The files it lists are, in the same
    order, the files a live run moves; only the destination names can
    differ. *)
Theorem X2_phase1_dry_run_plan (ls : listing) (root : gmap string entry) :
  listing_ok ls →
  let dry := sort_media_by_date.consolidate_from_invalid_folders ls root true in
  let live := sort_media_by_date.consolidate_from_invalid_folders ls root false in
  dry = (root, dry_plan ls root)
  ∧ (∀ rec, rec ∈ dry.2 → sort_media_by_date.method rec = "CONSOLIDATE")
  ∧ sort_media_by_date.original_path <$> dry.2
    = sort_media_by_date.original_path <$> filter is_consolidate live.2.
Proof.
  intros Hls dry live. subst dry live. rewrite dry_consolidation. cbn [fst snd].
  split; [reflexivity|]. split.
  - intros rec Hrec. unfold dry_plan in Hrec.
    apply list_elem_of_bind in Hrec as (d & Hrec & _).
    destruct (root !! d) as [e|]; [|inversion Hrec].
    destruct (drainable d e); [|inversion Hrec].
    unfold planned_moves in Hrec.
    apply list_elem_of_fmap in Hrec as (n & -> & _). reflexivity.
  - unfold sort_media_by_date.consolidate_from_invalid_folders.
    rewrite (live_sources ls Hls (ls _ root) (listing_NoDup ls Hls root) root []).
    rewrite dry_plan_sources. reflexivity.
Qed.

Lemma X2_phase1_dry_run_plan_witness :
  let f := mk_file 10 1 None None (mk_datetime 2024 2 1 10 0 0) in
  let root : gmap string entry :=
    {[ "misc" := Dir {[ "a.jpg" := IFile f; "notes.txt" := IFile f ]};
       "more" := Dir {[ "a.jpg" := IFile f ]};
       "a.jpg" := File f ]} in
  sort_media_by_date.consolidate_from_invalid_folders default_listing root true
  = (root, dry_plan default_listing root)
  ∧ sort_media_by_date.new_path <$> dry_plan default_listing root
    = [["a_1.jpg"]; ["a_1.jpg"]].
Proof.
  intros f root. split.
  - apply (X2_phase1_dry_run_plan default_listing root default_listing_ok).
  - vm_compute. reflexivity.
Defined.

Section phase2_log.
Import sort_media_by_date.
Context (ls : listing) (w : collaborators).

Lemma process_file_source DR t name rec :
  (process_file w DR t name).2 = Some rec → original_path rec = [name].
Proof.
  unfold process_file.
  repeat case_match; cbn [snd]; intros [= <-]; reflexivity.
Qed.

Lemma process_step_source DR t logs p :
  ∃ rec, (process_step w DR (t, logs) p).2 = logs ++ [rec]
         ∧ original_path rec = [p].
Proof.
  unfold process_step. cbn [fst snd].
  pose proof (process_file_source DR t p) as H.
  destruct (process_file w DR t p) as [t' [rec|]]; cbn [snd] in *.
  - exists rec. split; [reflexivity|]. apply H. reflexivity.
  - eexists. split; reflexivity.
Qed.

Lemma process_fold_sources DR (files : list string) : ∀ t logs,
  ∃ new, (fold_left (process_step w DR) files (t, logs)).2 = logs ++ new
         ∧ original_path <$> new = (λ n, [n]) <$> files.
Proof.
  induction files as [|p files IH]; intros t logs; cbn [fold_left].
  { exists []. rewrite app_nil_r. split; reflexivity. }
  destruct (process_step_source DR t logs p) as (rec & Hstep & Hrec).
  destruct (process_step w DR (t, logs) p) as [t' logs'] eqn:E.
  cbn [snd] in Hstep. subst logs'.
  destruct (IH t' (logs ++ [rec])) as (new & Hfold & Hnew).
  exists (rec :: new). split.
  - rewrite Hfold, <- app_assoc. reflexivity.
  - rewrite !fmap_cons, Hrec, Hnew. reflexivity.
Qed.

Lemma iter_media_files_spec (Hls : listing_ok ls) (root : gmap string entry) :
  NoDup (iter_media_files ls root)
  ∧ ∀ k, k ∈ iter_media_files ls root ↔
         ∃ f, root !! k = Some (File f) ∧ is_hidden k = false
              ∧ in_set (lower (suffix k)) INCLUDE_EXT = true.
Proof.
  unfold iter_media_files. split.
  - apply NoDup_filter, (listing_NoDup ls Hls).
  - intros k. rewrite list_elem_of_filter, (listing_elem ls Hls).
    cbn [is_file]. split.
    + intros [H _]. apply andb_true_iff in H as [H He].
      apply andb_true_iff in H as [Hf Hh]. apply negb_true_iff in Hh.
      destruct (root !! k) as [[f|its]|]; try discriminate. exists f. auto.
    + intros (f & Hk & Hh & He). rewrite Hk, Hh, He. split; [reflexivity|eauto].
Qed.
End phase2_log.

(** X3: [main] writes the Phase 1 records followed by exactly one record per
    file that [iter_media_files] yields after Phase 1, in enumeration order
    and each under the name of its file, whatever happens to the file (moved,
    skipped, or an exception).  The enumeration holds every regular root file
    that is not hidden and has a media extension, once; so each such file
    has its own record. *)
Theorem X3_one_record_per_root_file (ls : listing) (w : collaborators)
    (args_dry_run args_no_dry_run : bool) (root : gmap string entry) :
  listing_ok ls →
  let dry_run := if args_no_dry_run then false else args_dry_run in
  let c := sort_media_by_date.consolidate_from_invalid_folders ls root dry_run in
  let r := sort_media_by_date.main ls w sort_media_by_date.DRY_RUN
             args_dry_run args_no_dry_run root in
  ∃ processing_logs,
    r.2 = c.2 ++ processing_logs
    ∧ sort_media_by_date.original_path <$> processing_logs
      = (λ n, [n]) <$> sort_media_by_date.iter_media_files ls c.1
    ∧ NoDup (sort_media_by_date.original_path <$> processing_logs)
    ∧ ∀ k f, c.1 !! k = Some (File f) →
             sort_media_by_date.is_hidden k = false →
             in_set (lower (suffix k)) sort_media_by_date.INCLUDE_EXT = true →
             ∃ rec, rec ∈ processing_logs
                    ∧ sort_media_by_date.original_path rec = [k].
Proof.
  intros Hls dry_run c r. subst r c.
  unfold sort_media_by_date.main, sort_media_by_date.DRY_RUN.
  assert ((if args_no_dry_run then false
           else if args_dry_run then true else false) = dry_run) as ->
    by (subst dry_run; destruct args_no_dry_run, args_dry_run; reflexivity).
  destruct (sort_media_by_date.consolidate_from_invalid_folders ls root dry_run)
    as [t1 clogs]. cbn [fst snd].
  destruct (process_fold_sources w false
              (sort_media_by_date.iter_media_files ls t1) t1 [])
    as (new & Hfold & Hnew).
  destruct (fold_left _ _ (t1, [])) as [t2 plogs]. cbn [snd app] in *.
  subst plogs. exists new.
  destruct (iter_media_files_spec ls Hls t1) as [Hnd Hin].
  split; [reflexivity|]. split; [exact Hnew|]. split.
  - rewrite Hnew. apply (NoDup_fmap_2 _). exact Hnd.
  - intros k f Hk Hh He.
    assert ([k] ∈ sort_media_by_date.original_path <$> new) as Hmem.
    { rewrite Hnew. apply list_elem_of_fmap. exists k. split; [reflexivity|].
      apply Hin. eauto. }
    apply list_elem_of_fmap in Hmem as (rec & Heq & Hrec). eauto.
Qed.

Lemma X3_one_record_per_root_file_witness :
  let w := mk_collaborators true (λ f, Saved f) (λ _ f, Saved f) false
             (λ _, None) (λ _ _, None) in
  let f := mk_file 10 1 None None (mk_datetime 2024 2 1 10 0 0) in
  let z := mk_file 0 2 None None (mk_datetime 2024 2 1 10 0 0) in
  let root : gmap string entry :=
    {[ "a.jpg" := File f; "z.MOV" := File z; ".hidden.jpg" := File f;
       "notes.txt" := File f ]} in
  let r := sort_media_by_date.main default_listing w sort_media_by_date.DRY_RUN
             false false root in
  ∃ processing_logs,
    r.2 = [] ++ processing_logs
    ∧ sort_media_by_date.original_path <$> processing_logs
      = (λ n, [n]) <$> sort_media_by_date.iter_media_files default_listing root.
Proof.
  intros w f z root r.
  destruct (X3_one_record_per_root_file default_listing w false false root
              default_listing_ok) as (pl & H1 & H2 & _).
  exists pl. split; [exact H1|exact H2].
Defined.

Section process_file_frame.
Import sort_media_by_date.

Lemma kept_except_refl name t : kept_except name t t.
Proof. split; [auto|]. intros d its Hd. exists its. split; [exact Hd|reflexivity]. Qed.

Lemma kept_except_trans name t1 t2 t3 :
  kept_except name t1 t2 → kept_except name t2 t3 → kept_except name t1 t3.
Proof.
  intros [A1 A2] [B1 B2]. split.
  - intros k g Hk Hne. apply B1; [apply A1; assumption|exact Hne].
  - intros d its Hd. destruct (A2 d its Hd) as (its' & Hd' & Hs).
    destruct (B2 d its' Hd') as (its'' & Hd'' & Hs').
    exists its''. split; [exact Hd''|]. etransitivity; eassumption.
Qed.

Lemma kept_insert_free name t k e :
  t !! k = None → kept_except name t (<[k := e]> t).
Proof.
  intros Hfree. split.
  - intros k' g Hk _. rewrite lookup_insert_ne by congruence. exact Hk.
  - intros d its Hd. exists its. rewrite lookup_insert_ne by congruence.
    split; [exact Hd|reflexivity].
Qed.

Lemma kept_delete_file name t f :
  t !! name = Some (File f) → kept_except name t (delete name t).
Proof.
  intros Hf. split.
  - intros k g Hk Hne. rewrite lookup_delete_ne by congruence. exact Hk.
  - intros d its Hd. exists its. rewrite lookup_delete_ne by congruence.
    split; [exact Hd|reflexivity].
Qed.

Lemma process_file_kept w DR t name :
  kept_except name t (process_file w DR t name).1.
Proof.
  rewrite process_file_stages. cbn [read_file].
  destruct (t !! name) as [[f|its]|] eqn:Hf; try apply kept_except_refl.
  destruct (st_size f =? 0)%N; [apply kept_except_refl|].
  destruct (heic_stage_effect w DR t name f Hf) as [_ Hstage].
  set (t1 := (heic_stage w DR t name).1) in *.
  set (path := (heic_stage w DR t name).2) in *.
  assert (kept_except name t t1 ∧ ∃ f1, t1 !! path = Some (File f1)
          ∧ (path = name ∨ t !! path = None)) as (Hk1 & f1 & Hpath & Hwhich).
  { destruct Hstage as [(-> & Hname & [->|(jpg & part & _ & Hfree & ->)])
                       |(j & _ & _ & Hfree & Ht1)].
    - split; [apply kept_except_refl|]. exists f. auto.
    - split; [apply kept_insert_free, Hfree|]. exists f. auto.
    - assert (path ≠ name) as Hne by congruence.
      assert (kept_except name t (<[path := File j]> t)) as Hins
        by apply kept_insert_free, Hfree.
      split.
      + rewrite Ht1. destruct DR; [exact Hins|].
        eapply kept_except_trans; [exact Hins|].
        apply (kept_delete_file name _ f).
        rewrite lookup_insert_ne by congruence. exact Hf.
      + exists j. split; [|right; exact Hfree]. rewrite Ht1. destruct DR.
        * apply lookup_insert_eq.
        * rewrite lookup_delete_ne by congruence. apply lookup_insert_eq. }
  destruct (relocate_effect DR t1 name path f1 Hpath)
    as [[_ ->]|(t2 & rec & Hmk & _ & _ & Hdst & ->)]; cbn [fst];
    [exact Hk1|].
  destruct (mkdir_effect _ _ _ Hmk) as (Hdate & Hother & Hfold).
  set (date := strftime_Ymd _) in *.
  assert (date ≠ path) as Hdp.
  { intros Heq. unfold mkdir_exist_ok in Hmk. rewrite Heq, Hpath in Hmk.
    discriminate. }
  assert (kept_except name t1 t2) as Hk2.
  { split.
    - intros k g Hk _. rewrite Hother; [exact Hk|].
      intros ->. unfold mkdir_exist_ok in Hmk. rewrite Hk in Hmk. discriminate.
    - intros d its Hd. exists its. split; [|reflexivity].
      destruct (decide (d = date)) as [->|Hne].
      + rewrite Hdate. unfold folder. rewrite Hd. reflexivity.
      + rewrite Hother by exact Hne. exact Hd. }
  assert (kept_except name t t2) as Hk12
    by (eapply kept_except_trans; eassumption).
  destruct DR; [exact Hk12|].
  assert (t2 !! path = Some (File f1)) as Hpath2
    by (rewrite Hother by congruence; exact Hpath).
  destruct Hk12 as [K1 K2]. split.
  - intros k g Hk Hne. specialize (K1 k g Hk Hne).
    assert (k ≠ date) by (intros ->; rewrite Hdate in K1; discriminate).
    assert (k ≠ path) by (destruct Hwhich; congruence).
    rewrite lookup_insert_ne by congruence.
    rewrite lookup_delete_ne by congruence. exact K1.
  - intros d its Hd. destruct (K2 d its Hd) as (its2 & Hd2 & Hsub).
    destruct (decide (d = date)) as [->|Hne].
    + rewrite Hdate in Hd2. injection Hd2 as <-.
      eexists. split; [apply lookup_insert_eq|].
      etransitivity; [exact Hsub|]. apply insert_subseteq, Hdst.
    + exists its2. rewrite lookup_insert_ne by congruence.
      rewrite lookup_delete_ne by congruence. split; [exact Hd2|exact Hsub].
Qed.
End process_file_frame.

Section phase2_frame.
Import sort_media_by_date.

Lemma process_fold_kept w DR (files : list string) : ∀ t logs,
  let r := fold_left (process_step w DR) files (t, logs) in
  (∀ k g, t !! k = Some (File g) → k ∉ files → r.1 !! k = Some (File g))
  ∧ (∀ d its, t !! d = Some (Dir its) →
       ∃ its', r.1 !! d = Some (Dir its') ∧ its ⊆ its').
Proof.
  induction files as [|p files IH]; intros t logs; cbn [fold_left].
  { cbn [fst]. split; [auto|]. intros d its Hd. exists its.
    split; [exact Hd|reflexivity]. }
  destruct (process_file_kept w DR t p) as [K1 K2].
  destruct (process_step w DR (t, logs) p) as [t' logs'] eqn:Hstep.
  assert (t' = (process_file w DR t p).1) as Ht'.
  { unfold process_step in Hstep. cbn [fst snd] in Hstep.
    destruct (process_file w DR t p) as [t0 [rec|]]; injection Hstep as <- _;
      reflexivity. }
  rewrite <- Ht' in K1, K2.
  destruct (IH t' logs') as [I1 I2]. split.
  - intros k g Hk Hnot. apply I1.
    + apply K1; [exact Hk|]. intros ->. apply Hnot. left.
    + intros Hin. apply Hnot. right. exact Hin.
  - intros d its Hd. destruct (K2 d its Hd) as (its1 & Hd1 & Hs1).
    destruct (I2 d its1 Hd1) as (its2 & Hd2 & Hs2).
    exists its2. split; [exact Hd2|]. etransitivity; eassumption.
Qed.
End phase2_frame.

(** X4: [process_file] changes nothing but its own file and the folder it
    files it under: every other regular file of the root is the same
    afterwards, and every folder still holds each entry it held, so nothing
    is overwritten.  The same holds for the whole Phase 2 loop and the root
    files it does not enumerate. *)
Theorem X4_processing_keeps_other_files (w : collaborators) (DRY_RUN : bool)
    (t : gmap string entry) :
  (∀ name, kept_except name t (sort_media_by_date.process_file w DRY_RUN t name).1)
  ∧ (∀ (files : list string) logs,
       let r := fold_left (sort_media_by_date.process_step w DRY_RUN) files
                  (t, logs) in
       (∀ k g, t !! k = Some (File g) → k ∉ files → r.1 !! k = Some (File g))
       ∧ (∀ d its, t !! d = Some (Dir its) →
            ∃ its', r.1 !! d = Some (Dir its') ∧ its ⊆ its')).
Proof.
  split; [intros name; apply process_file_kept|].
  intros files logs. apply process_fold_kept.
Qed.

Lemma X4_processing_keeps_other_files_witness :
  let w := mk_collaborators true (λ f, Saved f) (λ _ f, Saved f) false
             (λ _, None) (λ _ _, None) in
  let f := mk_file 10 1 None None (mk_datetime 2024 2 1 10 0 0) in
  let g := mk_file 11 2 None None (mk_datetime 2024 2 1 11 0 0) in
  let t : gmap string entry :=
    {[ "a.jpg" := File f; "b.txt" := File g;
       "20240201" := Dir {[ "a.jpg" := IFile g ]} ]} in
  let r := sort_media_by_date.process_file w false t "a.jpg" in
  r.1 !! "b.txt" = Some (File g)
  ∧ ∃ its', r.1 !! "20240201" = Some (Dir its')
            ∧ ({[ "a.jpg" := IFile g ]} : gmap string item) ⊆ its'.
Proof.
  intros w f g t r.
  destruct (proj1 (X4_processing_keeps_other_files w false t) "a.jpg") as [K1 K2].
  split.
  - apply K1; [reflexivity|discriminate].
  - apply K2. reflexivity.
Defined.

Lemma rfind_app c (a b : string) :
  rfind c (a +:+ b) =
    match rfind c b with
    | Some i => Some (String.length a + i)%nat
    | None => rfind c a
    end.
Proof.
  induction a as [|x a IH];
    [rewrite string_app_nil_l; destruct (rfind c b); reflexivity|].
  rewrite string_app_cons. cbn [rfind String.length]. rewrite IH.
  destruct (rfind c b); reflexivity.
Qed.

Lemma rfind_split c (s : string) i :
  rfind c s = Some i →
  ∃ a b, s = a +:+ String c b ∧ String.length a = i ∧ rfind c b = None.
Proof.
  revert i. induction s as [|x s IH]; intros i; [discriminate|].
  cbn [rfind]. destruct (rfind c s) as [j|] eqn:Hr.
  - intros [= <-]. destruct (IH j eq_refl) as (a & b & -> & Hl & Hb).
    exists (String x a), b. rewrite string_app_cons. cbn [String.length].
    auto.
  - destruct (decide (x = c)) as [->|]; [|discriminate]. intros [= <-].
    exists "", s. auto.
Qed.

Lemma rfind_dot_tail c (b : string) :
  rfind c b = None → rfind c (String c b) = Some 0%nat.
Proof. intros H. cbn [rfind]. rewrite H, decide_True by reflexivity. reflexivity. Qed.

(** A name ending in an extension: [a] is not empty, [b] is not empty and
    has no dot. *)
Lemma suffix_stem_of_parts (a b : string) :
  a ≠ "" → b ≠ "" → rfind "." b = None →
  suffix (a +:+ String "." b) = String "." b
  ∧ stem (a +:+ String "." b) = a
  ∧ rsplit_dot (a +:+ String "." b) = Some (a, b).
Proof.
  intros Ha Hb Hr. unfold suffix, stem, rsplit_dot.
  rewrite rfind_app, (rfind_dot_tail _ _ Hr), Nat.add_0_r.
  rewrite string_length_app. cbn [String.length].
  assert (0 < String.length a)%nat by (destruct a; [congruence|simpl; lia]).
  assert (0 < String.length b)%nat by (destruct b; [congruence|simpl; lia]).
  assert ((0 <? String.length a)%nat
          && (String.length a <? String.length a + S (String.length b) - 1)%nat
          = true) as ->.
  { apply andb_true_iff. split; apply Nat.ltb_lt; lia. }
  assert (sdrop (S (String.length a)) (a +:+ String "." b) = b) as Hd.
  { transitivity (sdrop (String.length (a +:+ ".")) ((a +:+ ".") +:+ b)).
    - rewrite string_length_app, string_app_assoc. cbn [String.length].
      replace (String.length a + 1)%nat with (S (String.length a)) by lia.
      reflexivity.
    - apply sdrop_app. }
  rewrite sdrop_app, stake_app, Hd. auto.
Qed.

(** What a non-empty [suffix] says about the name. *)
Lemma suffix_parts (name : string) :
  suffix name ≠ "" →
  ∃ a b, name = a +:+ String "." b ∧ a ≠ "" ∧ b ≠ "" ∧ rfind "." b = None
         ∧ suffix name = String "." b ∧ stem name = a.
Proof.
  intros Hs. unfold suffix in Hs.
  destruct (rfind "." name) as [i|] eqn:Hr; [|congruence].
  destruct ((0 <? i)%nat && (i <? String.length name - 1)%nat) eqn:Hc;
    [|congruence].
  apply andb_true_iff in Hc as [H0 H1].
  apply Nat.ltb_lt in H0, H1.
  destruct (rfind_split _ _ _ Hr) as (a & b & -> & Hl & Hb).
  rewrite string_length_app in H1. cbn [String.length] in H1.
  assert (a ≠ "") as Ha by (intros ->; simpl in Hl; lia).
  assert (b ≠ "") as Hb' by (intros ->; simpl in H1; lia).
  exists a, b. destruct (suffix_stem_of_parts a b Ha Hb' Hb) as (S1 & S2 & _).
  split; [reflexivity|]. split; [exact Ha|]. split; [exact Hb'|].
  split; [exact Hb|]. split; [exact S1|exact S2].
Qed.

Lemma stem_nonempty (name : string) : name ≠ "" → stem name ≠ "".
Proof.
  intros Hn. unfold stem. destruct (rfind "." name) as [i|]; [|exact Hn].
  destruct ((0 <? i)%nat && (i <? String.length name - 1)%nat) eqn:Hc;
    [|exact Hn].
  apply andb_true_iff in Hc as [H0 _]. apply Nat.ltb_lt in H0.
  destruct name as [|c name]; [congruence|].
  destruct i; [lia|]. discriminate.
Qed.

Lemma string_app_nonempty_l (a b : string) : a ≠ "" → a +:+ b ≠ "".
Proof. destruct a; [congruence|]. rewrite string_app_cons. discriminate. Qed.

Lemma candidate_suffix (a b : string) (i : nat) :
  a ≠ "" → b ≠ "" → rfind "." b = None →
  suffix (candidate a (String "." b) i) = String "." b
  ∧ stem (candidate a (String "." b) i) = a +:+ "_" +:+ str_nat i.
Proof.
  intros Ha Hb Hr. unfold candidate.
  replace (a +:+ "_" +:+ str_nat i +:+ String "." b)
    with ((a +:+ "_" +:+ str_nat i) +:+ String "." b)
    by (rewrite !string_app_assoc; reflexivity).
  destruct (suffix_stem_of_parts (a +:+ "_" +:+ str_nat i) b) as (S1 & S2 & _);
    [apply string_app_nonempty_l, Ha|exact Hb|exact Hr|].
  auto.
Qed.

(** X5: a name chosen by the collision resolver keeps the extension of the
    requested name, and the name chosen for a converted HEIC file has the
    extension ".jpg": so a renamed media file is still enumerated as media,
    and a converted file is never taken for a HEIC file again. *)
Theorem X5_resolved_names_keep_extension {A} (dir : gmap string A)
    (filename : string) :
  (suffix filename ≠ "" →
   suffix (sort_media_by_date.resolve_collision dir filename) = suffix filename)
  ∧ (filename ≠ "" →
     suffix (heic_converter.get_jpg_output_path dir filename) = ".jpg").
Proof.
  split.
  - intros Hs. destruct (suffix_parts filename Hs) as (a & b & Hn & Ha & Hb & Hr & Hsuf & Hst).
    unfold sort_media_by_date.resolve_collision.
    destruct (dir !! filename) as [x|] eqn:Hd.
    + destruct (first_free_spec dir filename
                  (candidate (stem filename) (suffix filename))
                  (Inj0 := candidate_inj _ _)) as (_ & H2 & _).
      destruct H2 as (k & _ & -> & _); [eauto|].
      rewrite Hsuf, Hst. apply candidate_suffix; assumption.
    + destruct (first_free_spec dir filename
                  (candidate (stem filename) (suffix filename))
                  (Inj0 := candidate_inj _ _)) as (H1 & _).
      rewrite (H1 Hd). reflexivity.
  - intros Hn. pose proof (stem_nonempty filename Hn) as Hst.
    unfold heic_converter.get_jpg_output_path.
    destruct (first_free_spec dir (stem filename +:+ ".jpg")
                (candidate (stem filename) ".jpg")
                (Inj0 := candidate_inj _ _)) as (H1 & H2 & _).
    destruct (dir !! (stem filename +:+ ".jpg")) as [x|] eqn:Hd.
    + destruct H2 as (k & _ & -> & _); [eauto|].
      apply (candidate_suffix (stem filename) "jpg" k Hst); [discriminate|reflexivity].
    + rewrite (H1 eq_refl).
      apply (suffix_stem_of_parts (stem filename) "jpg" Hst); [discriminate|reflexivity].
Qed.

Lemma X5_resolved_names_keep_extension_witness :
  let dir : gmap string unit := {[ "shot.JPG" := (); "shot_1.JPG" := () ]} in
  suffix (sort_media_by_date.resolve_collision dir "shot.JPG") = suffix "shot.JPG"
  ∧ suffix (heic_converter.get_jpg_output_path dir "IMG_1.HEIC") = ".jpg".
Proof.
  intros dir. split.
  - apply (proj1 (X5_resolved_names_keep_extension dir "shot.JPG")).
    vm_compute. discriminate.
  - apply (proj2 (X5_resolved_names_keep_extension dir "IMG_1.HEIC")).
    discriminate.
Defined.

Lemma lower_ascii_dot c : lower_ascii c = "."%char ↔ c = "."%char.
Proof.
  split; [|intros ->; reflexivity].
  unfold lower_ascii, is_upper.
  destruct ((65 <=? nat_of_ascii c)%nat && (nat_of_ascii c <=? 90)%nat) eqn:Hu;
    [|auto].
  apply andb_true_iff in Hu as [H1 H2].
  apply Nat.leb_le in H1, H2. intros H.
  apply (f_equal nat_of_ascii) in H.
  rewrite nat_ascii_embedding in H by lia.
  change (nat_of_ascii "."%char) with 46%nat in H. lia.
Qed.

Lemma rfind_lower (s : string) : rfind "." (lower s) = rfind "." s.
Proof.
  induction s as [|c s IH]; [reflexivity|].
  cbn [lower rfind]. rewrite IH. destruct (rfind "." s); [reflexivity|].
  destruct (decide (c = "."%char)) as [->|Hne].
  - rewrite decide_True by reflexivity. reflexivity.
  - rewrite decide_False; [reflexivity|]. rewrite lower_ascii_dot. exact Hne.
Qed.

Lemma lower_nonempty (s : string) : s ≠ "" → lower s ≠ "".
Proof. rewrite lower_empty. auto. Qed.

(** The extension [generate_descriptive_filename] appends, for a target
    format produced by [_normalize_target_format]. *)
Lemma extension_shape (fmt name : string) :
  let target := master._normalize_target_format fmt in
  let source_ext :=
    if in_set (lower (suffix name)) master.CONVERT_TO_JPG then ".jpg"
    else if truthy (lower (suffix name)) then lower (suffix name) else ".jpg" in
  let extension :=
    match target with
    | Some e => if truthy e && in_set (lower (suffix name)) master.IMAGE_EXT
                then e else source_ext
    | None => source_ext
    end in
  ∃ b, extension = String "." b ∧ b ≠ "" ∧ rfind "." b = None
       ∧ (extension = ".jpg" ∨ extension = ".png"
          ∨ extension = lower (suffix name)).
Proof.
  intros target source_ext extension.
  assert (∃ b, source_ext = String "." b ∧ b ≠ "" ∧ rfind "." b = None
               ∧ (source_ext = ".jpg" ∨ source_ext = ".png"
                  ∨ source_ext = lower (suffix name))) as Hsrc.
  { subst source_ext.
    destruct (in_set (lower (suffix name)) master.CONVERT_TO_JPG);
      [exists "jpg"; repeat split; auto; discriminate|].
    destruct (truthy (lower (suffix name))) eqn:Ht;
      [|exists "jpg"; repeat split; auto; discriminate].
    apply truthy_true in Ht. rewrite lower_empty in Ht.
    destruct (suffix_parts name Ht) as (a & b & _ & _ & Hb & Hr & Hs & _).
    exists (lower b). rewrite Hs. cbn [lower].
    split; [reflexivity|]. split; [apply lower_nonempty, Hb|].
    split; [rewrite rfind_lower; exact Hr|auto]. }
  subst extension target. rewrite normalize_spec.
  destruct (in_set (lower fmt) ["jpg"; "jpeg"]).
  - destruct (truthy ".jpg" && in_set (lower (suffix name)) master.IMAGE_EXT);
      [exists "jpg"; repeat split; auto; discriminate|exact Hsrc].
  - destruct (bool_decide (lower fmt = "png")); [|exact Hsrc].
    destruct (truthy ".png" && in_set (lower (suffix name)) master.IMAGE_EXT);
      [exists "png"; repeat split; auto; discriminate|exact Hsrc].
Qed.

(** X6: for every configured target format the composed filename ends in an
    extension -- ".jpg", ".png" or the lower-cased source extension, ".jpg"
    when the source has none --, and [rsplit('.', 1)] splits it exactly
    there; the name picked after the conflict loop keeps that extension. *)
Theorem X6_composed_filename_splits_at_extension (fmt name : string)
    (ts : datetime) (a : master.analysis) (temp : gmap string entry)
    (date_folder : string) :
  let new_filename :=
    master.generate_descriptive_filename (master._normalize_target_format fmt)
      name ts a in
  ∃ base_name ext,
    rsplit_dot new_filename = Some (base_name, ext)
    ∧ new_filename = base_name +:+ "." +:+ ext
    ∧ suffix new_filename = "." +:+ ext
    ∧ ("." +:+ ext = ".jpg" ∨ "." +:+ ext = ".png"
       ∨ "." +:+ ext = lower (suffix name))
    ∧ suffix (master_run.free_final_name temp date_folder new_filename
                base_name ext) = "." +:+ ext.
Proof.
  intros new_filename. subst new_filename.
  unfold master.generate_descriptive_filename.
  destruct (extension_shape fmt name) as (b & Hext & Hb & Hr & Hwhich).
  cbv zeta in Hext, Hwhich. rewrite Hext in *.
  set (descr := match master.tags a with [] => _ | _ => _ end).
  set (base := strftime_Ymd_HM ts +:+ "_" +:+ descr).
  replace (strftime_Ymd_HM ts +:+ "_" +:+ descr +:+ String "." b)
    with (base +:+ String "." b)
    by (subst base; rewrite !string_app_assoc; reflexivity).
  assert (base ≠ "") as Hbase.
  { subst base. intros H. apply (f_equal String.length) in H.
    rewrite !string_length_app in H. simpl in H. lia. }
  destruct (suffix_stem_of_parts base b Hbase Hb Hr) as (S1 & S2 & S3).
  exists base, b. split; [exact S3|]. split; [reflexivity|].
  split; [exact S1|]. split; [exact Hwhich|].
  unfold master_run.free_final_name.
  destruct (first_free_spec (folder temp date_folder) (base +:+ String "." b)
              (candidate base ("." +:+ b)) (Inj0 := candidate_inj _ _))
    as (H1 & H2 & _).
  change (λ counter : nat, base +:+ "_" +:+ str_nat counter +:+ "." +:+ b)
    with (candidate base ("." +:+ b)).
  destruct (folder temp date_folder !! (base +:+ String "." b)) as [x|] eqn:Hd.
  - destruct H2 as (k & _ & -> & _); [eauto|].
    apply (candidate_suffix base b k Hbase Hb Hr).
  - rewrite (H1 eq_refl). exact S1.
Qed.

Section strip_facts.

Lemma rstrip_head c r : is_space c = false → ∃ r', rstrip (String c r) = String c r'.
Proof. intros Hc. cbn [rstrip]. rewrite Hc. destruct (rstrip r); eauto. Qed.

Lemma lstrip_head (s : string) :
  lstrip s = "" ∨ ∃ c r, lstrip s = String c r ∧ is_space c = false.
Proof.
  induction s as [|c s IH]; [left; reflexivity|]. cbn [lstrip].
  destruct (is_space c) eqn:Hc; [exact IH|]. right. eauto.
Qed.

Lemma rstrip_idem (s : string) : rstrip (rstrip s) = rstrip s.
Proof.
  induction s as [|c s IH]; [reflexivity|]. cbn [rstrip].
  destruct (rstrip s) as [|x r'] eqn:Hr.
  - destruct (is_space c) eqn:Hc; [reflexivity|]. cbn [rstrip]. rewrite Hc.
    reflexivity.
  - cbn [rstrip]. cbn [rstrip] in IH. rewrite IH. reflexivity.
Qed.

Lemma strip_idem (s : string) : strip (strip s) = strip s.
Proof.
  unfold strip. destruct (lstrip_head s) as [->|(c & r & -> & Hc)]; [reflexivity|].
  destruct (rstrip_head c r Hc) as [r' Hr]. rewrite Hr.
  cbn [lstrip]. rewrite Hc, <- Hr. apply rstrip_idem.
Qed.
End strip_facts.

Section prepare_tags.
Import master_tags master_config.

Lemma clean_loop_spec (tags : list string) : ∀ cleaned,
  NoDup cleaned → Forall clean_tag cleaned →
  let r := clean_loop tags cleaned in
  NoDup r ∧ Forall clean_tag r ∧ cleaned `prefix_of` r
  ∧ (∀ x, x ∈ r ↔ x ∈ cleaned ∨ (x ≠ "" ∧ ∃ tag, tag ∈ tags ∧ x = strip tag)).
Proof.
  induction tags as [|tag tags IH]; intros cleaned Hnd Hcl; cbn [clean_loop].
  { split; [exact Hnd|]. split; [exact Hcl|]. split; [reflexivity|].
    intros x. split; [auto|]. intros [H|(_ & t & Ht & _)]; [exact H|inversion Ht]. }
  destruct (truthy (strip tag) && negb (in_set (strip tag) cleaned)) eqn:Hc.
  - apply andb_true_iff in Hc as [Ht Hn]. apply truthy_true in Ht.
    apply negb_true_iff, in_set_false in Hn.
    destruct (IH (cleaned ++ [strip tag])) as (I1 & I2 & I3 & I4).
    + apply NoDup_app. split; [exact Hnd|]. split; [|apply NoDup_singleton].
      intros x Hx Hx'. apply list_elem_of_singleton in Hx'. subst x. auto.
    + apply Forall_app. split; [exact Hcl|]. constructor; [|constructor].
      split; [exact Ht|apply strip_idem].
    + split; [exact I1|]. split; [exact I2|]. split.
      * etransitivity; [|exact I3]. apply prefix_app_r. reflexivity.
      * intros x. rewrite I4, elem_of_app, list_elem_of_singleton. split.
        -- intros [[H| ->]|(Hx & t & Hin & ->)]; [auto| |].
           ++ right. split; [exact Ht|]. exists tag. split; [left|reflexivity].
           ++ right. split; [exact Hx|]. exists t. split; [right; exact Hin|reflexivity].
        -- intros [H|(Hx & t & Hin & ->)]; [auto|].
           apply elem_of_cons in Hin as [->|Hin]; [auto|].
           right. split; [exact Hx|]. eauto.
  - destruct (IH cleaned Hnd Hcl) as (I1 & I2 & I3 & I4).
    split; [exact I1|]. split; [exact I2|]. split; [exact I3|].
    intros x. rewrite I4. split.
    + intros [H|(Hx & t & Hin & ->)]; [auto|].
      right. split; [exact Hx|]. exists t. split; [right; exact Hin|reflexivity].
    + intros [H|(Hx & t & Hin & ->)]; [auto|].
      apply elem_of_cons in Hin as [->|Hin].
      * left. apply andb_false_iff in Hc as [Hc|Hc].
        -- exfalso. apply Hx. apply not_true_iff_false in Hc.
           rewrite truthy_true in Hc. destruct (decide (strip tag = "")); tauto.
        -- apply negb_false_iff, in_set_true in Hc. exact Hc.
      * right. split; [exact Hx|]. eauto.
Qed.

Lemma clean_loop_fixed (l : list string) : ∀ cleaned,
  NoDup (cleaned ++ l) → Forall clean_tag l →
  clean_loop l cleaned = cleaned ++ l.
Proof.
  induction l as [|x l IH]; intros cleaned Hnd Hcl; cbn [clean_loop].
  { rewrite app_nil_r. reflexivity. }
  apply Forall_cons in Hcl as [[Hx Hs] Hcl]. rewrite Hs.
  assert (truthy x = true) as -> by (apply truthy_true, Hx).
  assert (in_set x cleaned = false) as ->.
  { apply in_set_false. apply NoDup_app in Hnd as (_ & Hd & _).
    intros Hin. apply (Hd x Hin). left. }
  cbn [andb negb]. rewrite IH; [rewrite <- app_assoc; reflexivity| |exact Hcl].
  rewrite <- app_assoc. exact Hnd.
Qed.

Lemma default_tags_clean :
  NoDup DEFAULT_TAGS ∧ Forall clean_tag DEFAULT_TAGS
  ∧ clean_loop DEFAULT_TAGS [] = DEFAULT_TAGS.
Proof.
  assert (NoDup DEFAULT_TAGS) as Hnd.
  { apply (bool_decide_unpack _). vm_compute. exact I. }
  assert (Forall clean_tag DEFAULT_TAGS) as Hcl.
  { unfold DEFAULT_TAGS. repeat (constructor; [split; [discriminate|vm_compute; reflexivity]|]).
    constructor. }
  split; [exact Hnd|]. split; [exact Hcl|].
  apply (clean_loop_fixed DEFAULT_TAGS []); assumption.
Qed.

Lemma prepare_tags_spec (tags : option (list string)) :
  let r := _prepare_tags tags in
  r ≠ [] ∧ NoDup r ∧ Forall clean_tag r.
Proof.
  destruct default_tags_clean as (D1 & D2 & D3).
  cbv zeta. unfold _prepare_tags.
  set (source := match tags with Some (t :: rest) => t :: rest | _ => DEFAULT_TAGS end).
  destruct (clean_loop_spec source [] (NoDup_nil_2) (Forall_nil_2 _))
    as (H1 & H2 & _).
  destruct (clean_loop source []) as [|x r]; [|auto].
  split; [discriminate|auto].
Qed.
End prepare_tags.

(** X7: [_prepare_tags] always returns a list that is not empty and has no
    repetition, whose tags are not empty and carry no white space at either
    end; a tag is in it exactly when it is the stripped form of a given tag
    (the default tags standing in when none is given or all are blank); and
    preparing a prepared list changes nothing. *)
Theorem X7_prepare_tags (tags : option (list string)) :
  let r := master_config._prepare_tags tags in
  r ≠ [] ∧ NoDup r ∧ Forall clean_tag r
  ∧ master_config._prepare_tags (Some r) = r
  ∧ (∀ l, tags = Some l → (∃ tag, tag ∈ l ∧ strip tag ≠ "") →
       ∀ x, x ∈ r ↔ x ≠ "" ∧ ∃ tag, tag ∈ l ∧ x = strip tag)
  ∧ (∀ l, tags = Some l → (∀ tag, tag ∈ l → strip tag = "") →
       r = master_tags.DEFAULT_TAGS)
  ∧ (tags = None → r = master_tags.DEFAULT_TAGS).
Proof.
  intros r. destruct (prepare_tags_spec tags) as (H1 & H2 & H3). fold r in H1, H2, H3.
  destruct default_tags_clean as (D1 & D2 & D3).
  split; [exact H1|]. split; [exact H2|]. split; [exact H3|].
  split; [|split; [|split]].
  - unfold master_config._prepare_tags at 1.
    destruct r as [|x r'] eqn:Hr; [congruence|].
    rewrite (clean_loop_fixed (x :: r') []); [reflexivity|exact H2|exact H3].
  - intros l -> (tag0 & Hin0 & Hne0) x. subst r.
    unfold master_config._prepare_tags.
    destruct l as [|t rest]; [inversion Hin0|].
    destruct (clean_loop_spec (t :: rest) [] (NoDup_nil_2) (Forall_nil_2 _))
      as (_ & _ & _ & Hmem).
    cbv zeta in Hmem.
    destruct (master_config.clean_loop (t :: rest) []) as [|y r'] eqn:Hloop.
    + exfalso. apply (not_elem_of_nil (strip tag0)). apply Hmem. right. eauto.
    + rewrite Hmem. split; [intros [H|H]; [inversion H|exact H]|auto].
  - intros l -> Hblank. subst r. unfold master_config._prepare_tags.
    destruct l as [|t rest]; [rewrite D3; reflexivity|].
    destruct (clean_loop_spec (t :: rest) [] (NoDup_nil_2) (Forall_nil_2 _))
      as (_ & _ & _ & Hmem).
    cbv zeta in Hmem.
    destruct (master_config.clean_loop (t :: rest) []) as [|y r'] eqn:Hloop;
      [reflexivity|].
    exfalso. destruct (proj1 (Hmem y)) as [H|(Hy & tag & Hin & ->)]; [left|inversion H|].
    apply Hy, Hblank, Hin.
  - intros ->. subst r. unfold master_config._prepare_tags. rewrite D3. reflexivity.
Qed.

Lemma X7_prepare_tags_witness :
  master_config._prepare_tags (Some ["  kerb "; ""; "kerb"; " pit lid"])
  = ["kerb"; "pit lid"]
  ∧ master_config._prepare_tags (Some [" "; ""]) = master_tags.DEFAULT_TAGS
  ∧ master_config._prepare_tags None = master_tags.DEFAULT_TAGS.
Proof.
  split; [vm_compute; reflexivity|]. split.
  - apply (X7_prepare_tags (Some [" "; ""])) with (l := [" "; ""]); [reflexivity|].
    intros tag Hin. repeat (apply elem_of_cons in Hin as [->|Hin]; [reflexivity|]).
    inversion Hin.
  - apply (X7_prepare_tags None). reflexivity.
Defined.

Section path_safety.
Import master master_tags.

Lemma has_char_app c (a b : string) :
  has_char c (a +:+ b) = has_char c a || has_char c b.
Proof.
  induction a as [|x a IH]; [reflexivity|].
  rewrite string_app_cons. cbn [has_char]. rewrite IH. apply orb_assoc.
Qed.

Lemma has_char_replaced a b (s : string) :
  a ≠ b → has_char a (replace_char a b s) = false.
Proof.
  intros Hab. induction s as [|x s IH]; [reflexivity|].
  cbn [replace_char has_char]. rewrite IH, orb_false_r.
  apply bool_decide_eq_false. destruct (decide (x = a)); congruence.
Qed.

Lemma has_char_replace_other c a b (s : string) :
  b ≠ c → has_char c s = false → has_char c (replace_char a b s) = false.
Proof.
  intros Hbc. induction s as [|x s IH]; [reflexivity|].
  cbn [replace_char has_char]. intros H. apply orb_false_iff in H as [Hx Hs].
  rewrite (IH Hs), orb_false_r. apply bool_decide_eq_false.
  apply bool_decide_eq_false in Hx. destruct (decide (x = a)); congruence.
Qed.

Lemma sanitised_safe (tag : string) :
  path_safe (replace_char "/" "_" (replace_char " " "_" tag)).
Proof.
  split.
  - apply has_char_replaced. discriminate.
  - apply has_char_replace_other; [discriminate|].
    apply has_char_replaced. discriminate.
Qed.

Lemma clip_tags_loop_safe cats idxs : ∀ acc r,
  Forall path_safe acc → clip_tags_loop cats idxs acc = Some r →
  Forall path_safe r.
Proof.
  induction idxs as [|i idxs IH]; intros acc r Hacc; cbn [clip_tags_loop].
  { intros [= <-]. exact Hacc. }
  destruct (cats !! i) as [tag|]; [|discriminate].
  apply IH. destruct (in_set _ acc); [exact Hacc|].
  apply Forall_app. split; [exact Hacc|]. constructor; [|constructor].
  apply sanitised_safe.
Qed.

Lemma color_tags_safe image : Forall path_safe (_color_tags image).
Proof.
  assert (Forall path_safe color_labels) as Hall.
  { unfold color_labels. repeat (constructor; [split; reflexivity|]). constructor. }
  rewrite Forall_forall in Hall |- *. intros x Hx. apply Hall.
  eapply elem_of_sublist; [exact Hx|apply color_tags_sublist].
Qed.

Lemma heuristic_only_safe color :
  Forall path_safe color →
  Forall path_safe (tags (heuristic_only color))
  ∧ path_safe (description (heuristic_only color)).
Proof.
  intros Hc. unfold heuristic_only. destruct color as [|c color].
  - cbn. split; [repeat constructor|split; reflexivity].
  - cbn [tags description hd]. split.
    + rewrite Forall_forall in Hc |- *. intros x Hx. apply Hc.
      eapply elem_of_sublist; [exact Hx|apply sublist_take].
    + apply Forall_cons in Hc as [Hc _]. exact Hc.
Qed.

Lemma analysis_safe ai_analyzer ai_tags image clip :
  let a := analyze_photo_content ai_analyzer ai_tags image clip in
  Forall path_safe (tags a) ∧ path_safe (description a).
Proof.
  cbv zeta. unfold analyze_photo_content.
  pose proof (heuristic_only_safe _ (color_tags_safe image)) as Hh.
  destruct ai_analyzer; cbn [negb]; [|exact Hh].
  destruct clip as [[|i top]|]; [exact Hh| |exact Hh].
  destruct (clip_tags_loop _ (i :: top) []) as [ct|] eqn:Hloop; [|exact Hh].
  pose proof (clip_tags_loop_safe _ _ _ _ (Forall_nil_2 _) Hloop) as Hct.
  cbn [tags description].
  assert (Forall path_safe (merge_loop (_color_tags image ++ ct) [])) as Hm.
  { rewrite merged_tags_spec. rewrite Forall_forall. intros x Hx.
    apply (λ H, elem_of_sublist _ _ _ H (sublist_take _ _)) in Hx.
    apply dedup_onto_elem in Hx as [Hx|Hx]; [inversion Hx|].
    apply elem_of_app in Hx as [Hx|Hx].
    - revert x Hx. apply Forall_forall, color_tags_safe.
    - revert x Hx. apply Forall_forall, Hct. }
  split; [exact Hm|].
  destruct (merge_loop _ []) as [|m ms]; [split; reflexivity|].
  apply Forall_cons in Hm as [Hm _]. exact Hm.
Qed.

Lemma join_no_char c (l : list string) :
  c ≠ "_"%char → Forall (λ s, has_char c s = false) l →
  has_char c (join "_" l) = false.
Proof.
  intros Hc. induction l as [|x l IH]; intros H; [reflexivity|].
  apply Forall_cons in H as [Hx Hl]. cbn [join].
  destruct l as [|y l]; [exact Hx|].
  rewrite !has_char_app, Hx, (IH Hl). cbn [has_char orb].
  rewrite bool_decide_eq_false_2 by congruence. reflexivity.
Qed.

Lemma digits_no_char c (s : string) :
  is_digit c = false → all_digits s = true → has_char c s = false.
Proof.
  intros Hc. induction s as [|x s IH]; [reflexivity|]. cbn [all_digits has_char].
  intros H. apply andb_true_iff in H as [Hx Hs]. rewrite (IH Hs), orb_false_r.
  apply bool_decide_eq_false. intros ->. congruence.
Qed.

Lemma strftime_no_slash ts : has_char "/" (strftime_Ymd_HM ts) = false.
Proof.
  unfold strftime_Ymd_HM, strftime_Ymd. rewrite !has_char_app.
  rewrite !(digits_no_char "/" (pad _ _)) by (reflexivity || apply pad_digits).
  reflexivity.
Qed.

Lemma lower_ascii_slash c : lower_ascii c = "/"%char ↔ c = "/"%char.
Proof.
  split; [|intros ->; reflexivity].
  unfold lower_ascii, is_upper.
  destruct ((65 <=? nat_of_ascii c)%nat && (nat_of_ascii c <=? 90)%nat) eqn:Hu;
    [|auto].
  apply andb_true_iff in Hu as [H1 H2].
  apply Nat.leb_le in H1, H2. intros H.
  apply (f_equal nat_of_ascii) in H.
  rewrite nat_ascii_embedding in H by lia.
  change (nat_of_ascii "/"%char) with 47%nat in H. lia.
Qed.

Lemma has_slash_lower (s : string) : has_char "/" (lower s) = has_char "/" s.
Proof.
  induction s as [|c s IH]; [reflexivity|]. cbn [lower has_char]. rewrite IH.
  f_equal. apply bool_decide_ext, lower_ascii_slash.
Qed.
End path_safety.

(** X8: every tag and the description returned by [analyze_photo_content]
    are free of '/' and of blanks, whatever candidate tags were configured
    (the classifier's labels have both replaced by '_'); hence the filename
    composed from them holds no '/' as long as the extension of the source
    file holds none. *)
Theorem X8_tags_are_path_safe (ai_analyzer : bool) (ai_tags : list string)
    (image : option master_tags.color_ratios) (clip : option (list nat)) :
  let a := master_tags.analyze_photo_content ai_analyzer ai_tags image clip in
  Forall path_safe (master.tags a)
  ∧ path_safe (master.description a)
  ∧ ∀ (fmt name : string) ts,
      has_char "/" (suffix name) = false →
      has_char "/" (master.generate_descriptive_filename
                      (master._normalize_target_format fmt) name ts a) = false.
Proof.
  intros a. destruct (analysis_safe ai_analyzer ai_tags image clip) as [Ht Hd].
  fold a in Ht, Hd. split; [exact Ht|]. split; [exact Hd|].
  intros fmt name ts Hs.
  destruct (extension_shape fmt name) as (b & Hext & _ & _ & Hwhich).
  cbv zeta in Hext, Hwhich.
  unfold master.generate_descriptive_filename. rewrite !has_char_app.
  rewrite strftime_no_slash. cbn [has_char orb].
  rewrite bool_decide_eq_false_2 by discriminate. cbn [orb].
  apply orb_false_iff. split.
  - destruct (master.tags a) as [|x l] eqn:Htags; [apply Hd|].
    apply join_no_char; [discriminate|].
    rewrite Forall_forall in Ht |- *. intros y Hy. apply Ht.
    eapply elem_of_sublist; [exact Hy|apply sublist_take].
  - destruct Hwhich as [Hw|[Hw|Hw]]; rewrite Hw;
      [reflexivity|reflexivity|].
    rewrite has_slash_lower. exact Hs.
Qed.

Lemma X8_tags_are_path_safe_witness :
  has_char "/" (master.generate_descriptive_filename
                  (master._normalize_target_format "auto") "IMG_1.PNG"
                  (mk_datetime 2024 1 15 9 15 0)
                  (master_tags.analyze_photo_content true
                     ["cut/fill batter"; "kerb and channel"] None
                     (Some [0; 1]%nat))) = false
  ∧ master.tags (master_tags.analyze_photo_content true
                   ["cut/fill batter"; "kerb and channel"] None
                   (Some [0; 1]%nat))
    = ["cut_fill_batter"; "kerb_and_channel"].
Proof.
  split; [|vm_compute; reflexivity].
  apply (X8_tags_are_path_safe true ["cut/fill batter"; "kerb and channel"]
           None (Some [0; 1]%nat)).
  vm_compute. reflexivity.
Defined.

Section master_whole_run.
Import master_run master_batch.
Context (ls : listing) (Hls : listing_ok ls) (w : collaborators).

Lemma master_fold_sources cfg input (media_files : list string) : ∀ temp results,
  original_path <$> (fold_left (process_step w cfg input) media_files
                       (temp, results)).2
  = (original_path <$> results) ++ media_files.
Proof.
  induction media_files as [|p files IH]; intros temp results; cbn [fold_left].
  { rewrite app_nil_r. reflexivity. }
  unfold process_step at 2. cbn [fst snd].
  pose proof (process_single_photo_failure w cfg input temp p) as [Hp _].
  destruct (process_single_photo w cfg input temp p) as [temp' r].
  cbn [snd] in Hp. rewrite IH, fmap_app. cbn [fmap list_fmap].
  rewrite Hp, <- app_assoc. reflexivity.
Qed.

Lemma folders_of_lookup t k :
  folders_of t !! k = match t !! k with
                      | Some (Dir its) => Some (Dir its)
                      | _ => None
                      end.
Proof.
  unfold folders_of. destruct (t !! k) as [[f|its]|] eqn:Hk.
  - apply map_lookup_filter_None. right. intros e He [x Hx]. simpl in Hx.
    congruence.
  - apply map_lookup_filter_Some. split; [exact Hk|]. simpl. eauto.
  - apply map_lookup_filter_None. left. exact Hk.
Qed.

(** Copying into a directory with none of the folders: nothing is merged,
    nothing fails, every folder arrives as it is. *)
Lemma copy_fold_fresh temp l : NoDup l → ∀ out,
  (∀ d, d ∈ l → is_dir temp d = true → out !! d = None) →
  ∃ out', fold_left (copy_folder ls temp) l (out, false) = (out', false)
    ∧ ∀ k, out' !! k = if bool_decide (k ∈ l) && is_dir temp k
                       then Some (Dir (folder temp k)) else out !! k.
Proof.
  induction l as [|d l IH]; intros Hnd out Hfree; cbn [fold_left].
  { exists out. split; [reflexivity|]. intros k.
    rewrite bool_decide_eq_false_2 by apply not_elem_of_nil. reflexivity. }
  apply NoDup_cons in Hnd as [Hd Hnd].
  unfold copy_folder at 2.
  destruct (is_dir temp d) eqn:Hdir; cbn [negb].
  - rewrite (proj2 (exists_in_false out d)) by (apply Hfree; [left|exact Hdir]).
    destruct (IH Hnd (<[d := Dir (folder temp d)]> out)) as (out' & Hfold & Hl).
    { intros k Hk Hkd. rewrite lookup_insert_ne by (intros ->; contradiction).
      apply Hfree; [right; exact Hk|exact Hkd]. }
    exists out'. split; [exact Hfold|]. intros k. rewrite Hl.
    destruct (decide (k = d)) as [->|Hne].
    + rewrite (bool_decide_eq_false_2 (d ∈ l)) by exact Hd.
      rewrite (bool_decide_eq_true_2 (d ∈ d :: l)) by left.
      rewrite Hdir. cbn [andb]. apply lookup_insert_eq.
    + rewrite lookup_insert_ne by congruence.
      rewrite (bool_decide_ext (k ∈ d :: l) (k ∈ l)); [reflexivity|].
      rewrite elem_of_cons. tauto.
  - destruct (IH Hnd out) as (out' & Hfold & Hl).
    { intros k Hk Hkd. apply Hfree; [right; exact Hk|exact Hkd]. }
    exists out'. split; [exact Hfold|]. intros k. rewrite Hl.
    destruct (decide (k = d)) as [->|Hne].
    + rewrite Hdir, !andb_false_r. reflexivity.
    + rewrite (bool_decide_ext (k ∈ d :: l) (k ∈ l)); [reflexivity|].
      rewrite elem_of_cons. tauto.
Qed.

Lemma copy_into_empty temp :
  (fold_left (copy_folder ls temp) (ls _ temp) (∅, false)).1 = folders_of temp.
Proof.
  destruct (copy_fold_fresh temp (ls _ temp) (listing_NoDup ls Hls temp) ∅)
    as (out' & Hfold & Hl); [intros; apply lookup_empty|].
  rewrite Hfold. cbn [fst]. apply map_eq. intros k.
  rewrite Hl, folders_of_lookup, lookup_empty. unfold is_dir, folder.
  destruct (temp !! k) as [[f|its]|] eqn:Hk; rewrite ?andb_false_r; try reflexivity.
  rewrite bool_decide_eq_true_2; [reflexivity|].
  apply (listing_elem ls Hls). eauto.
Qed.
End master_whole_run.

(** X9: a dry run of the master pipeline never touches the output directory
    or the log inside it: it empties the temporary directory, leaves it in
    place, and writes its log, one result per media file in order, into the
    working directory. *)
Theorem X9_master_dry_run_effects (ls : listing) (w : collaborators)
    (cfg : master_run.config) (input : gmap string file)
    (media_files : list string) (d : master_batch.disk) :
  master_run.dry_run cfg = true →
  let r := master_batch.run ls w cfg input media_files d in
  master_batch.output_dir r.1.1 = master_batch.output_dir d
  ∧ master_batch.output_log r.1.1 = master_batch.output_log d
  ∧ master_batch.temp_dir r.1.1 = Some ∅
  ∧ master_run.original_path <$> r.1.2 = media_files
  ∧ (media_files ≠ [] → master_batch.cwd_log r.1.1 = Some r.1.2)
  ∧ (media_files = [] → master_batch.cwd_log r.1.1 = master_batch.cwd_log d
                        ∧ r.2 = false).
Proof.
  intros Hdry. cbv zeta. unfold master_batch.run.
  destruct media_files as [|p files].
  { unfold master_batch.cleanup_temp_directory, master_batch.setup_temp_directory.
    cbn. rewrite Hdry. cbn. repeat split; congruence. }
  pose proof (master_dry_fold w cfg input (p :: files) Hdry ∅ []) as Htemp.
  pose proof (master_fold_sources w cfg input (p :: files) ∅ []) as Hsrc.
  destruct (fold_left _ (p :: files) (∅, [])) as [temp plog].
  cbn [fst snd] in *. subst temp.
  unfold master_batch.copy_to_final_destination, master_batch.write_master_log,
    master_batch.cleanup_temp_directory, master_batch.setup_temp_directory.
  rewrite Hdry. cbn. rewrite ?Hdry. cbn.
  repeat split; try congruence. exact Hsrc.
Qed.

Lemma X9_master_dry_run_effects_witness :
  let w := mk_collaborators true (λ f, Saved f) (λ _ f, Saved f) false
             (λ _, None) (λ _ _, None) in
  let f := mk_file 10 1 None None (mk_datetime 2024 2 1 10 0 0) in
  let input : gmap string file := {[ "a.jpg" := f; "b.heic" := f ]} in
  let d := master_batch.mk_disk (Some {[ "old.jpg" := File f ]})
             (Some {[ "20240201" := Dir ∅ ]}) None None in
  let r := master_batch.run default_listing w (master_run.mk_config true None [])
             input ["a.jpg"; "b.heic"] d in
  master_batch.output_dir r.1.1 = Some {[ "20240201" := Dir ∅ ]}
  ∧ master_batch.temp_dir r.1.1 = Some ∅.
Proof.
  intros w f input d r.
  destruct (X9_master_dry_run_effects default_listing w
              (master_run.mk_config true None []) input ["a.jpg"; "b.heic"] d
              eq_refl) as (H1 & _ & H3 & _).
  split; [exact H1|exact H3].
Defined.

(** X10: a live run of the master pipeline over at least one file removes
    the temporary directory, writes its log (one result per media file, in
    order) into the output directory in place of any earlier one, and keeps
    every regular file and every folder entry the output directory held.
    Into an output directory that is missing or empty it delivers exactly the
    date folders built in the temporary directory, so every destination a
    result names is there. *)
Theorem X10_master_live_run_effects (ls : listing) (w : collaborators)
    (cfg : master_run.config) (input : gmap string file)
    (media_files : list string) (d : master_batch.disk) :
  listing_ok ls → master_run.dry_run cfg = false → media_files ≠ [] →
  let st := fold_left (master_run.process_step w cfg input) media_files (∅, []) in
  let r := master_batch.run ls w cfg input media_files d in
  let before := default ∅ (master_batch.output_dir d) in
  r.1.2 = st.2
  ∧ master_run.original_path <$> r.1.2 = media_files
  ∧ master_batch.temp_dir r.1.1 = None
  ∧ master_batch.cwd_log r.1.1 = master_batch.cwd_log d
  ∧ master_batch.output_log r.1.1 = Some r.1.2
  ∧ (∃ out, master_batch.output_dir r.1.1 = Some out
       ∧ (∀ k g, before !! k = Some (File g) → out !! k = Some (File g))
       ∧ (∀ k its, before !! k = Some (Dir its) →
            ∃ its', out !! k = Some (Dir its') ∧ its ⊆ its')
       ∧ (before = ∅ →
          out = folders_of st.1
          ∧ ∀ res dd n, res ∈ r.1.2 →
              master_run.final_path res = Some (dd, n) → holds out dd n)).
Proof.
  intros Hls Hlive Hne. cbv zeta. unfold master_batch.run.
  destruct media_files as [|p files]; [congruence|].
  pose proof (master_fold_sources w cfg input (p :: files) ∅ []) as Hsrc.
  pose proof (master_fold w cfg input (p :: files) Hlive ∅ []
                (Forall_nil_2 _) (NoDup_nil_2)) as [Hinv _].
  destruct (fold_left _ (p :: files) (∅, [])) as [temp plog] eqn:Hfold.
  cbn [fst snd] in *.
  unfold master_batch.copy_to_final_destination, master_batch.write_master_log,
    master_batch.cleanup_temp_directory, master_batch.setup_temp_directory.
  rewrite Hlive. cbn. rewrite ?Hlive. cbn.
  split; [reflexivity|]. split; [exact Hsrc|]. split; [reflexivity|].
  split; [reflexivity|]. split; [reflexivity|].
  set (before := default ∅ (master_batch.output_dir d)).
  eexists. split; [reflexivity|].
  destruct (fold_left (master_batch.copy_folder ls temp) (ls _ temp)
              (before, false)) as [out ab] eqn:Hcopy.
  destruct (copy_fold ls temp (ls _ temp) (listing_NoDup ls Hls temp)
              before out ab Hcopy) as (_ & C2 & C3 & _).
  cbn [fst]. split; [exact C2|]. split.
  - intros k its Hk. destruct (C3 k its Hk) as (its' & A & B & _). eauto.
  - intros Hempty.
    assert (out = folders_of temp) as ->.
    { rewrite <- (copy_into_empty ls Hls temp), <- Hempty, Hcopy. reflexivity. }
    split; [reflexivity|]. intros res dd n Hres Hfp.
    rewrite Forall_forall in Hinv. specialize (Hinv res Hres dd n Hfp).
    unfold holds, folder in *. rewrite folders_of_lookup.
    destruct (temp !! dd) as [[g|its]|]; [|exact Hinv|];
      rewrite lookup_empty in Hinv; destruct Hinv; discriminate.
Qed.

Lemma X10_master_live_run_effects_witness :
  let w := mk_collaborators true (λ f, Saved f) (λ _ f, Saved f) false
             (λ _, None) (λ _ _, None) in
  let f := mk_file 10 1 None None (mk_datetime 2024 2 1 10 0 0) in
  let input : gmap string file := {[ "a.jpg" := f; "b.heic" := f ]} in
  let d := master_batch.mk_disk (Some {[ "old.jpg" := File f ]}) None None None in
  let r := master_batch.run default_listing w (master_run.mk_config false None [])
             input ["a.jpg"; "b.heic"] d in
  master_batch.temp_dir r.1.1 = None
  ∧ master_batch.output_log r.1.1 = Some r.1.2
  ∧ master_batch.output_dir r.1.1
    = Some {[ "20240201" :=
                Dir {[ "20240201_1000_construction.jpg" := IFile f;
                       "20240201_1000_construction_1.jpg" := IFile f ]} ]}.
Proof.
  intros w f input d r.
  destruct (X10_master_live_run_effects default_listing w
              (master_run.mk_config false None []) input ["a.jpg"; "b.heic"] d
              default_listing_ok eq_refl) as (_ & _ & H3 & _ & H5 & _);
    [discriminate|].
  split; [exact H3|]. split; [exact H5|]. vm_compute. reflexivity.
Defined.

Section heic_single.
Import heic_converter_run.

Lemma jpg_output_free (dir : gmap string file) name :
  dir !! heic_converter.get_jpg_output_path dir name = None.
Proof.
  unfold heic_converter.get_jpg_output_path.
  apply (first_free_spec dir _ (candidate (stem name) ".jpg")
           (Inj0 := candidate_inj _ _)).
Qed.

Lemma convert_effect w dir name dry :
  let r := convert_heic_to_jpg w dir name dry in
  dir ⊆ r.1
  ∧ original_path r.2 = name
  ∧ (dry = true → r.1 = dir)
  ∧ (success r.2 = true →
       converted_path r.2 = heic_converter.get_jpg_output_path dir name
       ∧ dir !! converted_path r.2 = None
       ∧ ∃ f, dir !! name = Some f ∧ file_size_before r.2 = st_size f
              ∧ (dry = true → file_size_after r.2 = st_size f)
              ∧ (dry = false →
                 ∃ j, heic_to_jpg w f = Saved j
                      ∧ r.1 = <[converted_path r.2 := j]> dir
                      ∧ file_size_after r.2 = st_size j))
  ∧ (success r.2 = false → dry = false →
       r.1 = dir
       ∨ ∃ f part, dir !! name = Some f
                   ∧ heic_to_jpg w f = SaveFailed (Some part)
                   ∧ r.1 = <[heic_converter.get_jpg_output_path dir name := part]> dir).
Proof.
  cbv zeta. unfold convert_heic_to_jpg.
  pose proof (jpg_output_free dir name) as Hfree.
  set (jpg := heic_converter.get_jpg_output_path dir name) in *.
  destruct (pillow_heif w); cbn [negb].
  2:{ cbn. repeat split; try reflexivity; try discriminate. auto. }
  destruct (dir !! name) as [f|] eqn:Hf.
  2:{ cbn. repeat split; try reflexivity; try discriminate. auto. }
  destruct dry.
  { cbn. split; [reflexivity|]. split; [reflexivity|]. split; [reflexivity|].
    split; [|discriminate]. intros _. split; [reflexivity|]. split; [exact Hfree|].
    exists f. repeat split; try reflexivity. discriminate. }
  destruct (heic_to_jpg w f) as [j|[part|]] eqn:Hc; cbn.
  - split; [apply insert_subseteq, Hfree|]. split; [reflexivity|].
    split; [discriminate|]. split; [|discriminate].
    intros _. split; [reflexivity|]. split; [exact Hfree|].
    exists f. split; [reflexivity|]. split; [reflexivity|]. split; [discriminate|].
    intros _. exists j. auto.
  - split; [apply insert_subseteq, Hfree|]. split; [reflexivity|].
    split; [discriminate|]. split; [discriminate|].
    intros _ _. right. exists f, part. auto.
  - split; [reflexivity|]. split; [reflexivity|].
    split; [discriminate|]. split; [discriminate|]. auto.
Qed.
End heic_single.

(** X11: [convert_heic_to_jpg] of the batch converter never removes or
    changes a file that is in the directory, the original included.  A dry
    run changes nothing and reports the size of the original as the
    estimate.  A result with [success] names a path that was free before the
    call -- the one [get_jpg_output_path] picks -- and, in a live run, holds
    exactly what the converter wrote there.  A failed live conversion leaves
    the directory as it was, up to a partial file the converter left at the
    free path. *)
Theorem X11_batch_conversion_keeps_files (w : collaborators)
    (dir : gmap string file) (name : string) (dry_run : bool) :
  let r := heic_converter_run.convert_heic_to_jpg w dir name dry_run in
  dir ⊆ r.1
  ∧ heic_converter_run.original_path r.2 = name
  ∧ (dry_run = true → r.1 = dir)
  ∧ (heic_converter_run.success r.2 = true →
       heic_converter_run.converted_path r.2
       = heic_converter.get_jpg_output_path dir name
       ∧ dir !! heic_converter_run.converted_path r.2 = None
       ∧ ∃ f, dir !! name = Some f
              ∧ heic_converter_run.file_size_before r.2 = st_size f
              ∧ (dry_run = true →
                 heic_converter_run.file_size_after r.2 = st_size f)
              ∧ (dry_run = false →
                 ∃ j, heic_to_jpg w f = Saved j
                      ∧ r.1 = <[heic_converter_run.converted_path r.2 := j]> dir
                      ∧ heic_converter_run.file_size_after r.2 = st_size j))
  ∧ (heic_converter_run.success r.2 = false → dry_run = false →
       r.1 = dir
       ∨ ∃ f part, dir !! name = Some f
                   ∧ heic_to_jpg w f = SaveFailed (Some part)
                   ∧ r.1 = <[heic_converter.get_jpg_output_path dir name := part]> dir).
Proof.
  intros r. destruct (convert_effect w dir name dry_run) as (H1 & H2 & H3 & H4 & H5).
  fold r in H1, H2, H3, H4, H5.
  split; [exact H1|]. split; [exact H2|]. split; [exact H3|].
  split; [exact H4|exact H5].
Qed.

Lemma X11_batch_conversion_keeps_files_witness :
  let w := mk_collaborators true (λ f, Saved (mk_file 7 9 (exif_dto f) None (st_mtime f)))
             (λ _ f, Saved f) false (λ _, None) (λ _ _, None) in
  let f := mk_file 10 1 None None (mk_datetime 2024 2 1 10 0 0) in
  let dir : gmap string file := {[ "a.heic" := f; "a.jpg" := f ]} in
  let r := heic_converter_run.convert_heic_to_jpg w dir "a.heic" false in
  heic_converter_run.converted_path r.2 = "a_1.jpg"
  ∧ dir !! heic_converter_run.converted_path r.2 = None
  ∧ r.1 !! "a.heic" = Some f.
Proof.
  intros w f dir r.
  destruct (X11_batch_conversion_keeps_files w dir "a.heic" false)
    as (Hsub & _ & _ & Hs & _).
  destruct Hs as (H1 & H2 & _); [reflexivity|].
  split; [refine (eq_trans H1 _); vm_compute; reflexivity|]. split; [exact H2|].
  apply (lookup_weaken _ _ _ _ (eq_refl : dir !! "a.heic" = Some f) Hsub).
Defined.

Section heic_batch.
Import heic_converter_run.
Context (ls : listing) (w : collaborators).

Lemma endswith_app (a suf : string) : endswith suf (a +:+ suf) = true.
Proof.
  unfold endswith. rewrite string_length_app.
  apply andb_true_iff. split; [apply Nat.leb_le; lia|].
  apply bool_decide_eq_true.
  replace (String.length a + String.length suf - String.length suf)%nat
    with (String.length a) by lia.
  apply sdrop_app.
Qed.

Lemma endswith_unique (a b n : string) :
  endswith a n = true → endswith b n = true →
  String.length a = String.length b → a = b.
Proof.
  unfold endswith. intros Ha Hb Hl.
  apply andb_true_iff in Ha as [_ Ha]. apply andb_true_iff in Hb as [_ Hb].
  apply bool_decide_eq_true in Ha, Hb. rewrite <- Ha, <- Hb, Hl. reflexivity.
Qed.

Lemma sdrop_sdrop (i j : nat) (s : string) :
  sdrop i (sdrop j s) = sdrop (j + i) s.
Proof.
  revert s. induction j as [|j IH]; intros s; [reflexivity|].
  destruct s as [|c s]; [destruct i; reflexivity|]. cbn [sdrop Nat.add]. apply IH.
Qed.

Lemma endswith_nested (a b n : string) :
  endswith a n = true → endswith b n = true →
  (String.length a ≤ String.length b)%nat → endswith a b = true.
Proof.
  unfold endswith. intros Ha Hb Hl.
  apply andb_true_iff in Ha as [Ha1 Ha]. apply andb_true_iff in Hb as [Hb1 Hb].
  apply Nat.leb_le in Ha1, Hb1. apply bool_decide_eq_true in Ha, Hb.
  apply andb_true_iff. split; [apply Nat.leb_le, Hl|].
  apply bool_decide_eq_true.
  transitivity (sdrop (String.length b - String.length a)
                  (sdrop (String.length n - String.length b) n));
    [rewrite Hb; reflexivity|].
  rewrite sdrop_sdrop.
  replace (String.length n - String.length b
           + (String.length b - String.length a))%nat
    with (String.length n - String.length a)%nat by lia.
  exact Ha.
Qed.

Lemma jpg_output_endswith {A} (dir : gmap string A) name :
  endswith ".jpg" (heic_converter.get_jpg_output_path dir name) = true.
Proof.
  unfold heic_converter.get_jpg_output_path.
  destruct (first_free_spec dir (stem name +:+ ".jpg")
              (candidate (stem name) ".jpg") (Inj0 := candidate_inj _ _))
    as (H1 & H2 & _).
  destruct (dir !! (stem name +:+ ".jpg")) as [x|] eqn:Hd.
  - destruct H2 as (k & _ & -> & _); [eauto|]. unfold candidate.
    rewrite <- !string_app_assoc. apply endswith_app.
  - rewrite (H1 eq_refl). apply endswith_app.
Qed.

(** The invariant of the conversion loop. *)
Lemma convert_fold dry (files : list string) : ∀ dir results,
  let r := fold_left (convert_step w dry) files (dir, results) in
  dir ⊆ r.1
  ∧ (dry = true → r.1 = dir)
  ∧ ∃ new, r.2 = results ++ new
      ∧ original_path <$> new = files
      ∧ Forall (λ x, success x = true → dir !! converted_path x = None
                                         ∧ endswith ".jpg" (converted_path x) = true) new
      ∧ (dry = false →
         Forall (λ x, success x = true → is_Some (r.1 !! converted_path x)) new
         ∧ NoDup (converted_path <$> filter (λ x, success x = true) new)).
Proof.
  induction files as [|p files IH]; intros dir results; cbn [fold_left].
  { cbn [fst snd]. split; [reflexivity|]. split; [reflexivity|].
    exists []. rewrite app_nil_r. repeat split; constructor. }
  destruct (convert_effect w dir p dry) as (E1 & E2 & E3 & E4 & _).
  destruct (convert_step w dry (dir, results) p) as [dir1 res1] eqn:Hstep.
  unfold convert_step in Hstep. cbn [fst snd] in Hstep.
  destruct (convert_heic_to_jpg w dir p dry) as [d1 r1]. cbn [fst snd] in *.
  injection Hstep as -> <-.
  destruct (IH dir1 (results ++ [r1])) as (I1 & I2 & new & Hnew & Hsrc & Hfree & Hlive).
  split; [etransitivity; eassumption|].
  split; [intros Hd; rewrite (I2 Hd); apply E3, Hd|].
  exists (r1 :: new). split; [rewrite Hnew, <- app_assoc; reflexivity|].
  split; [rewrite fmap_cons, E2, Hsrc; reflexivity|]. split.
  - constructor.
    + intros Hs. destruct (E4 Hs) as (Hp & Hf & _). split; [exact Hf|].
      rewrite Hp. apply jpg_output_endswith.
    + eapply Forall_impl; [exact Hfree|]. intros x Hx Hs.
      destruct (Hx Hs) as [Hx1 Hx2]. split; [|exact Hx2].
      destruct (dir !! converted_path x) as [y|] eqn:Hy; [|reflexivity].
      rewrite (lookup_weaken _ _ _ _ Hy E1) in Hx1. discriminate.
  - intros Hd. destruct (Hlive Hd) as [Hheld Hnd]. split.
    + constructor; [|exact Hheld]. intros Hs.
      destruct (E4 Hs) as (_ & _ & f & _ & _ & _ & Hj).
      destruct (Hj Hd) as (j & _ & Hdir1 & _).
      eapply lookup_weaken_is_Some; [|exact I1].
      rewrite Hdir1, lookup_insert_eq. eauto.
    + destruct (success r1) eqn:Hs.
      * rewrite filter_cons_True by exact Hs. rewrite fmap_cons.
        apply NoDup_cons. split; [|exact Hnd].
        intros Hin. apply list_elem_of_fmap in Hin as (x & Hx & Hin).
        apply list_elem_of_filter in Hin as [Hxs Hin].
        rewrite Forall_forall in Hfree. destruct (Hfree x Hin Hxs) as [Hfx _].
        destruct (E4 eq_refl) as (_ & _ & f & _ & _ & _ & Hj).
        destruct (Hj Hd) as (j & _ & Hdir1 & _).
        rewrite <- Hx, Hdir1, lookup_insert_eq in Hfx. discriminate.
      * rewrite filter_cons_False by (rewrite Hs; discriminate). exact Hnd.
Qed.

Lemma glob_ext_spec (Hls : listing_ok ls) {A} (dir : gmap string A) ext :
  NoDup (glob_ext ls dir ext)
  ∧ ∀ n, n ∈ glob_ext ls dir ext ↔ is_Some (dir !! n) ∧ endswith ext n = true.
Proof.
  unfold glob_ext. split; [apply NoDup_filter, (listing_NoDup ls Hls)|].
  intros n. rewrite list_elem_of_filter, (listing_elem ls Hls). tauto.
Qed.

Lemma globs_spec (Hls : listing_ok ls) {A} (dir : gmap string A)
    (pats : list string) :
  NoDup pats →
  (∀ p q, p ∈ pats → q ∈ pats → String.length p = String.length q) →
  NoDup (p ← pats; glob_ext ls dir p)
  ∧ ∀ n, n ∈ (p ← pats; glob_ext ls dir p) ↔
         is_Some (dir !! n) ∧ ∃ p, p ∈ pats ∧ endswith p n = true.
Proof.
  intros Hnd Hlen. split.
  - induction pats as [|p pats IH]; [constructor|].
    apply NoDup_cons in Hnd as [Hp Hnd]. rewrite bind_cons.
    apply NoDup_app. split; [apply (glob_ext_spec Hls)|]. split.
    + intros n Hn Hn'. apply (glob_ext_spec Hls) in Hn as [_ Hn].
      apply list_elem_of_bind in Hn' as (q & Hn' & Hq).
      apply (glob_ext_spec Hls) in Hn' as [_ Hn'].
      assert (p = q) as ->; [|contradiction].
      apply (endswith_unique p q n Hn Hn'). apply Hlen; [left|right; exact Hq].
    + apply IH; [exact Hnd|]. intros a b Ha Hb. apply Hlen; right; assumption.
  - intros n. rewrite list_elem_of_bind. split.
    + intros (p & Hn & Hp). apply (glob_ext_spec Hls) in Hn as [Hn He]. eauto.
    + intros (Hn & p & Hp & He). exists p. split; [|exact Hp].
      apply (glob_ext_spec Hls). auto.
Qed.

Lemma bind_two {B} (a b : string) (f : string → list B) :
  ([a; b] ≫= f) = f a ++ f b.
Proof. simpl. rewrite app_nil_r. reflexivity. Qed.

Lemma bind_four {B} (a b c d : string) (f : string → list B) :
  ([a; b; c; d] ≫= f) = f a ++ f b ++ f c ++ f d.
Proof. simpl. rewrite app_nil_r. reflexivity. Qed.

Lemma heic_files_spec (Hls : listing_ok ls) (exts : list string)
    (dir : gmap string file) :
  exts ≡ₚ HEIC_EXTENSIONS →
  NoDup (heic_files ls exts dir)
  ∧ ∀ n, n ∈ heic_files ls exts dir ↔
         is_Some (dir !! n)
         ∧ ∃ p, p ∈ [".heic"; ".HEIC"; ".heif"; ".HEIF"] ∧ endswith p n = true.
Proof.
  intros Hp.
  assert (exts = [".heic"; ".heif"] ∨ exts = [".heif"; ".heic"]) as Hcase.
  { unfold HEIC_EXTENSIONS in Hp.
    symmetry in Hp. apply Permutation_length_2_inv in Hp. destruct Hp; auto. }
  assert (∃ pats, heic_files ls exts dir = (p ← pats; glob_ext ls dir p)
                  ∧ pats ≡ₚ [".heic"; ".HEIC"; ".heif"; ".HEIF"])
    as (pats & -> & Hpats).
  { unfold heic_files. destruct Hcase as [-> | ->].
    - exists [".heic"; ".HEIC"; ".heif"; ".HEIF"]. split; [|reflexivity].
      rewrite bind_two, bind_four, <- !app_assoc. reflexivity.
    - exists [".heif"; ".HEIF"; ".heic"; ".HEIC"]. split.
      + rewrite bind_two, bind_four, <- !app_assoc. reflexivity.
      + apply (Permutation_app_comm [".heif"; ".HEIF"] [".heic"; ".HEIC"]). }
  assert (NoDup pats) as Hnd.
  { rewrite Hpats. apply (bool_decide_unpack _). vm_compute. exact I. }
  assert (∀ p, p ∈ pats → String.length p = 5%nat) as Hfive.
  { intros p Hin. rewrite Hpats in Hin.
    repeat (apply elem_of_cons in Hin as [->|Hin]; [reflexivity|]). inversion Hin. }
  destruct (globs_spec Hls dir pats Hnd) as [G1 G2].
  { intros p q Hp' Hq'. rewrite (Hfive p Hp'), (Hfive q Hq'). reflexivity. }
  split; [exact G1|]. intros n. rewrite G2. split.
  - intros (Hn & p & Hin & He). split; [exact Hn|]. exists p.
    rewrite <- Hpats. auto.
  - intros (Hn & p & Hin & He). split; [exact Hn|]. exists p.
    rewrite Hpats. auto.
Qed.
End heic_batch.

Section heic_cleanup.
Import heic_converter_run.

Lemma delete_fold (rs : list result) : ∀ (d : gmap string file) k,
  fold_left (λ d r, delete (original_path r) d) rs d !! k
  = if bool_decide (k ∈ original_path <$> rs) then None else d !! k.
Proof.
  induction rs as [|r rs IH]; intros d k; cbn [fold_left].
  { rewrite bool_decide_eq_false_2 by apply not_elem_of_nil. reflexivity. }
  rewrite IH, fmap_cons.
  destruct (decide (k ∈ original_path <$> rs)) as [Hin|Hout].
  - rewrite !bool_decide_eq_true_2; [reflexivity|right; exact Hin|exact Hin].
  - rewrite (bool_decide_eq_false_2 _ Hout).
    destruct (decide (k = original_path r)) as [->|Hne].
    + rewrite bool_decide_eq_true_2 by left. apply lookup_delete_eq.
    + rewrite lookup_delete_ne by congruence.
      rewrite bool_decide_eq_false_2; [reflexivity|].
      rewrite elem_of_cons. tauto.
Qed.

Lemma cleanup_spec (dir : gmap string file) results dry response :
  let after := cleanup_heic_files dir results dry response in
  (dry = true ∨ in_set (lower response) ["y"; "yes"] = false → after = dir)
  ∧ (dry = false → in_set (lower response) ["y"; "yes"] = true →
       ∀ k, after !! k
            = if bool_decide
                   (k ∈ original_path <$> filter (λ r, success r = true) results)
              then None else dir !! k).
Proof.
  cbv zeta. unfold cleanup_heic_files.
  destruct (filter (λ r, success r = true) results) as [|x xs] eqn:Hf.
  { split; [reflexivity|]. intros _ _ k.
    rewrite bool_decide_eq_false_2 by apply not_elem_of_nil. reflexivity. }
  split.
  - intros [-> | ->]; [reflexivity|]. destruct dry; reflexivity.
  - intros -> ->. intros k. apply delete_fold.
Qed.
End heic_cleanup.

(** X12: [process_directory] converts each file whose name ends in ".heic",
    ".HEIC", ".heif" or ".HEIF" exactly once and returns one result per such
    file; names with another letter case are not collected.  It never
    removes or changes a file of the directory; a dry run changes nothing.
    In a live run the successful results name pairwise distinct paths, each
    free before the run and taken after it. *)
Theorem X12_process_directory_batch (ls : listing) (exts : list string)
    (w : collaborators) (dir : gmap string file) (dry_run : bool) :
  listing_ok ls → exts ≡ₚ heic_converter_run.HEIC_EXTENSIONS →
  let r := heic_converter_run.process_directory ls exts w (Some dir) dry_run in
  ∃ dir',
    r.1 = Some dir' ∧ dir ⊆ dir' ∧ (dry_run = true → dir' = dir)
    ∧ NoDup (heic_converter_run.original_path <$> r.2)
    ∧ (∀ n, n ∈ heic_converter_run.original_path <$> r.2 ↔
            is_Some (dir !! n)
            ∧ ∃ p, p ∈ [".heic"; ".HEIC"; ".heif"; ".HEIF"]
                   ∧ endswith p n = true)
    ∧ (dry_run = false →
       NoDup (heic_converter_run.converted_path
                <$> filter (λ x, heic_converter_run.success x = true) r.2)
       ∧ ∀ x, x ∈ r.2 → heic_converter_run.success x = true →
              dir !! heic_converter_run.converted_path x = None
              ∧ is_Some (dir' !! heic_converter_run.converted_path x)).
Proof.
  intros Hls Hexts r. subst r. unfold heic_converter_run.process_directory.
  destruct (convert_fold w dry_run (heic_converter_run.heic_files ls exts dir) dir [])
    as (F1 & F2 & new & Hnew & Hsrc & Hfree & Hlive).
  destruct (fold_left _ _ (dir, [])) as [dir' results]. cbn [fst snd app] in *.
  subst results. exists dir'.
  destruct (heic_files_spec ls Hls exts dir Hexts) as [Hnd Hmem].
  split; [reflexivity|]. split; [exact F1|]. split; [exact F2|].
  rewrite Hsrc. split; [exact Hnd|]. split; [exact Hmem|].
  intros Hd. destruct (Hlive Hd) as [Hheld Hdist]. split; [exact Hdist|].
  intros x Hx Hs. rewrite Forall_forall in Hfree, Hheld.
  split; [apply (Hfree x Hx Hs)|apply (Hheld x Hx Hs)].
Qed.

Lemma X12_process_directory_batch_witness :
  let w := mk_collaborators true (λ f, Saved f) (λ _ f, Saved f) false
             (λ _, None) (λ _ _, None) in
  let f := mk_file 10 1 None None (mk_datetime 2024 2 1 10 0 0) in
  let dir : gmap string file :=
    {[ "a.heic" := f; "a.HEIC" := f; "b.Heic" := f; "c.jpg" := f ]} in
  let r := heic_converter_run.process_directory default_listing
             [".heif"; ".heic"] w (Some dir) false in
  NoDup (heic_converter_run.original_path <$> r.2)
  ∧ ("b.Heic" ∉ heic_converter_run.original_path <$> r.2)
  ∧ heic_converter_run.is_heic_file "b.Heic" = true.
Proof.
  intros w f dir r.
  destruct (X12_process_directory_batch default_listing [".heif"; ".heic"] w dir
              false default_listing_ok) as (dir' & _ & _ & _ & Hnd & Hmem & _).
  { apply Permutation_swap. }
  split; [exact Hnd|]. split; [|reflexivity].
  intros Hin. apply Hmem in Hin as (_ & p & Hp & He).
  repeat (apply elem_of_cons in Hp as [->|Hp]; [vm_compute in He; discriminate|]).
  inversion Hp.
Defined.

(** X13: [cleanup_heic_files] removes nothing in a dry run and nothing
    unless the answer is "y" or "yes" in any letter case.  After a live
    [process_directory], a confirmed cleanup removes exactly the originals
    whose conversion succeeded: each of them is gone and its JPG is still
    there, every original whose conversion failed is still there unchanged,
    and so is every other file. *)
Theorem X13_cleanup_removes_converted_originals (ls : listing)
    (exts : list string) (w : collaborators) (dir : gmap string file)
    (dry_run : bool) (response : string) :
  listing_ok ls → exts ≡ₚ heic_converter_run.HEIC_EXTENSIONS →
  let r := heic_converter_run.process_directory ls exts w (Some dir) false in
  let dir' := default ∅ r.1 in
  let after := heic_converter_run.cleanup_heic_files dir' r.2 dry_run response in
  (dry_run = true ∨ in_set (lower response) ["y"; "yes"] = false → after = dir')
  ∧ (dry_run = false → in_set (lower response) ["y"; "yes"] = true →
       (∀ x, x ∈ r.2 → heic_converter_run.success x = true →
             after !! heic_converter_run.original_path x = None
             ∧ after !! heic_converter_run.converted_path x
               = dir' !! heic_converter_run.converted_path x
             ∧ is_Some (dir' !! heic_converter_run.converted_path x))
       ∧ (∀ x, x ∈ r.2 → heic_converter_run.success x = false →
               after !! heic_converter_run.original_path x
               = dir !! heic_converter_run.original_path x
               ∧ is_Some (dir !! heic_converter_run.original_path x))
       ∧ (∀ k v, dir !! k = Some v →
                 k ∉ heic_converter_run.original_path <$> r.2 →
                 after !! k = Some v)).
Proof.
  intros Hls Hexts r dir' after. subst after dir' r.
  unfold heic_converter_run.process_directory.
  destruct (convert_fold w false (heic_converter_run.heic_files ls exts dir) dir [])
    as (F1 & _ & new & Hnew & Hsrc & Hfree & Hlive).
  destruct (fold_left _ _ (dir, [])) as [dir' results]. cbn [fst snd app] in *.
  subst results. cbn [default from_option id].
  destruct (heic_files_spec ls Hls exts dir Hexts) as [Hnd Hmem].
  rewrite <- Hsrc in Hnd, Hmem.
  destruct (cleanup_spec dir' new dry_run response) as [C1 C2].
  split; [exact C1|]. intros Hd Hy. specialize (C2 Hd Hy).
  destruct (Hlive eq_refl) as [Hheld _]. rewrite Forall_forall in Hfree, Hheld.
  assert (∀ x y, x ∈ new → y ∈ new →
            heic_converter_run.original_path x = heic_converter_run.original_path y →
            x = y) as Hinj.
  { intros x y Hx Hy' Heq.
    apply list_elem_of_lookup in Hx as [i Hi]. apply list_elem_of_lookup in Hy' as [j Hj].
    assert (i = j) as ->; [|congruence].
    apply (NoDup_lookup _ i j (heic_converter_run.original_path x) Hnd);
      rewrite list_lookup_fmap; [rewrite Hi|rewrite Hj, Heq]; reflexivity. }
  split; [|split].
  - intros x Hx Hs. split; [|split; [|apply (Hheld x Hx Hs)]].
    + rewrite C2, bool_decide_eq_true_2; [reflexivity|].
      apply list_elem_of_fmap. exists x. split; [reflexivity|].
      apply list_elem_of_filter. auto.
    + rewrite C2, bool_decide_eq_false_2; [reflexivity|].
      intros Hin. apply list_elem_of_fmap in Hin as (y & Hy' & Hin).
      apply list_elem_of_filter in Hin as [_ Hin].
      destruct (Hfree x Hx Hs) as [_ Hjpg].
      assert (heic_converter_run.original_path y
              ∈ heic_converter_run.original_path <$> new) as Horig
        by (apply list_elem_of_fmap; eauto).
      apply Hmem in Horig as (_ & p & Hp & He). rewrite <- Hy' in He.
      assert (endswith ".jpg" p = true) as Hu.
      { apply (endswith_nested _ _ _ Hjpg He).
        repeat (apply elem_of_cons in Hp as [->|Hp]; [simpl; lia|]). inversion Hp. }
      repeat (apply elem_of_cons in Hp as [->|Hp]; [vm_compute in Hu; discriminate|]).
      inversion Hp.
  - intros x Hx Hs.
    assert (heic_converter_run.original_path x
            ∈ heic_converter_run.original_path <$> new) as Horig
      by (apply list_elem_of_fmap; eauto).
    apply Hmem in Horig as ([v Hv] & _). split; [|eauto].
    rewrite C2, bool_decide_eq_false_2.
    + rewrite Hv. apply (lookup_weaken _ _ _ _ Hv F1).
    + intros Hin. apply list_elem_of_fmap in Hin as (y & Hy' & Hin).
      apply list_elem_of_filter in Hin as [Hys Hin].
      rewrite (Hinj x y Hx Hin Hy') in Hs. congruence.
  - intros k v Hk Hout. rewrite C2, bool_decide_eq_false_2.
    + apply (lookup_weaken _ _ _ _ Hk F1).
    + intros Hin. apply Hout. apply list_elem_of_fmap in Hin as (y & -> & Hin).
      apply list_elem_of_filter in Hin as [_ Hin].
      apply list_elem_of_fmap. eauto.
Qed.

Lemma X13_cleanup_removes_converted_originals_witness :
  let w := mk_collaborators true
             (λ f, if (st_size f =? 10)%N then Saved f else SaveFailed None)
             (λ _ f, Saved f) false (λ _, None) (λ _ _, None) in
  let f := mk_file 10 1 None None (mk_datetime 2024 2 1 10 0 0) in
  let g := mk_file 11 2 None None (mk_datetime 2024 2 1 10 0 0) in
  let dir : gmap string file := {[ "a.heic" := f; "b.HEIF" := g ]} in
  let r := heic_converter_run.process_directory default_listing
             [".heic"; ".heif"] w (Some dir) false in
  heic_converter_run.cleanup_heic_files (default ∅ r.1) r.2 false "Yes"
  = {[ "a.jpg" := f; "b.HEIF" := g ]}
  ∧ heic_converter_run.cleanup_heic_files (default ∅ r.1) r.2 false "ok"
    = default ∅ r.1.
Proof.
  intros w f g dir r. split; [vm_compute; reflexivity|].
  apply (X13_cleanup_removes_converted_originals default_listing
           [".heic"; ".heif"] w dir false "ok" default_listing_ok);
    [reflexivity|right; reflexivity].
Defined.

Section copy_project.
Import copy_to_project.
Context (ls : listing) (Hls : listing_ok ls).

Lemma kept_in_refl skip t : kept_in skip t t.
Proof.
  split; [auto|]. intros d its Hd _. exists its. split; [exact Hd|reflexivity].
Qed.

Lemma kept_in_trans skip t1 t2 t3 :
  kept_in skip t1 t2 → kept_in skip t2 t3 → kept_in skip t1 t3.
Proof.
  intros [A1 A2] [B1 B2]. split.
  - intros k g Hk Hs. apply B1; [apply A1; assumption|exact Hs].
  - intros d its Hd Hs. destruct (A2 d its Hd Hs) as (its' & Hd' & Hsub).
    destruct (B2 d its' Hd' Hs) as (its'' & Hd'' & Hsub').
    exists its''. split; [exact Hd''|]. etransitivity; eassumption.
Qed.

Lemma merge_aborted source d l out :
  fold_left (merge_file source d) l (out, true) = (out, true).
Proof. induction l as [|n l IH]; [reflexivity|exact IH]. Qed.

Lemma merge_file_step source d out n out' ab :
  merge_file source d (out, false) n = (out', ab) →
  out' = out
  ∨ ∃ f its dest, out !! d = Some (Dir its) ∧ its !! dest = None
                  ∧ out' = <[d := Dir (<[dest := IFile f]> its)]> out.
Proof.
  unfold merge_file.
  destruct (read_file source (Some d, n)) as [f|]; [|intros [= <- <-]; auto].
  destruct (in_set (lower (suffix n)) PHOTO_EXT); [|intros [= <- <-]; auto].
  destruct (rsplit_dot n) as [[base ext]|]; [|intros [= <- <-]; auto].
  set (dest := first_free _ _ _).
  assert (folder out d !! dest = None) as Hfree.
  { apply (first_free_spec (folder out d) n (candidate base ("." +:+ ext))
             (Inj0 := candidate_inj _ _)). }
  destruct (write_file out (Some d, dest) f) as [o|] eqn:Hw;
    [|intros [= <- <-]; auto].
  intros [= <- <-]. right. simpl in Hw. unfold folder in Hfree.
  destruct (out !! d) as [[g|its]|] eqn:Hd; try discriminate.
  rewrite Hfree in Hw. injection Hw as <-. exists f, its, dest. auto.
Qed.

Lemma merge_fold_kept source d l : ∀ out,
  let r := fold_left (merge_file source d) l (out, false) in
  kept_in [] out r.1 ∧ ∀ k, k ≠ d → r.1 !! k = out !! k.
Proof.
  induction l as [|n l IH]; intros out; cbn [fold_left].
  { split; [apply kept_in_refl|reflexivity]. }
  destruct (merge_file source d (out, false) n) as [o1 a1] eqn:Hstep.
  assert (kept_in [] out o1 ∧ ∀ k, k ≠ d → o1 !! k = out !! k) as [K1 F1].
  { apply merge_file_step in Hstep as [->|(f & its & dest & Hd & Hfree & ->)].
    - split; [apply kept_in_refl|reflexivity].
    - split; [|intros k Hk; apply lookup_insert_ne; congruence]. split.
      + intros k g Hk _. rewrite lookup_insert_ne by congruence. exact Hk.
      + intros d' its' Hd' _. destruct (decide (d' = d)) as [->|Hne].
        * rewrite Hd in Hd'. injection Hd' as <-. eexists.
          split; [apply lookup_insert_eq|]. apply insert_subseteq, Hfree.
        * exists its'. rewrite lookup_insert_ne by congruence.
          split; [exact Hd'|reflexivity]. }
  destruct a1.
  - rewrite merge_aborted. cbn [fst]. split; [exact K1|exact F1].
  - destruct (IH o1) as [K2 F2]. split.
    + eapply kept_in_trans; eassumption.
    + intros k Hk. rewrite (F2 k Hk). apply F1, Hk.
Qed.

Lemma copy_folder_kept source out d :
  kept_in [] out (copy_folder ls source out d)
  ∧ (∀ k, k ≠ d → copy_folder ls source out d !! k = out !! k)
  ∧ (out !! d = None →
     copy_folder ls source out d !! d = Some (Dir (folder source d))).
Proof.
  unfold copy_folder. destruct (exists_in out d) eqn:He.
  - destruct (merge_fold_kept source d (ls _ (folder source d)) out) as [K F].
    split; [exact K|]. split; [exact F|].
    apply exists_in_true in He as [e He]. congruence.
  - apply exists_in_false in He. split; [|split].
    + split.
      * intros k g Hk _. rewrite lookup_insert_ne by congruence. exact Hk.
      * intros d' its Hd' _. exists its. rewrite lookup_insert_ne by congruence.
        split; [exact Hd'|reflexivity].
    + intros k Hk. apply lookup_insert_ne. congruence.
    + intros _. apply lookup_insert_eq.
Qed.

Lemma copy_folders_kept source l : NoDup l → ∀ out,
  let r := fold_left (copy_folder ls source) l out in
  kept_in [] out r
  ∧ (∀ k, k ∉ l → r !! k = out !! k)
  ∧ (∀ d, d ∈ l → out !! d = None → r !! d = Some (Dir (folder source d))).
Proof.
  induction l as [|d l IH]; intros Hnd out; cbn [fold_left].
  { split; [apply kept_in_refl|]. split; [reflexivity|]. intros d Hd. inversion Hd. }
  apply NoDup_cons in Hnd as [Hd Hnd].
  destruct (copy_folder_kept source out d) as (K1 & F1 & N1).
  destruct (IH Hnd (copy_folder ls source out d)) as (K2 & F2 & N2).
  split; [eapply kept_in_trans; eassumption|]. split.
  - intros k Hk. rewrite F2 by (intros Hin; apply Hk; right; exact Hin).
    apply F1. intros ->. apply Hk. left.
  - intros d' Hd' Hnone. apply elem_of_cons in Hd' as [->|Hd'].
    + rewrite (F2 d Hd). apply N1, Hnone.
    + apply N2; [exact Hd'|]. rewrite F1; [exact Hnone|].
      intros ->. contradiction.
Qed.

Lemma copy_log_frame source out log k :
  k ≠ log → copy_log source out log !! k = out !! k.
Proof.
  intros Hk. unfold copy_log.
  destruct (exists_in source log); [|reflexivity].
  destruct (read_file source (None, log)) as [f|]; [|reflexivity].
  destruct (out !! log) as [[g|its]|] eqn:Hl;
    try (apply lookup_insert_ne; congruence).
  cbn [write_file]. rewrite Hl.
  destruct (its !! log) as [[g|]|]; cbn [from_option id]; try reflexivity;
    apply lookup_insert_ne; congruence.
Qed.

Lemma copy_logs_frame source (logs : list string) : ∀ out k,
  k ∉ logs → fold_left (copy_log source) logs out !! k = out !! k.
Proof.
  induction logs as [|log logs IH]; intros out k Hk; [reflexivity|].
  cbn [fold_left]. rewrite IH by (intros Hin; apply Hk; right; exact Hin).
  apply copy_log_frame. intros ->. apply Hk. left.
Qed.

Lemma date_folders_spec source :
  NoDup (date_folders ls source)
  ∧ ∀ d, d ∈ date_folders ls source ↔
         is_dir source d = true ∧ isdigit d = true ∧ String.length d = 8%nat.
Proof.
  unfold date_folders. split; [apply NoDup_filter, (listing_NoDup ls Hls)|].
  intros d. rewrite list_elem_of_filter, (listing_elem ls Hls).
  rewrite !andb_true_iff, Nat.eqb_eq. split; [tauto|].
  intros (H1 & H2 & H3). split; [tauto|]. unfold is_dir in H1.
  destruct (source !! d); [eauto|discriminate].
Qed.
End copy_project.

(** X14: [copy_organized_photos] selects every folder of the source whose
    name is eight digits -- so every folder the sorting script accepts as a
    date folder.  Without such a folder, or when the answer is not "y" or
    "yes", it returns [False] having done no more than create the
    destination directory.  After confirmation it never removes or replaces
    an entry of a destination folder nor a regular file of the destination,
    the two log files apart; a date folder the destination did not have
    arrives as a copy of the source folder. *)
Theorem X14_copy_to_project (ls : listing) (source : gmap string entry)
    (dest : option (gmap string entry)) (response : string) :
  listing_ok ls →
  let r := copy_to_project.copy_organized_photos ls (Some source) dest response in
  let before := default ∅ dest in
  let selected := copy_to_project.date_folders ls source in
  (∀ d its, source !! d = Some (Dir its) →
            sort_media_by_date.is_valid_date_folder d = true → d ∈ selected)
  ∧ (r.2 = true ↔ selected ≠ [] ∧ in_set (lower response) ["y"; "yes"] = true)
  ∧ ∃ out,
      r.1 = Some out
      ∧ (r.2 = false → out = before)
      ∧ kept_in copy_to_project.log_files before out
      ∧ (r.2 = true → ∀ d, d ∈ selected → before !! d = None →
           out !! d = Some (Dir (folder source d))).
Proof.
  intros Hls r before selected.
  destruct (date_folders_spec ls Hls source) as [Hnd Hsel]. fold selected in Hnd, Hsel.
  split.
  { intros d its Hd Hv. apply Hsel. unfold is_dir. rewrite Hd.
    apply is_valid_date_folder_spec in Hv as (Hl & Hdig & _).
    split; [reflexivity|]. split; [|exact Hl].
    unfold isdigit. destruct d; [discriminate|exact Hdig]. }
  subst r. unfold copy_to_project.copy_organized_photos. fold selected. fold before.
  destruct selected as [|d0 sel] eqn:Hsel0.
  { cbn [fst snd]. split; [split; [discriminate|intros [H _]; congruence]|].
    exists before. split; [reflexivity|]. split; [reflexivity|].
    split; [apply kept_in_refl|discriminate]. }
  destruct (in_set (lower response) ["y"; "yes"]) eqn:Hy; cbn [negb fst snd].
  2:{ split; [split; [discriminate|intros [_ H]; discriminate]|].
      exists before. split; [reflexivity|]. split; [reflexivity|].
      split; [apply kept_in_refl|discriminate]. }
  split; [split; [intros _; split; [discriminate|reflexivity]|reflexivity]|].
  eexists. split; [reflexivity|]. split; [discriminate|].
  set (sorted := merge_sort name_le (d0 :: sel)).
  assert (sorted ≡ₚ d0 :: sel) as Hperm by apply merge_sort_Permutation.
  assert (NoDup sorted) as Hnds by (rewrite Hperm; exact Hnd).
  destruct (copy_folders_kept ls source sorted Hnds before) as ([K1 K2] & F & N).
  pose proof (copy_logs_frame source copy_to_project.log_files
                (fold_left (copy_to_project.copy_folder ls source) sorted before))
    as Hlogs.
  split; [split|].
  - intros k g Hk Hs. rewrite (Hlogs k Hs). apply K1; [exact Hk|apply not_elem_of_nil].
  - intros d its Hd Hs. rewrite (Hlogs d Hs). apply K2; [exact Hd|apply not_elem_of_nil].
  - intros _ d Hd Hnone.
    assert (d ∉ copy_to_project.log_files) as Hs.
    { apply Hsel in Hd as (_ & Hdig & _). intros Hin.
      unfold copy_to_project.log_files in Hin.
      repeat (apply elem_of_cons in Hin as [->|Hin]; [discriminate|]).
      inversion Hin. }
    rewrite (Hlogs d Hs). apply N; [rewrite Hperm; exact Hd|exact Hnone].
Qed.

Lemma X14_copy_to_project_witness :
  let f := mk_file 10 1 None None (mk_datetime 2024 2 1 10 0 0) in
  let g := mk_file 11 2 None None (mk_datetime 2024 2 1 11 0 0) in
  let source : gmap string entry :=
    {[ "20240201" := Dir {[ "a.jpg" := IFile f ]};
       "20241399" := Dir {[ "b.jpg" := IFile f ]};
       "sort_log.csv" := File f ]} in
  let dest : gmap string entry :=
    {[ "20240201" := Dir {[ "a.jpg" := IFile g ]} ]} in
  let r := copy_to_project.copy_organized_photos default_listing (Some source)
             (Some dest) "Y" in
  "20240201" ∈ copy_to_project.date_folders default_listing source
  ∧ r.1 = Some {[ "20240201" := Dir {[ "a.jpg" := IFile g; "a_1.jpg" := IFile f ]};
                  "20241399" := Dir {[ "b.jpg" := IFile f ]};
                  "sort_log.csv" := File f ]}.
Proof.
  intros f g source dest r. split; [|vm_compute; reflexivity].
  apply (proj1 (X14_copy_to_project default_listing source (Some dest) "Y"
                  default_listing_ok) "20240201" {[ "a.jpg" := IFile f ]});
    reflexivity.
Defined.

Section renamer_step.
Import ai_photo_renamer renamer_run.
Context (w : collaborators) (analyze : file → analysis).

Lemma free_or_self_spec (dir : gmap string file) photo first mk
    `{!Inj (=) (=) mk} :
  let n := free_or_self dir photo first mk in
  n = photo ∨ dir !! n = None.
Proof.
  cbv zeta. unfold free_or_self.
  set (busy := λ c, exists_in dir c && negb (bool_decide (c = photo))).
  assert (∀ c, busy c = false → c = photo ∨ dir !! c = None) as Hfree.
  { intros c Hc. unfold busy in Hc. apply andb_false_iff in Hc as [Hc|Hc].
    - right. apply exists_in_false, Hc.
    - left. apply negb_false_iff, bool_decide_eq_true in Hc. exact Hc. }
  change (exists_in dir first && negb (bool_decide (first = photo)))
    with (busy first).
  destruct (busy first) eqn:Hb; [|apply Hfree, Hb].
  destruct (probe_total dir busy mk) as [r Hr].
  { intros n Hn. unfold busy in Hn. apply andb_true_iff in Hn as [Hn _].
    apply exists_in_true, Hn. }
  rewrite Hr. cbn [default from_option id].
  apply probe_some in Hr as (k & _ & -> & Hk & _). apply Hfree, Hk.
Qed.

Lemma renamer_convert_effect (dir : gmap string file) photo :
  let r := convert_heic_to_jpg w dir photo in
  match r.2 with
  | Some jpg =>
      ∃ f j, dir !! photo = Some f ∧ heic_to_jpg w f = Saved j
             ∧ dir !! jpg = None ∧ r.1 = <[jpg := j]> dir
  | None =>
      r.1 = dir ∨ ∃ jpg part, dir !! jpg = None ∧ r.1 = <[jpg := part]> dir
  end.
Proof.
  cbv zeta. unfold convert_heic_to_jpg.
  set (jpg := first_free dir _ _).
  assert (dir !! jpg = None) as Hfree.
  { apply (first_free_spec dir _ (candidate (stem photo) ".jpg")
             (Inj0 := candidate_inj _ _)). }
  destruct (dir !! photo) as [f|] eqn:Hf; [|left; reflexivity].
  destruct (heic_to_jpg w f) as [j|[part|]] eqn:Hc; cbn [fst snd].
  - exists f, j. auto.
  - right. exists jpg, part. auto.
  - left. reflexivity.
Qed.

(** What the second half of the loop body does to the folder. *)
Lemma rename_to_effect dry results orig (dir1 : gmap string file) photo_path
    ts new_filename :
  let r := rename_to dry results orig dir1 photo_path (dir1 !! photo_path)
             ts new_filename in
  (r.1 = dir1
   ∧ ∃ new, r.2 = results ++ new ∧ (length new ≤ 1)%nat
            ∧ Forall (λ e, renamed e = false) new)
  ∨ (dry = false
     ∧ ∃ g new e, dir1 !! photo_path = Some g ∧ new ≠ photo_path
         ∧ dir1 !! new = None
         ∧ r.2 = results ++ [e] ∧ new_path e = new ∧ original_path e = orig
         ∧ r.1 = (if negb (bool_decide (orig = photo_path))
                     && in_set (lower (suffix orig)) CONVERT_TO_JPG
                  then delete orig (<[new := g]> (delete photo_path dir1))
                  else <[new := g]> (delete photo_path dir1))).
Proof.
  cbv zeta. unfold rename_to.
  assert (∀ e, renamed e = false →
            ∃ new, results ++ [e] = results ++ new ∧ (length new ≤ 1)%nat
                   ∧ Forall (λ e, renamed e = false) new) as Hone.
  { intros e He. exists [e]. split; [reflexivity|]. split; [simpl; lia|].
    repeat constructor. exact He. }
  destruct (rsplit_dot new_filename) as [[base ext]|];
    [|left; split; [reflexivity|apply Hone; reflexivity]].
  pose proof (free_or_self_spec dir1 photo_path new_filename
                (candidate base ("." +:+ ext)) (Inj0 := candidate_inj _ _)) as Hn.
  cbv zeta in Hn.
  change (λ counter : nat, base +:+ "_" +:+ str_nat counter +:+ "." +:+ ext)
    with (candidate base ("." +:+ ext)).
  set (new := free_or_self dir1 photo_path new_filename _) in *.
  destruct (bool_decide (new = photo_path)) eqn:Hsame.
  { left. split; [reflexivity|]. exists []. rewrite app_nil_r.
    split; [reflexivity|]. split; [simpl; lia|constructor]. }
  apply bool_decide_eq_false in Hsame.
  destruct dry; [left; split; [reflexivity|apply Hone; reflexivity]|].
  destruct (dir1 !! photo_path) as [g|] eqn:Hg;
    [|left; split; [reflexivity|apply Hone; reflexivity]].
  right. split; [reflexivity|]. destruct Hn as [Hn|Hn]; [contradiction|].
  eexists g, new, _. cbn [fst snd new_path original_path negb].
  repeat split; try reflexivity; assumption.
Qed.

(** The conversion stage of the loop body. *)
Lemma convert_stage (dir : gmap string file) photo :
  ∃ dir1 photo_path,
    (if in_set (lower (suffix photo)) CONVERT_TO_JPG
     then match convert_heic_to_jpg w dir photo with
          | (d, Some c) => (d, c)
          | (d, None) => (d, photo)
          end
     else (dir, photo)) = (dir1, photo_path)
    ∧ dir ⊆ dir1
    ∧ (in_set (lower (suffix photo)) CONVERT_TO_JPG = false → dir1 = dir)
    ∧ ((photo_path = photo)
       ∨ (photo_path ≠ photo ∧ dir !! photo_path = None
          ∧ in_set (lower (suffix photo)) CONVERT_TO_JPG = true
          ∧ ∃ f j, dir !! photo = Some f ∧ heic_to_jpg w f = Saved j
                   ∧ dir1 = <[photo_path := j]> dir)).
Proof.
  destruct (in_set (lower (suffix photo)) CONVERT_TO_JPG) eqn:Hheic.
  2:{ exists dir, photo. repeat split; auto. }
  pose proof (renamer_convert_effect dir photo) as Hc. cbv zeta in Hc.
  destruct (convert_heic_to_jpg w dir photo) as [d [c|]]; cbn [fst snd] in Hc.
  - destruct Hc as (f & j & Hf & Hj & Hfree & ->). exists (<[c := j]> dir), c.
    split; [reflexivity|]. split; [apply insert_subseteq, Hfree|].
    split; [discriminate|].
    right. split; [congruence|]. split; [exact Hfree|]. split; [reflexivity|].
    exists f, j. auto.
  - exists d, photo. split; [reflexivity|].
    destruct Hc as [->|(jpg & part & Hfree & ->)].
    + repeat split; auto.
    + split; [apply insert_subseteq, Hfree|]. split; [discriminate|].
      left; reflexivity.
Qed.

(** The shape of the loop body after the conversion stage. *)
Lemma rename_stage dry results photo (dir1 : gmap string file) photo_path :
  let ts := extract_timestamp_from_filename photo_path in
  let body :=
    match dir1 !! photo_path, ts with
    | Some f, _ =>
        rename_to dry results photo dir1 photo_path (Some f) ts
          (generate_new_filename photo_path (st_mtime f) (analyze f) ts)
    | None, Some t =>
        rename_to dry results photo dir1 photo_path None ts
          (generate_new_filename photo_path t (mk_analysis "" []) ts)
    | None, None =>
        (dir1, results ++ [mk_result photo_path "" None false true])
    end in
  (body.1 = dir1
   ∧ ∃ new, body.2 = results ++ new ∧ (length new ≤ 1)%nat
            ∧ Forall (λ e, renamed e = false) new)
  ∨ (dry = false
     ∧ ∃ g new e, dir1 !! photo_path = Some g ∧ new ≠ photo_path
         ∧ dir1 !! new = None
         ∧ body.2 = results ++ [e] ∧ new_path e = new ∧ original_path e = photo
         ∧ body.1 = (if negb (bool_decide (photo = photo_path))
                        && in_set (lower (suffix photo)) CONVERT_TO_JPG
                     then delete photo (<[new := g]> (delete photo_path dir1))
                     else <[new := g]> (delete photo_path dir1))).
Proof.
  cbv zeta.
  pose proof (λ ts nf, rename_to_effect dry results photo dir1 photo_path ts nf)
    as Heff. cbv zeta in Heff.
  destruct (dir1 !! photo_path) as [f|] eqn:Hf.
  - apply Heff.
  - destruct (extract_timestamp_from_filename photo_path) as [t|].
    + apply Heff.
    + left. split; [reflexivity|]. exists [mk_result photo_path "" None false true].
      split; [reflexivity|]. split; [simpl; lia|]. repeat constructor.
Qed.

(** One file of the loop: the other files are untouched; what the file
    held is still in the folder, under its own or a fresh name, unless it is
    a HEIC original removed after its JPG was written; a dry run removes
    nothing. *)
Lemma rename_step_effect dry (dir : gmap string file) results photo :
  let r := rename_step w analyze dry (dir, results) photo in
  (∀ k f, dir !! k = Some f → k ≠ photo → r.1 !! k = Some f)
  ∧ (∀ f, dir !! photo = Some f →
       (∃ n, (n = photo ∨ dir !! n = None) ∧ r.1 !! n = Some f)
       ∨ (∃ j n, in_set (lower (suffix photo)) CONVERT_TO_JPG = true
                 ∧ heic_to_jpg w f = Saved j
                 ∧ dir !! n = None ∧ r.1 !! n = Some j))
  ∧ (dry = true → dir ⊆ r.1)
  ∧ (in_set (lower (suffix photo)) CONVERT_TO_JPG = false →
     (dry = true → r.1 = dir)
     ∧ (r.1 = dir
        ∨ ∃ f new, dir !! photo = Some f ∧ dir !! new = None
                   ∧ r.1 = <[new := f]> (delete photo dir)))
  ∧ (∃ new, r.2 = results ++ new ∧ (length new ≤ 1)%nat
       ∧ ∀ e, e ∈ new → renamed e = true →
           original_path e = photo
           ∧ dir !! new_path e = None ∧ is_Some (r.1 !! new_path e)).
Proof.
  cbv zeta. unfold rename_step.
  destruct (convert_stage dir photo)
    as (dir1 & photo_path & -> & Hsub & Hsame & Hpath).
  pose proof (rename_stage dry results photo dir1 photo_path) as Hstage.
  cbv zeta in Hstage.
  set (r := match dir1 !! photo_path with Some _ => _ | None => _ end) in *.
  clearbody r.
  destruct Hstage as [[Hr1 (new & Hr2 & Hlen & Hquiet)]
                     |(Hlive & g & new & e & Hg & Hne & Hfree & Hr2 & He1 & He2 & Hr1)].
  - (* the folder is as the conversion stage left it *)
    rewrite Hr1. split; [|split; [|split; [|split]]].
    + intros k f Hk _. apply (lookup_weaken _ _ _ _ Hk Hsub).
    + intros f Hf. left. exists photo. split; [left; reflexivity|].
      apply (lookup_weaken _ _ _ _ Hf Hsub).
    + intros _. exact Hsub.
    + intros Hn. rewrite (Hsame Hn). auto.
    + exists new. split; [exact Hr2|]. split; [exact Hlen|]. intros e He Hren.
      rewrite Forall_forall in Hquiet. rewrite (Hquiet e He) in Hren. discriminate.
  - (* the file at [photo_path] has been renamed to [new] *)
    assert (dir !! new = None) as Hfree0.
    { destruct (dir !! new) as [v|] eqn:Hv; [|reflexivity].
      rewrite (lookup_weaken _ _ _ _ Hv Hsub) in Hfree. discriminate. }
    destruct Hpath as [->|(Hpp & Hjfree & Hheic & f & j & Hf & Hj & ->)].
    + (* no conversion: [photo] itself is renamed *)
      rewrite bool_decide_eq_true_2 in Hr1 by reflexivity. cbn [negb andb] in Hr1.
      rewrite Hr1. split; [|split; [|split; [|split]]].
      * intros k f Hk Hkp. rewrite lookup_insert_ne
          by (intros <-; rewrite Hfree0 in Hk; discriminate).
        rewrite lookup_delete_ne by congruence.
        apply (lookup_weaken _ _ _ _ Hk Hsub).
      * intros f Hf. left. exists new. split; [right; exact Hfree0|].
        rewrite lookup_insert_eq.
        rewrite (lookup_weaken _ _ _ _ Hf Hsub) in Hg. congruence.
      * intros Hd. congruence.
      * intros Hn. split; [congruence|]. right. rewrite (Hsame Hn) in *.
        exists g, new. auto.
      * exists [e]. split; [exact Hr2|]. split; [simpl; lia|]. intros e' He' _.
        apply list_elem_of_singleton in He'. subst e'. rewrite He1.
        split; [exact He2|]. split; [exact Hfree0|]. rewrite lookup_insert_eq. eauto.
    + (* the JPG written for [photo] is renamed, the original removed *)
      rewrite bool_decide_eq_false_2 in Hr1 by congruence.
      rewrite Hheic in Hr1. cbn [negb andb] in Hr1.
      rewrite lookup_insert_eq in Hg. injection Hg as <-.
      assert (new ≠ photo) as Hnp.
      { intros ->. rewrite lookup_insert_ne in Hfree by congruence. congruence. }
      rewrite Hr1. split; [|split; [|split; [|split]]].
      * intros k f' Hk Hkp. rewrite lookup_delete_ne by congruence.
        rewrite lookup_insert_ne
          by (intros <-; rewrite Hfree0 in Hk; discriminate).
        rewrite lookup_delete_ne by (intros <-; congruence).
        rewrite lookup_insert_ne by (intros <-; congruence). exact Hk.
      * intros f' Hf'. right. exists j, new.
        split; [exact Hheic|]. split; [congruence|]. split; [exact Hfree0|].
        rewrite lookup_delete_ne by congruence. apply lookup_insert_eq.
      * intros Hd. congruence.
      * intros Hn. congruence.
      * exists [e]. split; [exact Hr2|]. split; [simpl; lia|]. intros e' He' _.
        apply list_elem_of_singleton in He'. subst e'. rewrite He1.
        split; [exact He2|]. split; [exact Hfree0|].
        rewrite lookup_delete_ne by congruence. rewrite lookup_insert_eq. eauto.
Qed.
End renamer_step.

Section renamer_loop.
Import ai_photo_renamer renamer_run.
Context (w : collaborators) (analyze : file → analysis).

Lemma rename_fold dry (rest : list string) :
  NoDup rest → ∀ (dir : gmap string file) results,
  (∀ p, p ∈ rest → is_Some (dir !! p)) →
  let r := fold_left (rename_step w analyze dry) rest (dir, results) in
  (∀ k f, dir !! k = Some f → k ∉ rest → r.1 !! k = Some f)
  ∧ (∀ k f, dir !! k = Some f →
       (∃ n, r.1 !! n = Some f)
       ∨ (∃ j n, in_set (lower (suffix k)) CONVERT_TO_JPG = true
                 ∧ heic_to_jpg w f = Saved j ∧ r.1 !! n = Some j))
  ∧ (dry = true → dir ⊆ r.1)
  ∧ ((∀ p, p ∈ rest → in_set (lower (suffix p)) CONVERT_TO_JPG = false) →
     size r.1 = size dir ∧ (dry = true → r.1 = dir))
  ∧ ∃ new, r.2 = results ++ new
      ∧ (∀ e, e ∈ new → renamed e = true →
           original_path e ∈ rest ∧ is_Some (r.1 !! new_path e)
           ∧ ∀ k, is_Some (dir !! k) → k ∉ rest → new_path e ≠ k)
      ∧ NoDup (new_path <$> filter (λ e, renamed e = true) new).
Proof.
  induction rest as [|p rest IH]; intros Hnd dir results Hex; cbn [fold_left].
  { cbn [fst snd]. split; [auto|]. split; [eauto|]. split; [reflexivity|].
    split; [auto|]. exists []. rewrite app_nil_r. split; [reflexivity|].
    split; [intros e He; inversion He|constructor]. }
  apply NoDup_cons in Hnd as [Hp Hnd].
  destruct (rename_step_effect w analyze dry dir results p)
    as (E1 & E2 & E3 & E4 & new0 & Hnew0 & Hlen0 & E5).
  destruct (rename_step w analyze dry (dir, results) p) as [dir1 results1].
  cbn [fst snd] in *. subst results1.
  assert (∀ q, q ∈ rest → is_Some (dir1 !! q)) as Hex1.
  { intros q Hq. destruct (Hex q) as [f Hf]; [right; exact Hq|].
    exists f. apply E1; [exact Hf|]. intros ->. contradiction. }
  assert (∀ n, n = p ∨ dir !! n = None → n ∉ rest) as Hfresh.
  { intros n [->|Hn] Hin; [contradiction|].
    destruct (Hex n) as [f Hf]; [right; exact Hin|]. congruence. }
  destruct (IH Hnd dir1 (results ++ new0) Hex1) as (A & B & C & D & new & Hnew & Eall & Hdist).
  split; [|split; [|split; [|split]]].
  - intros k f Hk Hout. apply A.
    + apply E1; [exact Hk|]. intros ->. apply Hout. left.
    + intros Hin. apply Hout. right. exact Hin.
  - intros k f Hk. destruct (decide (k = p)) as [->|Hne].
    + destruct (E2 f Hk) as [(n & Hn & Hheld)|(j & n & Hh & Hj & Hn & Hheld)].
      * left. exists n. apply A; [exact Hheld|apply Hfresh, Hn].
      * right. exists j, n. split; [exact Hh|]. split; [exact Hj|].
        apply A; [exact Hheld|]. apply Hfresh. right. exact Hn.
    + apply B. apply E1; assumption.
  - intros Hd. etransitivity; [apply E3, Hd|apply C, Hd].
  - intros Hno.
    destruct (E4 (Hno p ltac:(left))) as [Hdry Hlive].
    destruct D as [D1 D2]; [intros q Hq; apply Hno; right; exact Hq|].
    split.
    + rewrite D1. destruct Hlive as [->|(f & n & Hf & Hn & ->)]; [reflexivity|].
      rewrite map_size_insert_None
        by (rewrite lookup_delete_ne; [exact Hn|intros ->; congruence]).
      rewrite map_size_delete, Hf. 
      assert (0 < size dir)%nat; [|lia].
      destruct (decide (size dir = 0%nat)) as [Hz|]; [|lia].
      apply map_size_empty_inv in Hz. rewrite Hz, lookup_empty in Hf. discriminate.
    + intros Hd. rewrite (D2 Hd). apply Hdry, Hd.
  - exists (new0 ++ new). split; [rewrite Hnew, <- app_assoc; reflexivity|].
    assert (∀ e, e ∈ new0 → renamed e = true →
              is_Some (dir1 !! new_path e) ∧ new_path e ∉ rest) as Hsettled.
    { intros e He Hr. destruct (E5 e He Hr) as (_ & Hfree & Hheld).
      split; [exact Hheld|]. apply Hfresh. right. exact Hfree. }
    split; [|].
    + intros e He Hr. apply elem_of_app in He as [He|He].
      * destruct (E5 e He Hr) as (Ho & Hfree & Hheld).
        destruct (Hsettled e He Hr) as [_ Hout].
        split; [rewrite Ho; left|]. split.
        -- destruct Hheld as [v Hv]. exists v. apply A; assumption.
        -- intros k [v Hk] _ Heq. congruence.
      * destruct (Eall e He Hr) as (Ho & Hheld & Havoid).
        split; [right; exact Ho|]. split; [exact Hheld|].
        intros k [v Hk] Hout. apply Havoid.
        -- exists v. apply E1; [exact Hk|]. intros ->. apply Hout. left.
        -- intros Hin. apply Hout. right. exact Hin.
    + rewrite filter_app, fmap_app. apply NoDup_app. split; [|split; [|exact Hdist]].
      * (* the step writes at most one entry *)
        destruct new0 as [|e0 [|e1 new0]]; [constructor| |simpl in Hlen0; lia].
        destruct (decide (renamed e0 = true)) as [Hr|Hr].
        -- rewrite filter_cons_True by exact Hr. apply NoDup_singleton.
        -- rewrite filter_cons_False by exact Hr. constructor.
      * intros n Hn Hn'.
        apply list_elem_of_fmap in Hn as (e & -> & He).
        apply list_elem_of_filter in He as [Hr He].
        apply list_elem_of_fmap in Hn' as (e' & Heq & He').
        apply list_elem_of_filter in He' as [Hr' He'].
        destruct (Hsettled e He Hr) as [Hheld Hout].
        destruct (Eall e' He' Hr') as (_ & _ & Havoid).
        apply (Havoid (new_path e) Hheld Hout). congruence.
Qed.
End renamer_loop.

Section glob_facts.
Context (ls : listing) (Hls : listing_ok ls).

Lemma bind_patterns {A} (dir : gmap string A) (exts : list string) :
  (ext ← exts; glob_ext ls dir ext ++ glob_ext ls dir (upper ext))
  = (p ← glob_patterns exts; glob_ext ls dir p).
Proof.
  unfold glob_patterns. induction exts as [|e exts IH]; [reflexivity|].
  rewrite !bind_cons, bind_app, IH, (bind_two e (upper e)). reflexivity.
Qed.

(** No name ends in two of the patterns when no pattern ends in
    another. *)
Lemma globs_disjoint_spec {A} (dir : gmap string A) (pats : list string) :
  NoDup pats →
  (∀ p q, p ∈ pats → q ∈ pats → p ≠ q → endswith p q = false) →
  NoDup (p ← pats; glob_ext ls dir p)
  ∧ ∀ n, n ∈ (p ← pats; glob_ext ls dir p) ↔
         is_Some (dir !! n) ∧ ∃ p, p ∈ pats ∧ endswith p n = true.
Proof.
  intros Hnd Hdisj. split.
  - induction pats as [|p pats IH]; [constructor|].
    apply NoDup_cons in Hnd as [Hp Hnd]. rewrite bind_cons.
    apply NoDup_app. split; [apply (glob_ext_spec ls Hls)|]. split.
    + intros n Hn Hn'. apply (glob_ext_spec ls Hls) in Hn as [_ Hn].
      apply list_elem_of_bind in Hn' as (q & Hn' & Hq).
      apply (glob_ext_spec ls Hls) in Hn' as [_ Hn'].
      assert (p ≠ q) as Hne by (intros ->; contradiction).
      destruct (decide (String.length p ≤ String.length q)%nat) as [Hl|Hl].
      * pose proof (endswith_nested p q n Hn Hn' Hl) as He.
        rewrite (Hdisj p q) in He; [discriminate|left|right; exact Hq|exact Hne].
      * pose proof (endswith_nested q p n Hn' Hn ltac:(lia)) as He.
        rewrite (Hdisj q p) in He; [discriminate|right; exact Hq|left|congruence].
    + apply IH; [exact Hnd|]. intros a b Ha Hb. apply Hdisj; right; assumption.
  - intros n. rewrite list_elem_of_bind. split.
    + intros (p & Hn & Hp). apply (glob_ext_spec ls Hls) in Hn as [Hn He]. eauto.
    + intros (Hn & p & Hp & He). exists p. split; [|exact Hp].
      apply (glob_ext_spec ls Hls). auto.
Qed.
End glob_facts.

Section renamer_files.
Import ai_photo_renamer renamer_run.
Context (ls : listing) (Hls : listing_ok ls).

Lemma media_patterns (exts : list string) :
  exts ≡ₚ MEDIA_EXT →
  NoDup (glob_patterns exts)
  ∧ (∀ p q, p ∈ glob_patterns exts → q ∈ glob_patterns exts → p ≠ q →
            endswith p q = false)
  ∧ ∀ p, p ∈ glob_patterns exts ↔ p ∈ glob_patterns MEDIA_EXT.
Proof.
  intros Hp.
  assert (glob_patterns exts ≡ₚ glob_patterns MEDIA_EXT) as Hperm
    by (unfold glob_patterns; rewrite Hp; reflexivity).
  assert (NoDup (glob_patterns MEDIA_EXT)) as Hnd.
  { apply (bool_decide_unpack _). vm_compute. exact I. }
  assert (Forall (λ p, Forall (λ q, p ≠ q → endswith p q = false)
                          (glob_patterns MEDIA_EXT))
                 (glob_patterns MEDIA_EXT)) as Hall.
  { apply (bool_decide_unpack _). vm_compute. exact I. }
  split; [rewrite Hperm; exact Hnd|]. split.
  - intros p q Hp' Hq'. rewrite Hperm in Hp', Hq'.
    rewrite Forall_forall in Hall. specialize (Hall p Hp').
    rewrite Forall_forall in Hall. apply (Hall q Hq').
  - intros p. rewrite Hperm. reflexivity.
Qed.

Lemma photo_files_spec (exts : list string) (dir : gmap string file)
    (max_files : option nat) :
  exts ≡ₚ MEDIA_EXT →
  NoDup (photo_files ls exts dir max_files)
  ∧ (∀ n, n ∈ photo_files ls exts dir max_files →
          is_Some (dir !! n)
          ∧ ∃ p, p ∈ glob_patterns MEDIA_EXT ∧ endswith p n = true)
  ∧ (match max_files with Some (S _) => False | _ => True end →
     ∀ n, is_Some (dir !! n) →
          (∃ p, p ∈ glob_patterns MEDIA_EXT ∧ endswith p n = true) →
          n ∈ photo_files ls exts dir max_files).
Proof.
  intros Hp. destruct (media_patterns exts Hp) as (Hnd & Hdisj & Hsame).
  destruct (globs_disjoint_spec ls Hls dir (glob_patterns exts) Hnd Hdisj)
    as [G1 G2].
  unfold photo_files. rewrite bind_patterns.
  set (all := glob_patterns exts ≫= glob_ext ls dir) in *.
  assert (∀ n, n ∈ all ↔ is_Some (dir !! n)
                         ∧ ∃ p, p ∈ glob_patterns MEDIA_EXT ∧ endswith p n = true)
    as Hall.
  { intros n. rewrite G2. split; intros (Hn & p & Hin & He);
      (split; [exact Hn|]); exists p; (split; [apply Hsame, Hin|exact He]). }
  destruct max_files as [[|m]|].
  - split; [exact G1|]. split; [intros n; apply Hall|].
    intros _ n Hn He. apply Hall. auto.
  - split; [eapply sublist_NoDup; [exact G1|apply sublist_take]|].
    split; [|intros []].
    intros n Hn. apply Hall. eapply elem_of_sublist; [exact Hn|apply sublist_take].
  - split; [exact G1|]. split; [intros n; apply Hall|].
    intros _ n Hn He. apply Hall. auto.
Qed.
End renamer_files.

(** X15: [rename_photos_in_folder] loses no photo.  A file it does not
    collect is untouched.  Whatever a file held is afterwards in the folder
    under some name, unless the file is a HEIC original whose JPG the
    converter wrote: then the JPG is in the folder.  A dry run removes and
    renames nothing, but it does convert: all it can add is what the
    converter writes.  When no collected file is a HEIC file the folder keeps
    its number of files, and a dry run leaves it as it is. *)
Theorem X15_renaming_loses_no_photo (ls : listing) (exts : list string)
    (w : collaborators) (analyze : file → ai_photo_renamer.analysis)
    (dir : gmap string file) (dry_run : bool) (max_files : option nat) :
  listing_ok ls → exts ≡ₚ renamer_run.MEDIA_EXT →
  let files := renamer_run.photo_files ls exts dir max_files in
  let r := renamer_run.rename_photos_in_folder ls exts w analyze dir dry_run
             max_files in
  (∀ k f, dir !! k = Some f → k ∉ files → r.1 !! k = Some f)
  ∧ (∀ k f, dir !! k = Some f →
       (∃ n, r.1 !! n = Some f)
       ∨ (∃ j n, in_set (lower (suffix k)) ai_photo_renamer.CONVERT_TO_JPG = true
                 ∧ heic_to_jpg w f = Saved j ∧ r.1 !! n = Some j))
  ∧ (dry_run = true → dir ⊆ r.1)
  ∧ ((∀ p, p ∈ files →
           in_set (lower (suffix p)) ai_photo_renamer.CONVERT_TO_JPG = false) →
     size r.1 = size dir ∧ (dry_run = true → r.1 = dir)).
Proof.
  intros Hls Hexts files r. subst r.
  destruct (photo_files_spec ls Hls exts dir max_files Hexts) as (Hnd & Hin & _).
  fold files in Hnd, Hin.
  unfold renamer_run.rename_photos_in_folder. fold files.
  destruct (rename_fold w analyze dry_run files Hnd dir [])
    as (A & B & C & D & _); [intros p Hp; apply (Hin p Hp)|].
  split; [exact A|]. split; [exact B|]. split; [exact C|exact D].
Qed.

Lemma X15_renaming_loses_no_photo_witness :
  let w := mk_collaborators true (λ f, Saved (mk_file 7 9 None None (st_mtime f)))
             (λ _ f, Saved f) false (λ _, None) (λ _ _, None) in
  let analyze := λ _ : file, ai_photo_renamer.mk_analysis "brown" [] in
  let f := mk_file 10 1 None None (mk_datetime 2024 2 1 10 0 0) in
  let g := mk_file 11 2 None None (mk_datetime 2024 2 1 10 0 30) in
  let dir : gmap string file :=
    {[ "IMG_20240115_091500.jpg" := f; "b.JPG" := g; "notes.txt" := f ]} in
  let r := renamer_run.rename_photos_in_folder default_listing
             renamer_run.MEDIA_EXT w analyze dir false None in
  r.1 !! "notes.txt" = Some f
  ∧ size r.1 = size dir
  ∧ r.1 = {[ "20240115_0915_brown.jpg" := f; "20240201_1000_brown.jpg" := g;
             "notes.txt" := f ]}.
Proof.
  intros w analyze f g dir r.
  destruct (X15_renaming_loses_no_photo default_listing renamer_run.MEDIA_EXT
              w analyze dir false None default_listing_ok) as (A & _ & _ & D);
    [reflexivity|].
  split; [|split].
  - apply A; [reflexivity|]. apply (bool_decide_unpack _). vm_compute. exact I.
  - apply D. apply Forall_forall. apply (bool_decide_unpack _). vm_compute. exact I.
  - vm_compute. reflexivity.
Defined.

Lemma stake_sdrop (n : nat) (s : string) : stake n s +:+ sdrop n s = s.
Proof.
  revert n. induction s as [|c s IH]; intros [|n]; try reflexivity.
  cbn [stake sdrop]. rewrite string_app_cons, IH. reflexivity.
Qed.

(** A name that ends in one of the globbed patterns holds a dot. *)
Lemma media_name_has_dot (p n : string) :
  p ∈ glob_patterns renamer_run.MEDIA_EXT → endswith p n = true →
  is_Some (rsplit_dot n).
Proof.
  intros Hp He.
  assert (Forall (λ p, is_Some (rfind "." p))
            (glob_patterns renamer_run.MEDIA_EXT)) as Hall
    by (repeat constructor; eexists; vm_compute; reflexivity).
  rewrite Forall_forall in Hall. destruct (Hall p Hp) as [i Hi].
  unfold endswith in He. apply andb_true_iff in He as [_ He].
  apply bool_decide_eq_true in He.
  rewrite <- (stake_sdrop (String.length n - String.length p) n), He.
  unfold rsplit_dot. rewrite rfind_app, Hi. eexists. reflexivity.
Qed.

(** In a dry run no entry is marked as renamed. *)
Lemma dry_run_marks_nothing (w : collaborators)
    (analyze : file → ai_photo_renamer.analysis) (l : list string)
    (st : gmap string file * list renamer_run.result) :
  Forall (λ e, renamer_run.renamed e = false) st.2 →
  Forall (λ e, renamer_run.renamed e = false)
    (fold_left (renamer_run.rename_step w analyze true) l st).2.
Proof.
  revert st. induction l as [|p l IH]; intros st Hst; [exact Hst|].
  cbn [fold_left]. apply IH. destruct st as [d rs].
  unfold renamer_run.rename_step.
  destruct (if in_set _ _ then _ else _) as [d1 pp].
  cbn [snd] in Hst.
  assert (∀ o ts nf,
            Forall (λ e, renamer_run.renamed e = false)
              (renamer_run.rename_to true rs p d1 pp o ts nf).2) as Hto.
  { intros o ts nf. unfold renamer_run.rename_to.
    destruct (rsplit_dot nf) as [[b x]|]; cbn [snd];
      [|apply Forall_app; split; [exact Hst|repeat constructor]].
    destruct (bool_decide _); cbn [snd]; [exact Hst|].
    apply Forall_app. split; [exact Hst|repeat constructor]. }
  destruct (d1 !! pp) as [f0|]; [apply Hto|].
  destruct (ai_photo_renamer.extract_timestamp_from_filename pp);
    [apply Hto|].
  cbn [snd]. apply Forall_app. split; [exact Hst|repeat constructor].
Qed.

(** A file that is no HEIC file and whose name is the one composed for it
    is left alone, and no entry is written. *)
Lemma rename_step_fixed (w : collaborators)
    (analyze : file → ai_photo_renamer.analysis) (dry_run : bool)
    (dir : gmap string file) (results : list renamer_run.result)
    (photo : string) (f : file) :
  dir !! photo = Some f → is_Some (rsplit_dot photo) →
  in_set (lower (suffix photo)) ai_photo_renamer.CONVERT_TO_JPG = false →
  ai_photo_renamer.generate_new_filename photo (st_mtime f) (analyze f)
    (ai_photo_renamer.extract_timestamp_from_filename photo) = photo →
  renamer_run.rename_step w analyze dry_run (dir, results) photo
  = (dir, results).
Proof.
  intros Hf [[b x] Hsplit] Hheic Hsame.
  unfold renamer_run.rename_step. rewrite Hheic, Hf, Hsame.
  unfold renamer_run.rename_to. rewrite Hsplit.
  unfold renamer_run.free_or_self.
  rewrite (bool_decide_eq_true_2 (photo = photo)) by reflexivity.
  rewrite andb_false_r. rewrite bool_decide_eq_true_2 by reflexivity.
  reflexivity.
Qed.

(** X16: every entry of [results] marked as renamed comes from a live run,
    belongs to a collected file and names a path that is taken in the folder
    afterwards; no two renamed entries name the same path.  When no
    collected file is a HEIC file and each one already carries the name
    composed for it, the run changes nothing and returns no entry. *)
Theorem X16_renamed_entries (ls : listing) (exts : list string)
    (w : collaborators) (analyze : file → ai_photo_renamer.analysis)
    (dir : gmap string file) (dry_run : bool) (max_files : option nat) :
  listing_ok ls → exts ≡ₚ renamer_run.MEDIA_EXT →
  let files := renamer_run.photo_files ls exts dir max_files in
  let r := renamer_run.rename_photos_in_folder ls exts w analyze dir dry_run
             max_files in
  (∀ e, e ∈ r.2 → renamer_run.renamed e = true →
        dry_run = false
        ∧ renamer_run.original_path e ∈ files
        ∧ is_Some (r.1 !! renamer_run.new_path e))
  ∧ NoDup (renamer_run.new_path
             <$> filter (λ e, renamer_run.renamed e = true) r.2)
  ∧ ((∀ p f, p ∈ files → dir !! p = Some f →
        in_set (lower (suffix p)) ai_photo_renamer.CONVERT_TO_JPG = false
        ∧ ai_photo_renamer.generate_new_filename p (st_mtime f) (analyze f)
            (ai_photo_renamer.extract_timestamp_from_filename p) = p) →
     r = (dir, [])).
Proof.
  intros Hls Hexts files r. subst r.
  destruct (photo_files_spec ls Hls exts dir max_files Hexts) as (Hnd & Hin & _).
  fold files in Hnd, Hin.
  unfold renamer_run.rename_photos_in_folder. fold files.
  destruct (rename_fold w analyze dry_run files Hnd dir [])
    as (_ & _ & _ & _ & new & Hnew & E & Hdist); [intros p Hp; apply (Hin p Hp)|].
  cbn [app] in Hnew. split; [|split].
  - rewrite Hnew. intros e He Hr. destruct (E e He Hr) as (Ho & Hheld & _).
    split; [|split; [exact Ho|exact Hheld]].
    destruct dry_run; [|reflexivity]. exfalso.
    pose proof (dry_run_marks_nothing w analyze files (dir, [])
                  (Forall_nil_2 _)) as Hq.
    rewrite Hnew in Hq. rewrite Forall_forall in Hq.
    rewrite (Hq e He) in Hr. discriminate.
  - rewrite Hnew. exact Hdist.
  - intros Hfix. clear Hnew E Hdist Hnd.
    assert (∀ p, p ∈ files →
              ∃ f, dir !! p = Some f ∧ is_Some (rsplit_dot p)
                   ∧ in_set (lower (suffix p)) ai_photo_renamer.CONVERT_TO_JPG
                     = false
                   ∧ ai_photo_renamer.generate_new_filename p (st_mtime f)
                       (analyze f)
                       (ai_photo_renamer.extract_timestamp_from_filename p)
                     = p) as Hall.
    { intros p Hp. destruct (Hin p Hp) as ([f Hf] & q & Hq & He).
      exists f. split; [exact Hf|]. split; [exact (media_name_has_dot q p Hq He)|].
      exact (Hfix p f Hp Hf). }
    clear Hin Hfix. induction files as [|p l IH]; [reflexivity|].
    cbn [fold_left]. destruct (Hall p) as (f & Hf & Hd & Hh & Hs); [left|].
    rewrite (rename_step_fixed w analyze dry_run dir [] p f Hf Hd Hh Hs).
    apply IH. intros q Hq. apply Hall. right. exact Hq.
Qed.

Lemma X16_renamed_entries_witness :
  let w := mk_collaborators true (λ f, Saved (mk_file 7 9 None None (st_mtime f)))
             (λ _ f, Saved f) false (λ _, None) (λ _ _, None) in
  let analyze := λ _ : file, ai_photo_renamer.mk_analysis "brown" [] in
  let f := mk_file 10 1 None None (mk_datetime 2024 2 1 10 0 0) in
  let dir : gmap string file :=
    {[ "20240201_1000_brown.jpg" := f; "notes.txt" := f ]} in
  renamer_run.rename_photos_in_folder default_listing renamer_run.MEDIA_EXT
    w analyze dir false None = (dir, []).
Proof.
  intros w analyze f dir.
  destruct (X16_renamed_entries default_listing renamer_run.MEDIA_EXT
              w analyze dir false None default_listing_ok) as (_ & _ & C);
    [reflexivity|].
  apply C. intros p g Hp Hg.
  assert (p = "20240201_1000_brown.jpg") as ->.
  { clear Hg. revert p Hp. apply Forall_forall.
    apply (bool_decide_unpack _). vm_compute. exact I. }
  assert (dir !! "20240201_1000_brown.jpg" = Some f) as Hf
    by (vm_compute; reflexivity).
  rewrite Hf in Hg. injection Hg as <-.
  split; vm_compute; reflexivity.
Defined.
